(** * ai-recipes-generator: the generation path, embedded and checked

    The development follows the repository's own layout:

    - [Js]               the few [String.prototype] methods the front end uses;
    - [Api]              [frontend/src/services/api.js]
                         ([retryRequest], [generateRecipes], [cleanRecipeData]);
    - [IngredientInput]  the ingredient editor ([addIngredient]);
    - [RecipeGenerator]  [frontend/src/components/RecipeGenerator.jsx]
                         ([checkDietaryConflicts]);
    - [Py], [GeminiService], [RecipesApi], [CircuitBreaker]
                         the Python service as printed in
                         [ASYNC_LLM_IMPLEMENTATION.md] and [README.md].

    JavaScript strings are modelled as [string]: sequences of code units in
    the ASCII range.  On that range [toLowerCase] and [toUpperCase] act on
    the 26 letters and leave every other unit alone, and [trim] removes the
    six ASCII white-space and line-terminator units. *)

From Stdlib Require Import ZArith Ascii String DecimalString Lia.
From stdpp Require Import base option list gmap strings sorting.

Local Open Scope Z_scope.

(* ===================================================================== *)
(** ** String.prototype *)
(* ===================================================================== *)

Module Js.

Definition is_upper (c : ascii) : bool :=
  let n := N_of_ascii c in (N.leb 65 n && N.leb n 90)%bool.

Definition is_lower (c : ascii) : bool :=
  let n := N_of_ascii c in (N.leb 97 n && N.leb n 122)%bool.

Definition lower_char (c : ascii) : ascii :=
  if is_upper c then ascii_of_N (N_of_ascii c + 32) else c.

Definition upper_char (c : ascii) : ascii :=
  if is_lower c then ascii_of_N (N_of_ascii c - 32) else c.

Fixpoint map_units (f : ascii → ascii) (s : string) : string :=
  match s with
  | EmptyString => EmptyString
  | String c s' => String (f c) (map_units f s')
  end.

(** [s.toLowerCase()], [s.toUpperCase()] *)
Definition toLowerCase : string → string := map_units lower_char.
Definition toUpperCase : string → string := map_units upper_char.

(** WhiteSpace and LineTerminator, ASCII range: TAB, LF, VT, FF, CR, SP. *)
Definition is_white_space (c : ascii) : bool :=
  let n := N_of_ascii c in
  (N.eqb n 9 || N.eqb n 10 || N.eqb n 11 || N.eqb n 12 || N.eqb n 13
   || N.eqb n 32)%bool.

Fixpoint trimStart (s : string) : string :=
  match s with
  | EmptyString => EmptyString
  | String c s' => if is_white_space c then trimStart s' else s
  end.

(** [trimEnd] walks to the end and drops a unit only when everything
    after it has been dropped as well. *)
Fixpoint trimEnd (s : string) : string :=
  match s with
  | EmptyString => EmptyString
  | String c s' =>
      match trimEnd s' with
      | EmptyString => if is_white_space c then EmptyString
                       else String c EmptyString
      | t => String c t
      end
  end.

(** [s.trim()] *)
Definition trim (s : string) : string := trimEnd (trimStart s).

(** [s.startsWith(p)] *)
Fixpoint startsWith (s p : string) : bool :=
  match p, s with
  | EmptyString, _ => true
  | String _ _, EmptyString => false
  | String a p', String b s' => if Ascii.eqb a b then startsWith s' p' else false
  end.

(** [s.includes(sub)]: [sub] occurs at some position of [s]. *)
Fixpoint includes (s sub : string) : bool :=
  if startsWith s sub then true
  else match s with
       | EmptyString => false
       | String _ s' => includes s' sub
       end.

(** [s.split(sep)] for a one-unit separator: the pieces between the
    occurrences of [sep], never an empty array (["".split("\n")] is
    [[""]]). *)
Fixpoint split (sep : ascii) (s : string) : list string :=
  match s with
  | EmptyString => [EmptyString]
  | String c s' =>
      if Ascii.eqb c sep then EmptyString :: split sep s'
      else match split sep s' with
           | [] => [String c EmptyString]
           | piece :: pieces => String c piece :: pieces
           end
  end.

(** [s.charAt(0)] and [s.slice(1)] *)
Definition charAt0 (s : string) : string :=
  match s with
  | EmptyString => EmptyString
  | String c _ => String c EmptyString
  end.

Definition slice1 (s : string) : string :=
  match s with
  | EmptyString => EmptyString
  | String _ s' => s'
  end.

Definition LF : ascii := ascii_of_N 10.

(** [mentions c s]: the unit [c] occurs in [s], that is
    [s.includes(c)]. *)
Definition mentions (c : ascii) (s : string) : bool :=
  includes s (String c EmptyString).

End Js.

(* ===================================================================== *)
(** ** frontend/src/services/api.js *)
(* ===================================================================== *)

Module Api.

(** Values a recipe object's properties can hold.  Numbers are the
    integers the recipe fields use (minutes, servings). *)
#[local] Unset Elimination Schemes.
Inductive JsValue : Type :=
| JUndefined
| JNull
| JBool (b : bool)
| JNum (n : Z)
| JStr (s : string)
| JArr (items : list JsValue)
| JObj (props : list (string * JsValue)).
#[local] Set Elimination Schemes.

(** ToBoolean *)
Definition truthy (v : JsValue) : bool :=
  match v with
  | JUndefined | JNull => false
  | JBool b => b
  | JNum n => negb (n =? 0)
  | JStr s => negb (String.eqb s "")
  | JArr _ | JObj _ => true
  end.

(** [a || b] *)
Definition or_else (a b : JsValue) : JsValue := if truthy a then a else b.

(** [v.key] on a value that is not null or undefined: an own property of
    an object literal, [undefined] otherwise. *)
Fixpoint assoc (key : string) (props : list (string * JsValue)) : JsValue :=
  match props with
  | [] => JUndefined
  | (k, v) :: rest => if String.eqb k key then v else assoc key rest
  end.

Definition get (v : JsValue) (key : string) : JsValue :=
  match v with
  | JObj props => assoc key props
  | _ => JUndefined
  end.

(** The recipe handed to [cleanRecipeData]; an absent property reads as
    [JUndefined]. *)
Record Recipe := {
  title : JsValue;
  description : JsValue;
  instructions : JsValue;
  ingredients : JsValue;
  prep_time : JsValue;
  cook_time : JsValue;
  servings : JsValue;
  difficulty : JsValue
}.

Record CleanIngredient := {
  ing_name : string;
  ing_amount : JsValue;
  ing_unit : JsValue;
  ing_notes : JsValue
}.

Record CleanedRecipe := {
  c_title : string;
  c_description : JsValue;
  c_instructions : JsValue;
  c_ingredients : list CleanIngredient;
  c_prep_time : JsValue;
  c_cook_time : JsValue;
  c_servings : JsValue;
  c_difficulty : string
}.

Inductive TypeError := NotAFunction (what : string).

Definition validDifficulties : list string :=
  ["Easy"; "Medium"; "Hard"; "Expert"].

(** [validDifficulties.includes(x)] *)
Definition array_includes (l : list string) (x : string) : bool :=
  existsb (String.eqb x) l.

(** [diff.charAt(0).toUpperCase() + diff.slice(1).toLowerCase()] *)
Definition normalize (diff : string) : string :=
  Js.toUpperCase (Js.charAt0 diff) +:+ Js.toLowerCase (Js.slice1 diff).

(** The immediately-invoked arrow function of the [difficulty] property.
    [diff.charAt] exists only on strings. *)
Definition clean_difficulty (d : JsValue) : TypeError + string :=
  let diff := or_else d (JStr "Medium") in
  match diff with
  | JStr s =>
      let normalized := normalize s in
      inr (if array_includes validDifficulties normalized
           then normalized else "Medium")
  | _ => inl (NotAFunction "diff.charAt")
  end.

(** [typeof v === 'string' ? v.trim() : dflt] *)
Definition trimmed_or (dflt : JsValue) (v : JsValue) : JsValue :=
  match v with
  | JStr s => JStr (Js.trim s)
  | _ => dflt
  end.

(** The callback of [recipe.ingredients.map]; [None] is the callback's
    [null]. *)
Definition clean_ingredient (ing : JsValue) : option CleanIngredient :=
  match ing with
  | JStr s =>
      Some {| ing_name := Js.trim s; ing_amount := JNull;
              ing_unit := JNull; ing_notes := JNull |}
  | JObj _ | JArr _ =>
      Some {| ing_name := match get ing "name" with
                          | JStr s => Js.trim s
                          | _ => ""
                          end;
              ing_amount := or_else (get ing "amount") JNull;
              ing_unit := trimmed_or JNull (get ing "unit");
              ing_notes := trimmed_or JNull (get ing "notes") |}
  | _ => None
  end.

(** [.filter(ing => ing && ing.name && ing.name.length > 0)] *)
Definition keep_ingredient (ing : option CleanIngredient) : bool :=
  match ing with
  | Some i => negb (String.eqb (ing_name i) "")
  | None => false
  end.

Definition clean_ingredients (v : JsValue) : list CleanIngredient :=
  match v with
  | JArr items =>
      omap id (filter (λ i, keep_ingredient i = true) (clean_ingredient <$> items))
  | _ => []
  end.

(** The last block: a string is cut at every line feed, each piece is
    trimmed and the empty ones go. *)
Definition split_steps (s : string) : list string :=
  filter (λ step, step ≠ "") (Js.trim <$> Js.split Js.LF s).

Definition clean_instructions (v : JsValue) : JsValue :=
  match or_else v (JArr []) with
  | JStr s => JArr (JStr <$> split_steps s)
  | other => other
  end.

Definition cleanRecipeData (recipe : Recipe) : TypeError + CleanedRecipe :=
  match clean_difficulty (difficulty recipe) with
  | inl e => inl e
  | inr diff =>
      inr {| c_title := match title recipe with
                        | JStr s => Js.trim s
                        | _ => ""
                        end;
             c_description := trimmed_or JNull (description recipe);
             c_instructions := clean_instructions (instructions recipe);
             c_ingredients := clean_ingredients (ingredients recipe);
             c_prep_time := or_else (prep_time recipe) JNull;
             c_cook_time := or_else (cook_time recipe) JNull;
             c_servings := or_else (servings recipe) JNull;
             c_difficulty := diff |}
  end.

(** *** Requests and [retryRequest] *)

(** What [retryRequest] reads of a rejected request: [error.code] and
    [error.response?.status]. *)
Record AxiosError := {
  code : option string;
  response_status : option Z
}.

Inductive Settled (A : Type) : Type :=
| Resolved (a : A)
| Rejected (e : AxiosError).
Arguments Resolved {A} a.
Arguments Rejected {A} e.

(** The network as the page sees it: the requests sent so far, oldest
    first, and the time spent in [setTimeout]. *)
Record Net := {
  sent : list (string * JsValue);
  slept : Z
}.

Definition Net0 : Net := {| sent := []; slept := 0 |}.

(** An async function: it runs against the network and settles. *)
Definition Async (A : Type) : Type := Net → Settled A * Net.

Definition MAX_RETRIES : nat := 3.
Definition RETRY_DELAY : Z := 1000.

(** [error.code === 'ECONNABORTED' || error.response?.status >= 500];
    a comparison with [undefined] is false. *)
Definition retryable (e : AxiosError) : bool :=
  (match code e with
   | Some c => String.eqb c "ECONNABORTED"
   | None => false
   end
   || match response_status e with
      | Some st => 500 <=? st
      | None => false
      end)%bool.

(** Whether a settled request is one [retryRequest] re-attempts while it
    has retries left. *)
Definition will_retry {A} (outcome : Settled A) : bool :=
  match outcome with
  | Rejected e => retryable e
  | Resolved _ => false
  end.

(** [await new Promise(resolve => setTimeout(resolve, RETRY_DELAY))] *)
Definition sleep (ms : Z) (n : Net) : Net :=
  {| sent := sent n; slept := slept n + ms |}.

Fixpoint retryRequest {A} (requestFn : Async A) (retries : nat) : Async A :=
  λ n,
    match requestFn n with
    | (Resolved a, n') => (Resolved a, n')
    | (Rejected error, n') =>
        match retries with
        | S retries' =>
            if retryable error
            then retryRequest requestFn retries' (sleep RETRY_DELAY n')
            else (Rejected error, n')
        | O => (Rejected error, n')
        end
    end.

(** [api.post(url, body)]: one outbound request.  [server k] is how the
    [k]-th request sent by the page settles. *)
Definition post (server : nat → Settled JsValue) (url : string)
    (body : JsValue) : Async JsValue :=
  λ n, (server (length (sent n)),
        {| sent := sent n ++ [(url, body)]; slept := slept n |}).

(** [recipeAPI.generateRecipes] *)
Definition generateRecipes (server : nat → Settled JsValue)
    (requestData : JsValue) : Async JsValue :=
  retryRequest (post server "/api/recipes/generate" requestData) MAX_RETRIES.

End Api.

(* ===================================================================== *)
(** ** The ingredient editor ([IngredientInput]) *)
(* ===================================================================== *)

Module IngredientInput.

(** [ingredients.includes(x)] *)
Definition array_includes (l : list string) (x : string) : bool :=
  existsb (String.eqb x) l.

(** [addIngredient]: the list handed to [onChange], or the list as it is
    when the guard fails. *)
Definition addIngredient (ingredients : list string) (ingredient : string)
    : list string :=
  let trimmed := Js.trim ingredient in
  if (negb (String.eqb trimmed "") && negb (array_includes ingredients trimmed))%bool
  then ingredients ++ [trimmed]
  else ingredients.

(** [removeIngredient] *)
Definition removeIngredient (ingredients : list string) (ingredient : string)
    : list string :=
  filter (λ item, item ≠ ingredient) ingredients.

(** The lists the editor can hold: it starts from [useState([])] and
    [onChange] is only called by the two functions above. *)
Inductive editable : list string → Prop :=
| editable_init : editable []
| editable_add l x : editable l → editable (addIngredient l x)
| editable_remove l x : editable l → editable (removeIngredient l x).

End IngredientInput.

(* ===================================================================== *)
(** ** frontend/src/components/RecipeGenerator.jsx *)
(* ===================================================================== *)

Module RecipeGenerator.

(** The check boxes; [dietaryPreferences] only ever holds these. *)
Inductive DietaryOption :=
| Vegetarian | Vegan | GlutenFree | DairyFree
| Keto | LowCarb | HighProtein | Paleo.

Definition dietaryOptions : list DietaryOption :=
  [Vegetarian; Vegan; GlutenFree; DairyFree; Keto; LowCarb; HighProtein; Paleo].

Definition label (d : DietaryOption) : string :=
  match d with
  | Vegetarian => "Vegetarian" | Vegan => "Vegan"
  | GlutenFree => "Gluten-Free" | DairyFree => "Dairy-Free"
  | Keto => "Keto" | LowCarb => "Low-Carb"
  | HighProtein => "High-Protein" | Paleo => "Paleo"
  end.

Definition dietaryRestrictions : gmap string (list string) :=
  <["vegetarian" :=
      ["chicken"; "beef"; "pork"; "lamb"; "turkey"; "duck"; "fish"; "salmon";
       "tuna"; "shrimp"; "crab"; "lobster"; "meat"; "bacon"; "ham"; "sausage";
       "pepperoni"]]>
  (<["vegan" :=
      ["chicken"; "beef"; "pork"; "lamb"; "turkey"; "duck"; "fish"; "salmon";
       "tuna"; "shrimp"; "crab"; "lobster"; "meat"; "bacon"; "ham"; "sausage";
       "pepperoni"; "eggs"; "milk"; "cheese"; "butter"; "yogurt"; "cream"]]>
  (<["gluten-free" :=
      ["wheat"; "barley"; "rye"; "flour"; "bread"; "pasta"; "noodles";
       "soy sauce"]]>
  (<["dairy-free" :=
      ["milk"; "cheese"; "butter"; "yogurt"; "cream"; "ice cream"]]> ∅))).

Record Conflict := {
  diet : DietaryOption;
  ingredients : list string
}.

(** The predicate handed to [ingredients.filter]. *)
Definition conflicting (forbiddenIngredients : list string)
    (ingredient : string) : bool :=
  existsb (λ forbidden,
             Js.includes (Js.toLowerCase ingredient) (Js.toLowerCase forbidden))
          forbiddenIngredients.

(** The body of [dietaryPreferences.forEach], [conflicts] being the array
    it pushes to. *)
Definition check_diet (ingredients : list string)
    (conflicts : list Conflict) (diet : DietaryOption) : list Conflict :=
  let dietLower := Js.toLowerCase (label diet) in
  match dietaryRestrictions !! dietLower with
  | Some forbiddenIngredients =>
      let conflictingIngredients :=
        filter (λ i, conflicting forbiddenIngredients i = true) ingredients in
      if (0 <? length conflictingIngredients)%nat
      then conflicts ++ [{| diet := diet; ingredients := conflictingIngredients |}]
      else conflicts
  | None => conflicts
  end.

Definition checkDietaryConflicts (dietaryPreferences : list DietaryOption)
    (ingredients : list string) : list Conflict :=
  foldl (check_diet ingredients) [] dietaryPreferences.

(** Vocabulary for statements about the check: the table a diet is looked
    up in (no table, no forbidden entry), and what it means for an
    ingredient to be reported under a diet. *)
Definition forbidden_table (d : DietaryOption) : list string :=
  default [] (dietaryRestrictions !! Js.toLowerCase (label d)).

Definition flagged (conflicts : list Conflict) (d : DietaryOption)
    (ingredient : string) : Prop :=
  ∃ c, c ∈ conflicts ∧ diet c = d ∧ ingredient ∈ ingredients c.

(** [handleSubmit]: the payload given to [onGenerate], or nothing (a
    warning is shown) when no ingredient has been entered. *)
Record RequestData := {
  req_ingredients : list string;
  req_dietary_preferences : list DietaryOption;
  req_cuisine_type : option string;
  req_meal_type : option string
}.

Definition non_empty (s : string) : option string :=
  if String.eqb s "" then None else Some s.

Definition handleSubmit (ingredients : list string)
    (dietaryPreferences : list DietaryOption) (cuisineType mealType : string)
    : option RequestData :=
  match ingredients with
  | [] => None
  | _ =>
      Some {| req_ingredients := ingredients;
              req_dietary_preferences := dietaryPreferences;
              req_cuisine_type := non_empty cuisineType;
              req_meal_type := non_empty mealType |}
  end.

End RecipeGenerator.

(* ===================================================================== *)
(** ** The recipe card ([RecipeCard]): [formatInstructions] *)
(* ===================================================================== *)

Module RecipeCard.
Import Api.

(** [\d] and [[A-Z]] *)
Definition is_digit (c : ascii) : bool :=
  let n := N_of_ascii c in (N.leb 48 n && N.leb n 57)%bool.

(** Number of leading units satisfying [p]: what a greedy [p+] or [p*]
    takes. *)
Fixpoint span_len (p : ascii → bool) (s : string) : nat :=
  match s with
  | EmptyString => 0
  | String c s' => if p c then S (span_len p s') else 0
  end.

Fixpoint drop_units (n : nat) (s : string) : string :=
  match n, s with
  | O, _ => s
  | S _, EmptyString => EmptyString
  | S n', String _ s' => drop_units n' s'
  end.

Definition dot : ascii := ascii_of_N 46.

(** Length of the match of [\d+\.\s*] at the head of [s]. *)
Definition numbering_len (s : string) : option nat :=
  let digits := span_len is_digit s in
  match digits, drop_units digits s with
  | S _, String c rest =>
      if Ascii.eqb c dot
      then Some (digits + 1 + span_len Js.is_white_space rest)%nat
      else None
  | _, _ => None
  end.

(** Length of the match of [\.\s+(?=[A-Z])] at the head of [s]. *)
Definition sentence_end_len (s : string) : option nat :=
  match s with
  | String c rest =>
      if Ascii.eqb c dot then
        let spaces := span_len Js.is_white_space rest in
        match spaces, drop_units spaces rest with
        | S _, String next _ =>
            if Js.is_upper next then Some (1 + spaces)%nat else None
        | _, _ => None
        end
      else None
  | EmptyString => None
  end.

(** The separator [/(?:\d+\.\s*|\.\s+(?=[A-Z]))/] tried at the head of
    [s]. *)
Definition separator_len (s : string) : option nat :=
  match numbering_len s with
  | Some n => Some n
  | None => sentence_end_len s
  end.

(** [s.split(separator)]: [skip] units of a separator found earlier are
    still to be passed over. *)
Fixpoint split_separator (skip : nat) (s : string) : list string :=
  match s with
  | EmptyString => [EmptyString]
  | String c s' =>
      match skip with
      | S skip' => split_separator skip' s'
      | O =>
          match separator_len s with
          | Some n => EmptyString :: split_separator (n - 1) s'
          | None =>
              match split_separator 0 s' with
              | [] => [String c EmptyString]
              | piece :: pieces => String c piece :: pieces
              end
          end
      end
  end.

(** [step.replace(/^\d+\.\s*/, '')] *)
Definition strip_numbering (step : string) : string :=
  match numbering_len step with
  | Some n => drop_units n step
  | None => step
  end.

(** [array.join('\n')] *)
Fixpoint join_lines (lines : list string) : string :=
  match lines with
  | [] => EmptyString
  | [line] => line
  | line :: rest => line +:+ String Js.LF (join_lines rest)
  end.

(** The template [`${index + 1}. ${step}`]. *)
Definition numbered (index : nat) (step : string) : string :=
  NilZero.string_of_uint (Nat.to_uint (S index)) +:+ ". " +:+ step.

(** The steps of an array must be strings: [step.replace] is called on
    each. *)
Fixpoint strings_of (items : list JsValue) : TypeError + list string :=
  match items with
  | [] => inr []
  | JStr s :: rest =>
      match strings_of rest with
      | inr l => inr (s :: l)
      | inl e => inl e
      end
  | _ :: _ => inl (NotAFunction "step.replace")
  end.

(** The steps [formatInstructions] numbers when given a string. *)
Definition string_steps (instructions : string) : list string :=
  fmap (M := list) Js.trim
      (filter (λ step, Js.trim step ≠ "") (split_separator 0 instructions)).

Definition formatInstructions (instructions : JsValue) : TypeError + string :=
  if negb (truthy instructions) then inr ""
  else
    match instructions with
    | JArr items =>
        match strings_of items with
        | inl e => inl e
        | inr steps =>
            inr (join_lines
                   (imap (λ index step,
                            numbered index (Js.trim (strip_numbering step)))
                         steps))
        end
    | JStr s => inr (join_lines (imap numbered (string_steps s)))
    | _ => inr ""
    end.

(** Vocabulary for statements about the formatter: a step without digit
    and without full stop, trimmed and not empty, and the one-line text
    ["1. Chop 2. Fry "] of such steps numbered from [index + 1]. *)
Fixpoint all_units (p : ascii → bool) (s : string) : bool :=
  match s with
  | EmptyString => true
  | String c s' => (p c && all_units p s')%bool
  end.

Definition inert (c : ascii) : bool :=
  (negb (is_digit c) && negb (Ascii.eqb c dot))%bool.

Definition plain_step (step : string) : Prop :=
  step ≠ "" ∧ Js.trim step = step ∧ all_units inert step = true.

Fixpoint numbered_text (index : nat) (steps : list string) : string :=
  match steps with
  | [] => EmptyString
  | step :: rest =>
      numbered index step +:+ " " +:+ numbered_text (S index) rest
  end.

(** Where a split cuts: [s] has no separator at any position and is one
    piece, or its leftmost separator [sep] comes after [pre], which is a
    piece, and the text after the separator is cut the same way. *)
Inductive cut_at_markers : string → list string → Prop :=
| cut_last s :
    (∀ pre post, s = pre +:+ post → separator_len post = None) →
    cut_at_markers s [s]
| cut_marker pre sep rest pieces :
    (∀ a b, pre = a +:+ b → b ≠ "" →
            separator_len (b +:+ sep +:+ rest) = None) →
    separator_len (sep +:+ rest) = Some (String.length sep) →
    cut_at_markers rest pieces →
    cut_at_markers (pre +:+ sep +:+ rest) (pre :: pieces).

End RecipeCard.

(* ===================================================================== *)
(** ** The Python service: exceptions and results *)
(* ===================================================================== *)

Module Py.

Inductive exn :=
| TimeoutError                                   (* asyncio.TimeoutError *)
| ClientError                                    (* transport failure *)
| GeminiAPIError (status : Z)                    (* "API returned {status}" *)
| ValueError                                     (* undecodable payload *)
| CircuitOpen                                    (* "Circuit breaker is OPEN" *)
| HTTPException (status_code : Z) (detail : string).

Inductive result (A : Type) : Type :=
| Return (a : A)
| Raise (e : exn).
Arguments Return {A} a.
Arguments Raise {A} e.

Definition raised {A} (r : result A) : bool :=
  match r with
  | Raise _ => true
  | Return _ => false
  end.

(** Values stored in the dictionaries the endpoints answer with. *)
Inductive value (Recipe : Type) : Type :=
| VStr (s : string)
| VInt (n : Z)
| VBool (b : bool)
| VRecipes (recipes : list Recipe)
| VRecipeSets (sets : list (list Recipe)).
Arguments VStr {Recipe} s.
Arguments VInt {Recipe} n.
Arguments VBool {Recipe} b.
Arguments VRecipes {Recipe} recipes.
Arguments VRecipeSets {Recipe} sets.

(** [asyncio.gather] with [return_exceptions=True]: every task's outcome
    is stored in the slot of the task's position when the task completes;
    [completion] lists the positions in the order the tasks complete.  The
    awaited list exists once every slot is filled. *)
Definition fill {A} (tasks : list A) (slots : list (option A)) (i : nat)
    : list (option A) :=
  match tasks !! i with
  | Some outcome => <[i := Some outcome]> slots
  | None => slots
  end.

Definition gather {A} (tasks : list A) (completion : list nat)
    : option (list A) :=
  mapM id (foldl (fill tasks) (replicate (length tasks) None) completion).

End Py.

(* ===================================================================== *)
(** ** services/gemini_service.py (sections 1 to 3 of the async notes)
       and the response parser of the README *)
(* ===================================================================== *)

Module GeminiService.
Import Py.

Section Service.

Context {Recipe RecipeData Payload : Type}.

(** Helpers the printed code calls but does not show. *)

(** [_clean_json_response], [json.loads] and [data.get('recipes', [])]:
    the recipe entries of a response text, or the exception raised on the
    way. *)
Variable recipe_entries : string → result (list RecipeData).
Variable _create_recipe_from_ai_data : RecipeData → result Recipe.
Variable _validate_recipe : Recipe → bool.
(** The static recipes, as served by the parser and by the service. *)
Variable _get_fallback_recipes : list Recipe.
Variable _get_fallback_recipes_async : list Recipe.
(** The generated text inside a decoded provider payload. *)
Variable response_text : Payload → result string.

(** The [for] loop of [_parse_response]; [recipes] is the list built so
    far. *)
Fixpoint collect (entries : list RecipeData) (recipes : list Recipe)
    : result (list Recipe) :=
  match entries with
  | [] => Return recipes
  | recipe_data :: rest =>
      match _create_recipe_from_ai_data recipe_data with
      | Raise e => Raise e
      | Return recipe =>
          collect rest (if _validate_recipe recipe
                        then recipes ++ [recipe] else recipes)
      end
  end.

(** [_parse_response] (README, "AI Response Processing"). *)
Definition _parse_response (text : string) : list Recipe :=
  match recipe_entries text with
  | Raise _ => _get_fallback_recipes
  | Return entries =>
      match collect entries [] with
      | Raise _ => _get_fallback_recipes
      | Return recipes => take 3 recipes          (* recipes[:3] *)
      end
  end.

(** Modelled from the spec: [_parse_response_async], the method
    [_call_gemini_async] ends with, which is printed nowhere.  The spec has
    the answer of the client go through its ResponseParser,
    "parse(rawText) → sequence of RecipeRecord | ParseError", which "caps
    output at 3 records even if more are present": the generated text is
    taken out of the decoded payload, raising when there is none, and
    parsed by the parser the repository prints, [_parse_response]. *)
Definition _parse_response_async (data : Payload) : result (list Recipe) :=
  match response_text data with
  | Raise e => Raise e
  | Return text => Return (_parse_response text)
  end.

(** How [session.post] ends: a response with its status and decoded body
    ([await response.json()]), or an exception of the transport. *)
Inductive Transport :=
| Responded (status : Z) (json : result Payload)
| Aborted (e : exn).

(** [_call_gemini_async] (section 2). *)
Definition _call_gemini_async (http : Transport) : result (list Recipe) :=
  match http with
  | Aborted e => Raise e
  | Responded status json =>
      if status =? 200 then
        match json with
        | Raise e => Raise e
        | Return data => _parse_response_async data
        end
      else Raise (GeminiAPIError status)
  end.

(** [generate_recipes] (section 1): the body run once the semaphore is
    held.  Only [asyncio.TimeoutError] is caught. *)
Definition generate_recipes (http : Transport) : result (list Recipe) :=
  match _call_gemini_async http with
  | Raise TimeoutError => Return _get_fallback_recipes_async
  | outcome => outcome
  end.

(** One entry of the list given to [generate_multiple_recipes]. *)
Record RequestDict := {
  ingredients : list string;
  cuisine_type : option string;
  dietary_preferences : list string
}.

(** The keyword arguments a task is created with. *)
Record Call := {
  call_ingredients : list string;
  call_cuisine_type : option string
}.

Definition task_call (req : RequestDict) : Call :=
  {| call_ingredients := ingredients req; call_cuisine_type := cuisine_type req |}.

(** The loop after [gather]. *)
Definition substitute (outcome : result (list Recipe)) : list Recipe :=
  match outcome with
  | Raise _ => _get_fallback_recipes_async
  | Return recipes => recipes
  end.

(** [generate_multiple_recipes] (section 3).  [gemini i c] is how the
    provider call of the [i]-th task, created with arguments [c], ends.
    The second component lists the calls tasks were created for. *)
Definition generate_multiple_recipes (gemini : nat → Call → Transport)
    (completion : list nat) (requests : list RequestDict)
    : option (list (list Recipe)) * list Call :=
  let calls := task_call <$> requests in
  let tasks := imap (λ i c, generate_recipes (gemini i c)) calls in
  (fmap (fmap (M := list) substitute) (gather tasks completion), calls).

End Service.

(** Modelled from the spec: the static recipes that
    [_get_fallback_recipes] and [_get_fallback_recipes_async] return; both
    are called without arguments and printed nowhere.  The spec's
    FallbackCatalog "holds a small set of static, always-available recipe
    records", its selection "always returns ≥1 record; never fails", and
    what is selected becomes the recipes of a GenerationResult, an "ordered
    sequence of RecipeRecord (0..3)". *)
Record FallbackCatalog (Recipe : Type) := {
  select : list Recipe;
  select_some : (1 ≤ length select)%nat;
  select_small : (length select ≤ 3)%nat
}.
Arguments select {Recipe} _.
Arguments select_some {Recipe} _.
Arguments select_small {Recipe} _.

End GeminiService.

(* ===================================================================== *)
(** ** "Reliability Features": timeout fallback, graceful degradation *)
(* ===================================================================== *)

Module Reliability.
Import Py.

(** The two ways the provider is reached. *)
Inductive Channel := AsyncHttp | SyncThread.

(** A coroutine of the service: it runs against the list of provider calls
    made so far and ends with a value or an exception. *)
Definition Task (A : Type) : Type := list Channel → result A * list Channel.

Definition ret {A} (a : A) : Task A := λ calls, (Return a, calls).

Definition try_except {A} (body : Task A) (handler : exn → Task A) : Task A :=
  λ calls,
    match body calls with
    | (Return a, calls') => (Return a, calls')
    | (Raise e, calls') => handler e calls'
    end.

Notation "'try' body 'except' e '=>' handler" :=
  (try_except body (λ e, handler))
  (at level 10, body at level 9, e name, handler at level 200).

Section Degradation.

Context {Recipe : Type}.

(** [provider k ch]: how the [k]-th provider call ends when made over
    [ch]. *)
Variable provider : nat → Channel → result (list Recipe).
Variable _get_fallback_recipes_async : list Recipe.

Definition provider_call (ch : Channel) : Task (list Recipe) :=
  λ calls, (provider (length calls) ch, calls ++ [ch]).

Definition _make_http_request : Task (list Recipe) := provider_call AsyncHttp.
Definition _call_gemini_sync_fallback : Task (list Recipe) := provider_call SyncThread.

(** [_call_gemini_async] ("Timeout and Retry Logic"). *)
Definition _call_gemini_async : Task (list Recipe) :=
  try _make_http_request
  except e => match e with
              | TimeoutError => _call_gemini_sync_fallback
              | _ => λ calls, (Raise e, calls)
              end.

(** [generate_recipes] ("Graceful Degradation"). *)
Definition generate_recipes : Task (list Recipe) :=
  try _call_gemini_async
  except _e1 =>
    (try _call_gemini_sync_fallback
     except _e2 => ret _get_fallback_recipes_async).

End Degradation.

End Reliability.

(* ===================================================================== *)
(** ** api/recipes.py: the two endpoints *)
(* ===================================================================== *)

Module RecipesApi.
Import Py.

(** [background_tasks.add_task(log_recipe_generation, ...)] *)
Record LogEntry := {
  log_ingredients : list string;
  log_success : bool;
  log_recipe_count : option nat;
  log_error : option exn
}.

Section Endpoints.

Context {Recipe RecipeData Payload : Type}.

(** [POST /recipes/generate] (section 4).  [service] is what
    [gemini_service.generate_recipes] ends with for this request; the
    second component is what was queued on [background_tasks]. *)
Definition generate_recipes (service : result (list Recipe))
    (request_ingredients : list string)
    : result (gmap string (value Recipe)) * list LogEntry :=
  match service with
  | Return recipes =>
      (Return (<["recipes" := VRecipes recipes]>
               (<["status" := VStr "success"]> ∅)),
       [{| log_ingredients := request_ingredients; log_success := true;
           log_recipe_count := Some (length recipes); log_error := None |}])
  | Raise e =>
      (Raise (HTTPException 500 "Generation failed"),
       [{| log_ingredients := request_ingredients; log_success := false;
           log_recipe_count := None; log_error := Some e |}])
  end.

Variable recipe_entries : string → result (list RecipeData).
Variable _create_recipe_from_ai_data : RecipeData → result Recipe.
Variable _validate_recipe : Recipe → bool.
Variable _get_fallback_recipes : list Recipe.
Variable _get_fallback_recipes_async : list Recipe.
Variable response_text : Payload → result string.

(** [sum(len(r) for r in results)] *)
Definition total (results : list (list Recipe)) : Z :=
  foldr (λ r acc, Z.of_nat (length r) + acc) 0 results.

(** [POST /recipes/generate-batch] (section 5).  The answer is [None]
    while [gather] is still waiting; the second component lists the calls
    the service created tasks for. *)
Definition generate_recipes_batch
    (gemini : nat → GeminiService.Call → GeminiService.Transport (Payload := Payload))
    (completion : list nat) (requests : list GeminiService.RequestDict)
    : option (result (gmap string (value Recipe))) * list GeminiService.Call :=
  if (5 <? length requests)%nat
  then (Some (Raise (HTTPException 400 "Maximum 5 concurrent requests")), [])
  else
    let request_dicts :=
      (λ req,
         {| GeminiService.ingredients := GeminiService.ingredients req;
            GeminiService.cuisine_type := GeminiService.cuisine_type req;
            GeminiService.dietary_preferences :=
              GeminiService.dietary_preferences req |}) <$> requests in
    let '(results, calls) :=
      GeminiService.generate_multiple_recipes recipe_entries
        _create_recipe_from_ai_data _validate_recipe _get_fallback_recipes
        _get_fallback_recipes_async response_text gemini completion
        request_dicts in
    (fmap (λ rs, Return (<["recipe_sets" := VRecipeSets rs]>
                         (<["total_recipes" := VInt (total rs)]>
                          (<["concurrent_processing" := VBool true]> ∅))))
          results,
     calls).

End Endpoints.

End RecipesApi.

(* ===================================================================== *)
(** ** The circuit breaker ("Reliability Features", 1) *)
(* ===================================================================== *)

Module CircuitBreaker.
Import Py.

Inductive CircuitState := CLOSED | OPEN | HALF_OPEN.

(** The printed [__init__] sets the two thresholds and the state; the
    counter and the time stamp are the ones the spec's "rolling failure
    counter and cool-down timer" need. *)
Record t := {
  failure_threshold : nat;
  recovery_timeout : Z;
  state : CircuitState;
  failure_count : nat;
  last_failure_time : Z
}.

Definition __init__ (failure_threshold : nat) (recovery_timeout : Z) : t :=
  {| failure_threshold := failure_threshold;
     recovery_timeout := recovery_timeout;
     state := CLOSED;
     failure_count := 0;
     last_failure_time := 0 |}.

Definition default : t := __init__ 3 30.

Definition set_state (cb : t) (s : CircuitState) : t :=
  {| failure_threshold := failure_threshold cb;
     recovery_timeout := recovery_timeout cb;
     state := s;
     failure_count := failure_count cb;
     last_failure_time := last_failure_time cb |}.

(** Modelled from the spec: [_should_attempt_reset] is called by [call] but
    not printed.  "Stays open for a fixed cool-down": a reset is attempted
    once the cool-down has elapsed since the breaker opened. *)
Definition _should_attempt_reset (now : Z) (cb : t) : bool :=
  recovery_timeout cb <=? now - last_failure_time cb.

(** Modelled from the spec: [_on_success] is called by [call] but not
    printed.  "HalfOpen to Closed on a single success"; a success ends a
    run of consecutive failures; no transition leaves [OPEN] on a
    success. *)
Definition _on_success (cb : t) : t :=
  match state cb with
  | OPEN => cb
  | CLOSED | HALF_OPEN =>
      {| failure_threshold := failure_threshold cb;
         recovery_timeout := recovery_timeout cb;
         state := CLOSED;
         failure_count := 0;
         last_failure_time := last_failure_time cb |}
  end.

(** Modelled from the spec: [_on_failure] is called by [call] but not
    printed.  "Opens after F consecutive failures", "HalfOpen to Open on
    any failure"; the cool-down runs from the failure that opens the
    breaker. *)
Definition _on_failure (now : Z) (cb : t) : t :=
  match state cb with
  | OPEN => cb
  | HALF_OPEN =>
      {| failure_threshold := failure_threshold cb;
         recovery_timeout := recovery_timeout cb;
         state := OPEN;
         failure_count := S (failure_count cb);
         last_failure_time := now |}
  | CLOSED =>
      {| failure_threshold := failure_threshold cb;
         recovery_timeout := recovery_timeout cb;
         state := if (failure_threshold cb <=? S (failure_count cb))%nat
                  then OPEN else CLOSED;
         failure_count := S (failure_count cb);
         last_failure_time := now |}
  end.

(** The part of [call] before [func] is awaited. *)
Definition before_call (now : Z) (cb : t) : result unit * t :=
  match state cb with
  | OPEN =>
      if _should_attempt_reset now cb
      then (Return tt, set_state cb HALF_OPEN)
      else (Raise CircuitOpen, cb)
  | _ => (Return tt, cb)
  end.

(** [call]: [func now'] is how the awaited function ends, [now'] being the
    time at which it does. *)
Definition call {A} (now : Z) (func : result A) (now' : Z) (cb : t)
    : result A * t :=
  match before_call now cb with
  | (Raise e, cb') => (Raise e, cb')
  | (Return _, cb') =>
      match func with
      | Return a => (Return a, _on_success cb')
      | Raise e => (Raise e, _on_failure now' cb')
      end
  end.

(** The three entry points as events, and the breaker's reaction. *)
Inductive event :=
| BeforeCall (now : Z)
| OnSuccess
| OnFailure (now : Z).

Definition step (cb : t) (ev : event) : t :=
  match ev with
  | BeforeCall now => snd (before_call now cb)
  | OnSuccess => _on_success cb
  | OnFailure now => _on_failure now cb
  end.

Definition run (cb : t) (evs : list event) : t := foldl step cb evs.

(** The failures at the end of a history, back to the last success;
    [BeforeCall] is neither. *)
Fixpoint trailing_failures (rev_history : list event) : nat :=
  match rev_history with
  | [] => 0
  | OnFailure _ :: earlier => S (trailing_failures earlier)
  | BeforeCall _ :: earlier => trailing_failures earlier
  | OnSuccess :: _ => 0
  end.

(** The transitions of the specification's state machine. *)
Inductive transition (cb : t) : event → t → Prop :=
| closed_to_open now cb' :
    state cb = CLOSED → state cb' = OPEN →
    (failure_threshold cb ≤ S (failure_count cb))%nat →
    transition cb (OnFailure now) cb'
| open_to_half_open now cb' :
    state cb = OPEN → state cb' = HALF_OPEN →
    recovery_timeout cb ≤ now - last_failure_time cb →
    transition cb (BeforeCall now) cb'
| half_open_to_closed cb' :
    state cb = HALF_OPEN → state cb' = CLOSED →
    transition cb OnSuccess cb'
| half_open_to_open now cb' :
    state cb = HALF_OPEN → state cb' = OPEN →
    transition cb (OnFailure now) cb'.

End CircuitBreaker.

(* ===================================================================== *)
(** ** Sample data used by the worked instances below *)
(* ===================================================================== *)

Module Samples.

Definition sample_recipe (difficulty instructions : Api.JsValue) : Api.Recipe :=
  {| Api.title := Api.JStr " Soup "; Api.description := Api.JUndefined;
     Api.instructions := instructions;
     Api.ingredients := Api.JArr [Api.JStr "leek "];
     Api.prep_time := Api.JNum 10; Api.cook_time := Api.JNum 0;
     Api.servings := Api.JNull; Api.difficulty := difficulty |}.

(** ["Chop\nFry"] *)
Definition two_lines : string := "Chop" +:+ String Js.LF "Fry".

(** Thirty-one distinct names, ["item1"] to ["item31"]. *)
Definition pantry : list string :=
  (λ n, "item" +:+ NilEmpty.string_of_uint (Nat.to_uint n)) <$> seq 1 31.

(** A backend that answers every request with the given status, and one
    that never answers within the time-out. *)
Definition always_status (status : Z) (k : nat) : Api.Settled Api.JsValue :=
  Api.Rejected {| Api.code := Some "ERR_BAD_RESPONSE";
                  Api.response_status := Some status |}.

Definition always_timeout (k : nat) : Api.Settled Api.JsValue :=
  Api.Rejected {| Api.code := Some "ECONNABORTED"; Api.response_status := None |}.

(** A backend that fails once with 503 and then answers. *)
Definition flaky (k : nat) : Api.Settled Api.JsValue :=
  match k with
  | O => always_status 503 O
  | S _ => Api.Resolved (Api.JObj [("recipes", Api.JArr [])])
  end.

Definition request_body : Api.JsValue :=
  Api.JObj [("ingredients", Api.JArr [Api.JStr "chicken"; Api.JStr "rice"])].

(** A service whose provider text always decodes to five valid entries,
    recipes being their titles. *)
Definition five_entries (text : string) : Py.result (list string) :=
  Py.Return ["Soup"; "Stew"; "Salad"; "Curry"; "Pie"].

Definition titled (entry : string) : Py.result string := Py.Return entry.

Definition any_recipe (recipe : string) : bool := true.

Definition pantry_pasta : list string := ["Pantry pasta"].

(** A catalog of one static recipe. *)
Definition static_catalog : GeminiService.FallbackCatalog string :=
  {| GeminiService.select := pantry_pasta;
     GeminiService.select_some := le_n 1;
     GeminiService.select_small := le_S 1 2 (le_S 1 1 (le_n 1)) |}.

Definition plain_text (payload : string) : Py.result string := Py.Return payload.

Definition request_for (ingredient : string) : GeminiService.RequestDict :=
  {| GeminiService.ingredients := [ingredient];
     GeminiService.cuisine_type := None;
     GeminiService.dietary_preferences := [] |}.

Definition six_requests : list GeminiService.RequestDict :=
  request_for <$> ["rice"; "leek"; "egg"; "tofu"; "kale"; "corn"].

Definition three_requests : list GeminiService.RequestDict :=
  request_for <$> ["rice"; "leek"; "egg"].

(** A provider that answers the first and third task and is down for the
    second. *)
Definition second_down (i : nat) (c : GeminiService.Call)
    : GeminiService.Transport (Payload := string) :=
  match i with
  | 1%nat => GeminiService.Aborted Py.ClientError
  | _ => GeminiService.Responded 200 (Py.Return "text")
  end.

(** A provider that is unreachable on every channel, and one that times
    out over HTTP but answers the thread-pool call. *)
Definition unreachable (k : nat) (ch : Reliability.Channel)
    : Py.result (list string) :=
  Py.Raise Py.ClientError.

Definition slow_http (k : nat) (ch : Reliability.Channel)
    : Py.result (list string) :=
  match ch with
  | Reliability.AsyncHttp => Py.Raise Py.TimeoutError
  | Reliability.SyncThread => Py.Return ["Soup"]
  end.

End Samples.

(* ===================================================================== *)
(** ** frontend/src/App.js: the notification list *)
(* ===================================================================== *)

Module Notifications.

Section WithIds.

(** [Date.now() + Math.random()]: an identifier compared with [!==]. *)
Context {Id : Type} `{EqDecision Id}.

Record Notification := {
  id : Id;
  message : string;
  type : string
}.

(** [prev.findIndex(p)], [None] standing for [-1]. *)
Fixpoint findIndex (p : Notification → bool) (l : list Notification)
    : option nat :=
  match l with
  | [] => None
  | n :: rest => if p n then Some 0%nat else S <$> findIndex p rest
  end.

(** [l.slice(-5)] *)
Definition last_five (l : list Notification) : list Notification :=
  drop (length l - 5) l.

(** The updater handed to [setNotifications] by [addNotification]. *)
Definition addNotification (notification : Notification)
    (prev : list Notification) : list Notification :=
  let existingIndex :=
    findIndex (λ n, String.eqb (message n) (message notification)) prev in
  let newNotifications :=
    match existingIndex with
    | Some i => delete i prev ++ [notification]
    | None => prev ++ [notification]
    end in
  if (5 <? length newNotifications)%nat
  then last_five newNotifications
  else newNotifications.

(** [removeNotification], also run by the timer of a notification. *)
Definition removeNotification (i : Id) (prev : list Notification)
    : list Notification :=
  filter (λ notif, id notif ≠ i) prev.

Definition clearAllNotifications : list Notification := [].

(** The lists the page can show: [useState([])] and the three updaters. *)
Inductive shown : list Notification → Prop :=
| shown_init : shown []
| shown_add n l : shown l → shown (addNotification n l)
| shown_remove i l : shown l → shown (removeNotification i l)
| shown_clear l : shown l → shown clearAllNotifications.

End WithIds.

Arguments Notification Id : clear implicits.

End Notifications.

(* ===================================================================== *)
(** ** The pagination bar ([Pagination]) *)
(* ===================================================================== *)

Module Pagination.

(** An entry of [pageNumbers]: a page or the string ['...']. *)
Inductive PageItem :=
| Page (n : Z)
| Ellipsis.

(** The pages pushed by [for (let i = first; i <= last; i++)]. *)
Definition pages_from (first last : Z) : list PageItem :=
  Page <$> seqZ first (last - first + 1).

Definition maxPagesToShow : Z := 5.

Definition getPageNumbers (totalPages currentPage : Z) : list PageItem :=
  if totalPages <=? maxPagesToShow then pages_from 1 totalPages
  else
    let startPage := Z.max 2 (currentPage - 1) in
    let endPage := Z.min (totalPages - 1) (currentPage + 1) in
    [Page 1]
    ++ (if 2 <? startPage then [Ellipsis] else [])
    ++ pages_from startPage endPage
    ++ (if endPage <? totalPages - 1 then [Ellipsis] else [])
    ++ (if 1 <? totalPages then [Page totalPages] else []).

(** [startItem] and [endItem] of the "Showing a-b of n results" line. *)
Definition startItem (currentPage itemsPerPage : Z) : Z :=
  (currentPage - 1) * itemsPerPage + 1.

Definition endItem (currentPage itemsPerPage totalItems : Z) : Z :=
  Z.min (currentPage * itemsPerPage) totalItems.

(** What the component renders: nothing for a single page, else the info
    line and the page buttons. *)
Definition render (currentPage totalPages totalItems itemsPerPage : Z)
    : option (Z * Z * list PageItem) :=
  if totalPages <=? 1 then None
  else Some (startItem currentPage itemsPerPage,
             endItem currentPage itemsPerPage totalItems,
             getPageNumbers totalPages currentPage).

(** The page numbers among the entries. *)
Definition page_of (item : PageItem) : option Z :=
  match item with
  | Page n => Some n
  | Ellipsis => None
  end.

End Pagination.

(* ===================================================================== *)
(** ** The ingredient editor, continued: suggestions *)
(* ===================================================================== *)

Module Suggestions.

Definition commonIngredients : list string :=
  ["tomatoes"; "onions"; "garlic"; "olive oil"; "salt"; "pepper";
   "chicken"; "beef"; "fish"; "eggs"; "milk"; "cheese"; "butter";
   "rice"; "pasta"; "bread"; "potatoes"; "carrots"; "bell peppers";
   "mushrooms"; "spinach"; "lettuce"; "basil"; "oregano"; "thyme";
   "lemon"; "lime"; "ginger"; "soy sauce"; "honey"; "vinegar"].

(** The three [useState] cells of the editor. *)
Record State := {
  inputValue : string;
  suggestions : list string;
  showSuggestions : bool
}.

Definition initial : State :=
  {| inputValue := ""; suggestions := []; showSuggestions := false |}.

(** The predicate handed to [commonIngredients.filter]. *)
Definition suggested (ingredients : list string) (value ingredient : string)
    : bool :=
  (Js.includes (Js.toLowerCase ingredient) (Js.toLowerCase value)
   && negb (IngredientInput.array_includes ingredients ingredient))%bool.

(** [handleInputChange], [value] being [e.target.value]. *)
Definition handleInputChange (ingredients : list string) (value : string)
    (st : State) : State :=
  if (1 <? String.length value)%nat then
    let filtered :=
      filter (λ i, suggested ingredients value i = true) commonIngredients in
    {| inputValue := value; suggestions := take 5 filtered;
       showSuggestions := true |}
  else
    {| inputValue := value; suggestions := suggestions st;
       showSuggestions := false |}.

(** The suggestions on screen:
    [showSuggestions && suggestions.length > 0 && ...]. *)
Definition displayed (st : State) : list string :=
  if showSuggestions st then suggestions st else [].

(** [handleSuggestionClick] *)
Definition handleSuggestionClick (ingredients : list string)
    (suggestion : string) : list string :=
  IngredientInput.addIngredient ingredients suggestion.

End Suggestions.

(* ===================================================================== *)
(** ** RecipeGenerator.jsx, continued: the diet check boxes *)
(* ===================================================================== *)

Module DietaryToggle.
Import RecipeGenerator.

Definition option_eqb (a b : DietaryOption) : bool :=
  String.eqb (label a) (label b).

(** [prev.includes(option)] *)
Definition includes (prev : list DietaryOption) (option : DietaryOption) : bool :=
  existsb (option_eqb option) prev.

(** The updater of [handleDietaryChange]. *)
Definition handleDietaryChange (option : DietaryOption)
    (prev : list DietaryOption) : list DietaryOption :=
  if includes prev option
  then filter (λ item, option_eqb item option = false) prev
  else prev ++ [option].

(** The selections the form can hold: [useState([])] and the check
    boxes. *)
Inductive selectable : list DietaryOption → Prop :=
| selectable_init : selectable []
| selectable_toggle o l : selectable l → selectable (handleDietaryChange o l).

End DietaryToggle.

(* ===================================================================== *)
(** ** api.js, continued: interceptor, health check, [createRecipe] *)
(* ===================================================================== *)

Module ApiClient.
Import Api.

(** *** The response interceptor *)

Record Response := {
  status : Z;
  data : JsValue
}.

(** An error as the interceptor sees it; [userMessage] is [JUndefined]
    until the interceptor sets it, [request] tells whether [error.request]
    is set. *)
Record Failure := {
  code : option string;
  response : option Response;
  request : bool;
  message : string;
  userMessage : JsValue
}.

(** What [retryRequest] reads of it. *)
Definition view (e : Failure) : AxiosError :=
  {| Api.code := code e; Api.response_status := status <$> response e |}.

(** [v.key]: reading a property of [null] or [undefined] throws. *)
Definition prop (v : JsValue) (key : string) : TypeError + JsValue :=
  match v with
  | JUndefined | JNull => inl (NotAFunction "Cannot read properties")
  | other => inr (get other key)
  end.

(** [array.join(sep)] on strings. *)
Fixpoint join (sep : string) (parts : list string) : string :=
  match parts with
  | [] => EmptyString
  | [part] => part
  | part :: rest => part +:+ sep +:+ join sep rest
  end.

(** The last unit of a string, as a string. *)
Fixpoint last_unit (s : string) : string :=
  match s with
  | EmptyString => EmptyString
  | String c EmptyString => s
  | String _ rest => last_unit rest
  end.

Section WithToString.

(** ECMAScript's ToString, used by the template literals. *)
Variable to_string : JsValue → string.

(** [loc.slice(-1)[0]] for a truthy [loc]: the last unit of a string, the
    last element of an array; nothing else has a [slice] method. *)
Definition last_of (loc : JsValue) : TypeError + JsValue :=
  match loc with
  | JStr s => inr (JStr (last_unit s))
  | JArr items => inr (default JUndefined (last items))
  | _ => inl (NotAFunction "err.loc.slice")
  end.

(** The callback of [data.detail.map]. *)
Definition validation_line (err : JsValue) : TypeError + string :=
  match prop err "loc" with
  | inl e => inl e
  | inr loc =>
      match (if truthy loc then last_of loc else inr (JStr "unknown field")) with
      | inl e => inl e
      | inr field =>
          inr (to_string field +:+ ": " +:+ to_string (get err "msg"))
      end
  end.

Fixpoint validation_lines (errs : list JsValue) : TypeError + list string :=
  match errs with
  | [] => inr []
  | err :: rest =>
      match validation_line err with
      | inl e => inl e
      | inr line =>
          match validation_lines rest with
          | inl e => inl e
          | inr lines => inr (line :: lines)
          end
      end
  end.

(** The [switch (status)] of the interceptor: the user message for a
    response. *)
Definition response_message (error_message : string) (r : Response)
    : TypeError + JsValue :=
  let detail_or (dflt : string) : TypeError + JsValue :=
    match prop (data r) "detail" with
    | inl e => inl e
    | inr detail => inr (or_else detail (JStr dflt))
    end in
  if status r =? 400 then
    detail_or "Invalid request. Please check your input."
  else if status r =? 422 then
    match prop (data r) "detail" with
    | inl e => inl e
    | inr (JArr errs) =>
        match validation_lines errs with
        | inl e => inl e
        | inr lines => inr (JStr ("Validation errors: " +:+ join "; " lines))
        end
    | inr _ => detail_or "Invalid data format. Please check your input."
    end
  else if status r =? 500 then
    inr (JStr "Server error. Please try again later.")
  else if status r =? 503 then
    inr (JStr "Service temporarily unavailable. Please try again later.")
  else
    detail_or ("Error " +:+ to_string (JNum (status r)) +:+ ": " +:+ error_message).

Definition with_message (e : Failure) (m : JsValue) : Failure :=
  {| code := code e; response := response e; request := request e;
     message := message e; userMessage := m |}.

(** The error handler of [api.interceptors.response]: the error it
    rejects with, or the [TypeError] it throws itself. *)
Definition on_rejected (error : Failure) : TypeError + Failure :=
  match response error with
  | Some r =>
      match response_message (message error) r with
      | inl e => inl e
      | inr m => inr (with_message error m)
      end
  | None =>
      if request error
      then inr (with_message error
                  (JStr "Network error. Please check your connection and try again."))
      else inr (with_message error
                  (JStr "An unexpected error occurred. Please try again."))
  end.

(** [err.userMessage || err.message], what the hooks and the page show. *)
Definition shown_message (e : Failure) : JsValue :=
  or_else (userMessage e) (JStr (message e)).

End WithToString.

(** *** The health check *)

(** [api.get(url)]: one outbound request, settling with the response
    (only a 2xx status resolves) or rejecting. *)
Definition get_request (server : nat → Settled Response) (url : string)
    : Async Response :=
  λ n, (server (length (sent n)),
        {| sent := sent n ++ [(url, JUndefined)]; slept := slept n |}).

(** [checkBackendHealth] *)
Definition checkBackendHealth (server : nat → Settled Response) : Async bool :=
  λ n,
    match get_request server "/health" n with
    | (Resolved r, n') => (Resolved (status r =? 200), n')
    | (Rejected _, n') => (Resolved false, n')
    end.

(** [ensureConnection]: the rejection is a plain [Error], without code or
    response. *)
Definition ensureConnection (server : nat → Settled Response) : Async unit :=
  λ n,
    match checkBackendHealth server n with
    | (Resolved true, n') => (Resolved tt, n')
    | (_, n') =>
        (Rejected {| Api.code := None; Api.response_status := None |}, n')
    end.

(** *** [createRecipe] *)

(** The object [cleanRecipeData] returns, as a value: the body that is
    posted. *)
Definition ingredient_value (i : CleanIngredient) : JsValue :=
  JObj [("name", JStr (ing_name i)); ("amount", ing_amount i);
        ("unit", ing_unit i); ("notes", ing_notes i)].

Definition cleaned_value (c : CleanedRecipe) : JsValue :=
  JObj [("title", JStr (c_title c));
        ("description", c_description c);
        ("instructions", c_instructions c);
        ("ingredients", JArr (ingredient_value <$> c_ingredients c));
        ("prep_time", c_prep_time c);
        ("cook_time", c_cook_time c);
        ("servings", c_servings c);
        ("difficulty", JStr (c_difficulty c))].

(** The same object read as a recipe, property by property. *)
Definition as_recipe (c : CleanedRecipe) : Recipe :=
  let v := cleaned_value c in
  {| title := get v "title"; description := get v "description";
     instructions := get v "instructions"; ingredients := get v "ingredients";
     prep_time := get v "prep_time"; cook_time := get v "cook_time";
     servings := get v "servings"; difficulty := get v "difficulty" |}.

(** [recipeAPI.createRecipe]: the cleaning runs inside the retried
    function; a [TypeError] thrown there has no [code] and no
    [response]. *)
Definition createRecipe (server : nat → Settled JsValue) (recipeData : Recipe)
    : Async JsValue :=
  retryRequest
    (λ n, match cleanRecipeData recipeData with
          | inl _ =>
              (Rejected {| Api.code := None; Api.response_status := None |}, n)
          | inr cleanedData =>
              post server "/api/recipes" (cleaned_value cleanedData) n
          end)
    MAX_RETRIES.

(** Vocabulary for statements about the cleaning: an ingredient as
    [cleanRecipeData] leaves it. *)
Definition settled (i : CleanIngredient) : Prop :=
  ing_name i ≠ "" ∧ Js.trim (ing_name i) = ing_name i ∧
  or_else (ing_amount i) JNull = ing_amount i ∧
  trimmed_or JNull (ing_unit i) = ing_unit i ∧
  trimmed_or JNull (ing_notes i) = ing_notes i.

End ApiClient.

(* ===================================================================== *)
(** ** The meal planner ([MealPlanner]) *)
(* ===================================================================== *)

Module MealPlanner.
Import Api.

Definition days : list string :=
  ["Monday"; "Tuesday"; "Wednesday"; "Thursday"; "Friday"; "Saturday"; "Sunday"].

Definition mealTimes : list string := ["Breakfast"; "Lunch"; "Dinner"].

(** An object used as a map: its properties in insertion order.  The keys
    are day names, meal names and property names, never array indices. *)
Section Objects.

Context {A : Type}.

(** [props[key]], [None] standing for [undefined]. *)
Fixpoint lookup_prop (key : string) (props : list (string * A)) : option A :=
  match props with
  | [] => None
  | (k, v) :: rest => if String.eqb k key then Some v else lookup_prop key rest
  end.

(** [{...props, [key]: v}] and [props[key] = v]: an existing key keeps its
    place. *)
Fixpoint set_prop (key : string) (v : A) (props : list (string * A))
    : list (string * A) :=
  match props with
  | [] => [(key, v)]
  | (k, x) :: rest =>
      if String.eqb k key then (k, v) :: rest else (k, x) :: set_prop key v rest
  end.

End Objects.

(** A recipe object, a slot ([null] or a recipe), the meals of a day and
    the plan. *)
Definition RecipeObj : Type := list (string * JsValue).
Definition Slot : Type := option RecipeObj.
Definition DayMeals : Type := list (string * Slot).
Definition MealPlan : Type := list (string * DayMeals).

(** The [days.reduce(...)] of [useState] and of [clearMealPlan]. *)
Definition emptyPlan : MealPlan :=
  (λ day, (day, (λ meal, (meal, None)) <$> mealTimes)) <$> days.

(** The updaters of [addRecipeToSlot] and [removeRecipeFromSlot];
    spreading [undefined] gives no property. *)
Definition addRecipeToSlot (day mealTime : string) (recipe : RecipeObj)
    (prev : MealPlan) : MealPlan :=
  set_prop day (set_prop mealTime (Some recipe) (default [] (lookup_prop day prev)))
           prev.

Definition removeRecipeFromSlot (day mealTime : string) (prev : MealPlan)
    : MealPlan :=
  set_prop day (set_prop mealTime None (default [] (lookup_prop day prev))) prev.

Definition clearMealPlan : MealPlan := emptyPlan.

(** [a === b] on identifiers; two objects or arrays decoded from a
    response are never the same object. *)
Definition strict_eq (a b : JsValue) : bool :=
  match a, b with
  | JUndefined, JUndefined | JNull, JNull => true
  | JBool x, JBool y => Bool.eqb x y
  | JNum x, JNum y => x =? y
  | JStr x, JStr y => String.eqb x y
  | _, _ => false
  end.

(** The state of the component that the functions below touch; [alerts]
    are the messages shown by [alert], oldest first. *)
Record State := {
  mealPlan : MealPlan;
  planName : string;
  isLoading : bool;
  savedPlans : JsValue;
  alerts : list string
}.

Definition alert (text : string) (st : State) : State :=
  {| mealPlan := mealPlan st; planName := planName st; isLoading := isLoading st;
     savedPlans := savedPlans st; alerts := alerts st ++ [text] |}.

Definition setMealPlan (plan : MealPlan) (st : State) : State :=
  {| mealPlan := plan; planName := planName st; isLoading := isLoading st;
     savedPlans := savedPlans st; alerts := alerts st |}.

Definition setPlanName (name : string) (st : State) : State :=
  {| mealPlan := mealPlan st; planName := name; isLoading := isLoading st;
     savedPlans := savedPlans st; alerts := alerts st |}.

Definition setIsLoading (loading : bool) (st : State) : State :=
  {| mealPlan := mealPlan st; planName := planName st; isLoading := loading;
     savedPlans := savedPlans st; alerts := alerts st |}.

Definition setSavedPlans (plans : JsValue) (st : State) : State :=
  {| mealPlan := mealPlan st; planName := planName st; isLoading := isLoading st;
     savedPlans := plans; alerts := alerts st |}.

(** [for (const x of l) body]: the state reached, and the [TypeError]
    that ended the loop early if one was thrown. *)
Fixpoint for_each {S X : Type} (body : X → S → option TypeError * S)
    (l : list X) (s : S) : option TypeError * S :=
  match l with
  | [] => (None, s)
  | x :: rest =>
      match body x s with
      | (Some e, s') => (Some e, s')
      | (None, s') => for_each body rest s'
      end
  end.

(** [plan[day][mealTime]]: the inner [None] is [undefined]; reading a
    meal of a day the plan does not have throws. *)
Definition slot_of (plan : MealPlan) (day mealTime : string)
    : TypeError + option Slot :=
  match lookup_prop day plan with
  | None => inl (NotAFunction "Cannot read properties of undefined")
  | Some meals => inr (lookup_prop mealTime meals)
  end.

(** [recipe && typeof recipe.id === 'string' &&
     recipe.id.startsWith('temp_')] *)
Definition is_temp (recipe : RecipeObj) : bool :=
  match assoc "id" recipe with
  | JStr s => Js.startsWith s "temp_"
  | _ => false
  end.

Definition temp_in (slot : option Slot) : option RecipeObj :=
  match slot with
  | Some (Some recipe) => if is_temp recipe then Some recipe else None
  | _ => None
  end.

(** The first pair of loops of [saveMealPlan]. *)
Definition tempRecipes (plan : MealPlan) : option TypeError * list RecipeObj :=
  for_each
    (λ day,
       for_each
         (λ mealTime acc,
            match slot_of plan day mealTime with
            | inl e => (Some e, acc)
            | inr slot =>
                (None, match temp_in slot with
                       | Some recipe => acc ++ [recipe]
                       | None => acc
                       end)
            end)
         mealTimes)
    days [].

Definition recipeData (tempRecipe : RecipeObj) : Recipe :=
  {| title := assoc "title" tempRecipe;
     description := or_else (assoc "description" tempRecipe) (JStr "");
     instructions := assoc "instructions" tempRecipe;
     ingredients := assoc "ingredients" tempRecipe;
     prep_time := assoc "prep_time" tempRecipe;
     cook_time := assoc "cook_time" tempRecipe;
     servings := assoc "servings" tempRecipe;
     difficulty := assoc "difficulty" tempRecipe |}.

(** The body of the loop saving the temporary recipes; its [catch] only
    logs.  An entry of [savedRecipeIds] is the pair of [tempId] and
    [savedId]. *)
Definition save_temp (server : nat → Settled JsValue)
    (savedRecipeIds : list (JsValue * JsValue)) (tempRecipe : RecipeObj)
    : Net → list (JsValue * JsValue) * Net :=
  λ n,
    match ApiClient.createRecipe server (recipeData tempRecipe) n with
    | (Resolved savedRecipe, n') =>
        match ApiClient.prop savedRecipe "id" with
        | inr savedId =>
            (savedRecipeIds ++ [(assoc "id" tempRecipe, savedId)], n')
        | inl _ => (savedRecipeIds, n')
        end
    | (Rejected _, n') => (savedRecipeIds, n')
    end.

Fixpoint save_temps (server : nat → Settled JsValue)
    (savedRecipeIds : list (JsValue * JsValue)) (temps : list RecipeObj)
    : Net → list (JsValue * JsValue) * Net :=
  λ n,
    match temps with
    | [] => (savedRecipeIds, n)
    | tempRecipe :: rest =>
        let '(ids, n') := save_temp server savedRecipeIds tempRecipe n in
        save_temps server ids rest n'
    end.

(** The second pair of loops: [updatedMealPlan[day][mealTime] =
    {...recipe, id: savedRecipe.savedId}]. *)
Definition with_saved_ids (savedRecipeIds : list (JsValue * JsValue))
    (plan : MealPlan) : option TypeError * MealPlan :=
  for_each
    (λ day,
       for_each
         (λ mealTime updatedMealPlan,
            match slot_of updatedMealPlan day mealTime with
            | inl e => (Some e, updatedMealPlan)
            | inr slot =>
                (None,
                 match temp_in slot with
                 | Some recipe =>
                     match List.find (λ r, strict_eq (fst r) (assoc "id" recipe))
                                     savedRecipeIds with
                     | Some savedRecipe =>
                         set_prop day
                           (set_prop mealTime
                              (Some (set_prop "id" (snd savedRecipe) recipe))
                              (default [] (lookup_prop day updatedMealPlan)))
                           updatedMealPlan
                     | None => updatedMealPlan
                     end
                 | None => updatedMealPlan
                 end)
            end)
         mealTimes)
    days plan.

(** [Object.values(day).filter(recipe => recipe !== null)
      .map(recipe => recipe.id)] *)
Definition dayRecipes (meals : DayMeals) : list JsValue :=
  assoc "id" <$> omap snd meals.

(** The [reduce] over [Object.keys(updatedMealPlan)]. *)
Definition plan_recipes (updatedMealPlan : MealPlan)
    : list (string * list JsValue) :=
  foldl (λ acc day,
           let ids := dayRecipes (default [] (lookup_prop day updatedMealPlan)) in
           if (0 <? length ids)%nat then set_prop day ids acc else acc)
        [] (fst <$> updatedMealPlan).

Definition planData (name : string) (updatedMealPlan : MealPlan) : JsValue :=
  JObj [("name", JStr name);
        ("recipes",
         JObj ((λ entry, (fst entry, JArr (snd entry)))
                 <$> plan_recipes updatedMealPlan))].

(** [mealPlanAPI.createMealPlan] and [mealPlanAPI.getMealPlans()]; the
    log holds the parameters of a GET in place of a body. *)
Definition createMealPlan (server : nat → Settled JsValue)
    (mealPlanData : JsValue) : Async JsValue :=
  retryRequest (post server "/api/meal-plans" mealPlanData) MAX_RETRIES.

Definition getMealPlans (server : nat → Settled JsValue) : Async JsValue :=
  λ n, (server (length (sent n)),
        {| sent := sent n ++ [("/api/meal-plans",
                               JObj [("page", JNum 1); ("page_size", JNum 10)])];
           slept := slept n |}).

Definition loadSavedPlans (server : nat → Settled JsValue) (st : State)
    : Net → State * Net :=
  λ n,
    match getMealPlans server n with
    | (Resolved plans, n') => (setSavedPlans plans st, n')
    | (Rejected _, n') => (st, n')
    end.

(** [saveMealPlan].  The day objects of [updatedMealPlan] are those of the
    plan in state, so the identifiers written by the second pair of loops
    are in the state's plan whether or not [setMealPlan] is reached. *)
Definition saveMealPlan (server : nat → Settled JsValue) (st : State)
    : Net → State * Net :=
  λ n,
    if negb (truthy (JStr (Js.trim (planName st)))) then
      (alert "Please enter a name for your meal plan" st, n)
    else
      let failed (st' : State) (n' : Net) :=
        (setIsLoading false
           (alert "Error saving meal plan. Please try again." st'), n') in
      match tempRecipes (mealPlan st) with
      | (Some _, _) => failed st n
      | (None, temps) =>
          let '(savedRecipeIds, n1) := save_temps server [] temps n in
          match with_saved_ids savedRecipeIds (mealPlan st) with
          | (Some _, updatedMealPlan) => failed (setMealPlan updatedMealPlan st) n1
          | (None, updatedMealPlan) =>
              let st1 := setMealPlan updatedMealPlan st in
              match createMealPlan server (planData (planName st) updatedMealPlan) n1 with
              | (Rejected _, n2) => failed st1 n2
              | (Resolved _, n2) =>
                  let '(st2, n3) := loadSavedPlans server st1 n2 in
                  (setIsLoading false
                     (alert "Meal plan saved successfully!" (setPlanName "" st2)),
                   n3)
              end
          end
      end.

(** A saved plan as the backend lists it: its name and, per day, the
    identifiers of its recipes or [null]. *)
Record SavedPlan := {
  name : string;
  recipes : list (string * option (list JsValue))
}.

(** [loadedPlan[day][mealTimes[index]] = recipe] *)
Definition assign (day : string) (index : nat) (recipe : RecipeObj)
    (loadedPlan : MealPlan) : option TypeError * MealPlan :=
  match lookup_prop day loadedPlan with
  | None => (Some (NotAFunction "Cannot set properties of undefined"), loadedPlan)
  | Some meals =>
      match mealTimes !! index with
      | Some mealTime =>
          (None, set_prop day (set_prop mealTime (Some recipe) meals) loadedPlan)
      | None => (None, loadedPlan)
      end
  end.

(** The body of the loop of [loadMealPlan] over
    [Object.entries(plan.recipes)], [recipes_prop] being the recipes the
    component was given. *)
Definition load_entry (recipes_prop : list RecipeObj)
    (entry : string * option (list JsValue)) (loadedPlan : MealPlan)
    : option TypeError * MealPlan :=
  match snd entry with
  | Some (id :: ids) =>
      let found :=
        omap (λ id, List.find (λ r, strict_eq (assoc "id" r) id) recipes_prop)
             (id :: ids) in
      for_each
        (λ item loadedPlan,
           if (fst item <? length mealTimes)%nat
           then assign (fst entry) (fst item) (snd item) loadedPlan
           else (None, loadedPlan))
        (imap pair found) loadedPlan
  | _ => (None, loadedPlan)
  end.

(** [loadMealPlan(plan)] *)
Definition loadMealPlan (recipes_prop : list RecipeObj) (plan : SavedPlan)
    (st : State) : State :=
  match for_each (load_entry recipes_prop) (recipes plan) emptyPlan with
  | (None, loadedPlan) => setPlanName (name plan) (setMealPlan loadedPlan st)
  | (Some _, _) => alert "Error loading meal plan. Please try again." st
  end.

(** Vocabulary for statements about the planner: the plans the grid can
    hold when its recipes are picked from [recipes_prop], and a plan with
    the recipes of each day moved up to the first meals of the day. *)
Inductive planned (recipes_prop : list RecipeObj) : MealPlan → Prop :=
| planned_init : planned recipes_prop emptyPlan
| planned_add day mealTime recipe prev :
    day ∈ days → mealTime ∈ mealTimes → recipe ∈ recipes_prop →
    planned recipes_prop prev →
    planned recipes_prop (addRecipeToSlot day mealTime recipe prev)
| planned_remove day mealTime prev :
    day ∈ days → mealTime ∈ mealTimes →
    planned recipes_prop prev →
    planned recipes_prop (removeRecipeFromSlot day mealTime prev).

(** The recipes given to the component carry distinct identifiers, each a
    number or a string that does not mark a temporary recipe. *)
Definition identified (recipes_prop : list RecipeObj) : Prop :=
  NoDup (assoc "id" <$> recipes_prop) ∧
  Forall (λ recipe, match assoc "id" recipe with
                    | JNum _ => True
                    | JStr s => Js.startsWith s "temp_" = false
                    | _ => False
                    end) recipes_prop.

(** The seven days in order, each with the three meals in order, every
    slot empty or holding one of the recipes. *)
Definition well_formed (recipes_prop : list RecipeObj) (plan : MealPlan) : Prop :=
  fst <$> plan = days ∧
  Forall (λ entry,
            fst <$> snd entry = mealTimes ∧
            Forall (λ meal, ∀ recipe, snd meal = Some recipe → recipe ∈ recipes_prop)
                   (snd entry)) plan.

Definition packed_day (meals : DayMeals) : DayMeals :=
  imap (λ index entry, (fst entry, omap snd meals !! index)) meals.

Definition packed (plan : MealPlan) : MealPlan :=
  (λ entry, (fst entry, packed_day (snd entry))) <$> plan.

End MealPlanner.

(* ===================================================================== *)
(** ** Sample data for the worked instances of the second part *)
(* ===================================================================== *)

Module MoreSamples.

(** ToString on the values met in error bodies. *)
Definition to_text (v : Api.JsValue) : string :=
  match v with
  | Api.JStr s => s
  | Api.JNum n => NilZero.string_of_int (Z.to_int n)
  | Api.JBool true => "true"
  | Api.JBool false => "false"
  | Api.JNull => "null"
  | Api.JUndefined => "undefined"
  | Api.JArr _ => ""
  | Api.JObj _ => "[object Object]"
  end.

(** A 404 with a detail, and a 502 relayed with the body [null]. *)
Definition not_found : ApiClient.Failure :=
  {| ApiClient.code := Some "ERR_BAD_REQUEST";
     ApiClient.response :=
       Some {| ApiClient.status := 404;
               ApiClient.data := Api.JObj [("detail", Api.JStr "Recipe not found")] |};
     ApiClient.request := true;
     ApiClient.message := "Request failed with status code 404";
     ApiClient.userMessage := Api.JUndefined |}.

Definition bad_gateway : ApiClient.Failure :=
  {| ApiClient.code := Some "ERR_BAD_RESPONSE";
     ApiClient.response :=
       Some {| ApiClient.status := 502; ApiClient.data := Api.JNull |};
     ApiClient.request := true;
     ApiClient.message := "Request failed with status code 502";
     ApiClient.userMessage := Api.JUndefined |}.

(** A validator that rejects one of the five sample recipes. *)
Definition not_stew (recipe : string) : bool := negb (String.eqb recipe "Stew").

(** Two saved recipes, a plan with one of them for dinner on Monday, and
    the planner holding that plan under a name. *)
Definition soup : MealPlanner.RecipeObj :=
  [("id", Api.JNum 1); ("title", Api.JStr "Soup")].

Definition stew : MealPlanner.RecipeObj :=
  [("id", Api.JNum 2); ("title", Api.JStr "Stew")].

Definition saved_recipes : list MealPlanner.RecipeObj := [soup; stew].

Definition dinner_only : MealPlanner.MealPlan :=
  MealPlanner.addRecipeToSlot "Monday" "Dinner" soup MealPlanner.emptyPlan.

Definition week : MealPlanner.State :=
  {| MealPlanner.mealPlan := dinner_only;
     MealPlanner.planName := "Week 1";
     MealPlanner.isLoading := false;
     MealPlanner.savedPlans := Api.JArr [];
     MealPlanner.alerts := [] |}.

(** A backend that accepts every request. *)
Definition accepting (k : nat) : Api.Settled Api.JsValue :=
  Api.Resolved (Api.JObj [("id", Api.JNum 7)]).

End MoreSamples.

(* ===================================================================== *)
(** * Properties *)
(* ===================================================================== *)

(** ** Strings *)

Lemma lower_char_idem c : Js.lower_char (Js.lower_char c) = Js.lower_char c.
Proof. destruct c as [[] [] [] [] [] [] [] []]; reflexivity. Qed.

Lemma upper_of_lower c : Js.upper_char (Js.lower_char c) = Js.upper_char c.
Proof. destruct c as [[] [] [] [] [] [] [] []]; reflexivity. Qed.

Lemma lower_of_upper c : Js.lower_char (Js.upper_char c) = Js.lower_char c.
Proof. destruct c as [[] [] [] [] [] [] [] []]; reflexivity. Qed.

Lemma toLowerCase_cons c s :
  Js.toLowerCase (String c s) = String (Js.lower_char c) (Js.toLowerCase s).
Proof. reflexivity. Qed.

Lemma toLowerCase_idem s : Js.toLowerCase (Js.toLowerCase s) = Js.toLowerCase s.
Proof.
  induction s as [|c s IH]; [reflexivity|].
  rewrite !toLowerCase_cons, lower_char_idem, IH. reflexivity.
Qed.

Lemma append_cons c s t : String c s +:+ t = String c (s +:+ t).
Proof. reflexivity. Qed.

Lemma append_nil_l s : "" +:+ s = s.
Proof. reflexivity. Qed.

Lemma append_nil_r s : s +:+ "" = s.
Proof.
  induction s as [|c s IH]; [reflexivity|].
  rewrite append_cons, IH. reflexivity.
Qed.

Lemma append_assoc s t u : (s +:+ t) +:+ u = s +:+ t +:+ u.
Proof.
  induction s as [|c s IH]; [reflexivity|].
  rewrite !append_cons, IH. reflexivity.
Qed.

Lemma append_eq_nil s t : s +:+ t = "" → s = "" ∧ t = "".
Proof.
  destruct s; [|discriminate].
  rewrite append_nil_l. intros ->. done.
Qed.

(** [trim] *)

Lemma trimStart_head s :
  Js.trimStart s = "" ∨
  ∃ c r, Js.trimStart s = String c r ∧ Js.is_white_space c = false.
Proof.
  induction s as [|c s IH]; [left; reflexivity|].
  cbn [Js.trimStart]. destruct (Js.is_white_space c) eqn:Hc; [exact IH|].
  right. exists c, s. split; [reflexivity | exact Hc].
Qed.

Lemma trimEnd_cons_black c s :
  Js.is_white_space c = false →
  Js.trimEnd (String c s) = String c (Js.trimEnd s).
Proof.
  intros Hc. cbn [Js.trimEnd]. destruct (Js.trimEnd s); [rewrite Hc|]; reflexivity.
Qed.

Lemma trimEnd_idem s : Js.trimEnd (Js.trimEnd s) = Js.trimEnd s.
Proof.
  induction s as [|c s IH]; [reflexivity|].
  cbn [Js.trimEnd]. destruct (Js.trimEnd s) as [|d t] eqn:Ht.
  - destruct (Js.is_white_space c) eqn:Hc; [reflexivity|].
    cbn [Js.trimEnd]. rewrite Hc. reflexivity.
  - change (Js.trimEnd (String c (String d t))) with
      (match Js.trimEnd (String d t) with
       | "" => if Js.is_white_space c then "" else String c ""
       | u => String c u
       end).
    rewrite IH. reflexivity.
Qed.

Lemma trim_idem s : Js.trim (Js.trim s) = Js.trim s.
Proof.
  unfold Js.trim.
  destruct (trimStart_head s) as [->|(c & r & -> & Hc)]; [reflexivity|].
  rewrite (trimEnd_cons_black _ _ Hc). cbn [Js.trimStart]. rewrite Hc.
  rewrite (trimEnd_cons_black _ _ Hc), trimEnd_idem. reflexivity.
Qed.

Lemma mentions_nil c : Js.mentions c "" = false.
Proof. reflexivity. Qed.

Lemma mentions_cons c d s :
  Js.mentions c (String d s) = (Ascii.eqb c d || Js.mentions c s)%bool.
Proof.
  unfold Js.mentions. cbn [Js.includes Js.startsWith].
  destruct (Ascii.eqb c d); [destruct s|]; reflexivity.
Qed.

Lemma mentions_trimStart c s :
  Js.mentions c s = false → Js.mentions c (Js.trimStart s) = false.
Proof.
  induction s as [|d s IH]; [done|].
  rewrite mentions_cons. intros [H1 H2]%orb_false_iff. cbn [Js.trimStart].
  destruct (Js.is_white_space d); [auto|].
  rewrite mentions_cons, H1, H2. reflexivity.
Qed.

Lemma mentions_trimEnd c s :
  Js.mentions c s = false → Js.mentions c (Js.trimEnd s) = false.
Proof.
  induction s as [|d s IH]; [done|].
  rewrite mentions_cons. intros [H1 H2]%orb_false_iff. cbn [Js.trimEnd].
  specialize (IH H2). destruct (Js.trimEnd s) as [|e t].
  - destruct (Js.is_white_space d); [reflexivity|].
    rewrite mentions_cons, H1. reflexivity.
  - rewrite mentions_cons, H1, IH. reflexivity.
Qed.

Lemma mentions_trim c s : Js.mentions c s = false → Js.mentions c (Js.trim s) = false.
Proof. intros H. apply mentions_trimEnd, mentions_trimStart, H. Qed.

(** [split] *)

Lemma split_not_nil sep s : Js.split sep s ≠ [].
Proof.
  destruct s as [|c s]; [done|]. cbn [Js.split].
  destruct (Ascii.eqb c sep); [done|]. destruct (Js.split sep s); done.
Qed.

Lemma split_pieces_free sep s :
  Forall (λ piece, Js.mentions sep piece = false) (Js.split sep s).
Proof.
  induction s as [|c s IH]; [repeat constructor|].
  cbn [Js.split]. destruct (Ascii.eqb c sep) eqn:Hc.
  - constructor; [reflexivity | exact IH].
  - destruct (Js.split sep s) as [|piece pieces]; [repeat constructor|].
    + rewrite mentions_cons, Ascii.eqb_sym, Hc. reflexivity.
    + inversion IH as [|? ? Hp Hps]; subst. constructor; [|exact Hps].
      rewrite mentions_cons, Ascii.eqb_sym, Hc. exact Hp.
Qed.

Lemma join_split_lines s : RecipeCard.join_lines (Js.split Js.LF s) = s.
Proof.
  induction s as [|c s IH]; [reflexivity|].
  cbn [Js.split]. destruct (Ascii.eqb c Js.LF) eqn:Hc.
  - apply Ascii.eqb_eq in Hc as ->.
    pose proof (split_not_nil Js.LF s) as Hne.
    destruct (Js.split Js.LF s) as [|piece pieces] eqn:Hs; [done|].
    change (RecipeCard.join_lines ("" :: piece :: pieces))
      with ("" +:+ String Js.LF (RecipeCard.join_lines (piece :: pieces))).
    rewrite IH. reflexivity.
  - pose proof (split_not_nil Js.LF s) as Hne.
    destruct (Js.split Js.LF s) as [|piece pieces] eqn:Hs; [done|].
    destruct pieces as [|p2 ps].
    + cbn [RecipeCard.join_lines] in *. rewrite IH. reflexivity.
    + change (RecipeCard.join_lines (String c piece :: p2 :: ps))
        with (String c piece +:+ String Js.LF (RecipeCard.join_lines (p2 :: ps))).
      change (RecipeCard.join_lines (piece :: p2 :: ps))
        with (piece +:+ String Js.LF (RecipeCard.join_lines (p2 :: ps))) in IH.
      rewrite append_cons, IH. reflexivity.
Qed.

Lemma split_single sep s : Js.mentions sep s = false → Js.split sep s = [s].
Proof.
  induction s as [|c s IH]; [reflexivity|].
  rewrite mentions_cons. intros [H1 H2]%orb_false_iff.
  cbn [Js.split]. rewrite Ascii.eqb_sym, H1, (IH H2). reflexivity.
Qed.

(** ** [cleanRecipeData] *)

Lemma array_includes_elem_of l x : Api.array_includes l x = true ↔ x ∈ l.
Proof.
  unfold Api.array_includes. rewrite existsb_exists. split.
  - intros (y & Hin & ->%String.eqb_eq). apply list_elem_of_In, Hin.
  - intros Hin. exists x. split; [apply list_elem_of_In, Hin | apply String.eqb_refl].
Qed.

Lemma normalize_cons c s :
  Api.normalize (String c s) = String (Js.upper_char c) (Js.toLowerCase s).
Proof. reflexivity. Qed.

Lemma normalize_lower s : Js.toLowerCase (Api.normalize s) = Js.toLowerCase s.
Proof.
  destruct s as [|c s]; [reflexivity|].
  rewrite normalize_cons, !toLowerCase_cons, lower_of_upper, toLowerCase_idem.
  reflexivity.
Qed.

(** A spelling of a valid name in any letter case normalises to the
    name. *)
Lemma normalize_casing s name :
  name ∈ Api.validDifficulties →
  Js.toLowerCase s = Js.toLowerCase name →
  Api.normalize s = name.
Proof.
  intros Hname Hs. unfold Api.validDifficulties in Hname.
  destruct s as [|c s]; [set_unfold; intuition (subst; discriminate)|].
  rewrite normalize_cons. rewrite toLowerCase_cons in Hs.
  rewrite <- (upper_of_lower c).
  set_unfold. destruct Hname as [->|[->|[->|[->|[]]]]];
    injection Hs as -> ->; reflexivity.
Qed.

Lemma clean_difficulty_string s :
  Api.clean_difficulty (Api.JStr s) =
  inr (if (negb (String.eqb s "") &&
           Api.array_includes Api.validDifficulties (Api.normalize s))%bool
       then Api.normalize s else "Medium").
Proof.
  unfold Api.clean_difficulty, Api.or_else. cbn [Api.truthy].
  destruct (String.eqb s "") eqn:Hs; reflexivity.
Qed.

Lemma clean_difficulty_valid d name :
  Api.clean_difficulty d = inr name → name ∈ Api.validDifficulties.
Proof.
  unfold Api.clean_difficulty.
  destruct (Api.or_else d (Api.JStr "Medium")) as [| | | |s| |]; try done.
  cbv zeta.
  destruct (Api.array_includes Api.validDifficulties (Api.normalize s)) eqn:Hin;
    intros [= <-].
  - apply array_includes_elem_of, Hin.
  - unfold Api.validDifficulties. set_solver.
Qed.

Lemma cleanRecipeData_difficulty recipe name :
  Api.clean_difficulty (Api.difficulty recipe) = inr name →
  ∃ cleaned, Api.cleanRecipeData recipe = inr cleaned ∧
             Api.c_difficulty cleaned = name.
Proof.
  intros H. unfold Api.cleanRecipeData. rewrite H. eexists. split; reflexivity.
Qed.

Lemma cleanRecipeData_inv recipe cleaned :
  Api.cleanRecipeData recipe = inr cleaned →
  Api.clean_difficulty (Api.difficulty recipe) = inr (Api.c_difficulty cleaned) ∧
  Api.c_instructions cleaned = Api.clean_instructions (Api.instructions recipe).
Proof.
  unfold Api.cleanRecipeData.
  destruct (Api.clean_difficulty (Api.difficulty recipe)); [done|].
  intros [= <-]. split; reflexivity.
Qed.

(** [cleanRecipeData] throws exactly on a difficulty that is truthy and
    not a string: [diff.charAt] is not a function then. *)
Lemma cleanRecipeData_throws recipe :
  (∃ e, Api.cleanRecipeData recipe = inl e) ↔
  Api.truthy (Api.difficulty recipe) = true ∧
  ∀ s, Api.difficulty recipe ≠ Api.JStr s.
Proof.
  unfold Api.cleanRecipeData, Api.clean_difficulty, Api.or_else.
  destruct (Api.difficulty recipe) as [| |b|n|s|items|props]; cbn [Api.truthy];
    try destruct b; try destruct (n =? 0); try destruct (String.eqb s "");
    cbn [negb];
    first
      [ split;
        [ intros [e [=]]
        | intros [Ht Hs];
          first [discriminate Ht | exfalso; eapply Hs; reflexivity] ]
      | split;
        [ intros _; split; [reflexivity | discriminate]
        | intros _; eexists; reflexivity ] ].
Qed.




(** *** Instructions *)

Lemma clean_instructions_string s :
  Api.clean_instructions (Api.JStr s) = Api.JArr (Api.JStr <$> Api.split_steps s).
Proof.
  unfold Api.clean_instructions, Api.or_else. cbn [Api.truthy].
  destruct (String.eqb s "") eqn:Hs; [|reflexivity].
  apply String.eqb_eq in Hs as ->. reflexivity.
Qed.

Lemma clean_instructions_array items :
  Api.clean_instructions (Api.JArr items) = Api.JArr items.
Proof. reflexivity. Qed.

(** Each step kept by [split_steps] is a trimmed, non-empty line. *)
Lemma split_steps_elem s step :
  step ∈ Api.split_steps s →
  step ≠ "" ∧ Js.trim step = step ∧ Js.mentions Js.LF step = false ∧
  ∃ line, line ∈ Js.split Js.LF s ∧ step = Js.trim line.
Proof.
  unfold Api.split_steps.
  intros [Hne (line & -> & Hline)%list_elem_of_fmap]%list_elem_of_filter.
  repeat split; [exact Hne | apply trim_idem | | eauto].
  apply mentions_trim.
  pose proof (split_pieces_free Js.LF s) as Hfree.
  rewrite Forall_forall in Hfree. apply Hfree, Hline.
Qed.

(** A text without line feed is one step, whatever markers it holds. *)
Lemma split_steps_one_line s :
  Js.mentions Js.LF s = false → Js.trim s ≠ "" →
  Api.split_steps s = [Js.trim s].
Proof.
  intros Hlf Hne. unfold Api.split_steps. rewrite (split_single _ _ Hlf).
  cbn [fmap list_fmap]. rewrite filter_cons_True by exact Hne. reflexivity.
Qed.

(** The display formatter leaves a text without full stop in one piece. *)
Lemma drop_units_mentions n s c rest :
  RecipeCard.drop_units n s = String c rest → Js.mentions c s = true.
Proof.
  revert s. induction n as [|n IH]; intros s.
  - cbn. intros ->. rewrite mentions_cons, Ascii.eqb_refl. reflexivity.
  - destruct s as [|d s]; [done|]. cbn [RecipeCard.drop_units].
    intros H%IH. rewrite mentions_cons, H. apply orb_true_r.
Qed.

Lemma separator_len_none s :
  Js.mentions RecipeCard.dot s = false → RecipeCard.separator_len s = None.
Proof.
  intros Hdot. unfold RecipeCard.separator_len.
  assert (RecipeCard.numbering_len s = None) as ->.
  { unfold RecipeCard.numbering_len.
    destruct (RecipeCard.span_len RecipeCard.is_digit s) as [|n]; [reflexivity|].
    destruct (RecipeCard.drop_units (S n) s) as [|c rest] eqn:Hd; [reflexivity|].
    destruct (Ascii.eqb c RecipeCard.dot) eqn:Hc; [|reflexivity].
    apply Ascii.eqb_eq in Hc as ->.
    apply drop_units_mentions in Hd. congruence. }
  unfold RecipeCard.sentence_end_len. destruct s as [|c rest]; [reflexivity|].
  destruct (Ascii.eqb c RecipeCard.dot) eqn:Hc; [|reflexivity].
  rewrite mentions_cons, Ascii.eqb_sym, Hc in Hdot. discriminate.
Qed.

Lemma split_separator_none s :
  Js.mentions RecipeCard.dot s = false → RecipeCard.split_separator 0 s = [s].
Proof.
  induction s as [|c s IH]; [reflexivity|]. intros Hdot.
  cbn [RecipeCard.split_separator]. rewrite (separator_len_none _ Hdot).
  rewrite mentions_cons in Hdot. apply orb_false_iff in Hdot as [_ Hdot].
  rewrite (IH Hdot). reflexivity.
Qed.

Lemma formatInstructions_no_marker s :
  Js.mentions RecipeCard.dot s = false → Js.trim s ≠ "" →
  RecipeCard.formatInstructions (Api.JStr s) = inr ("1. " +:+ Js.trim s).
Proof.
  intros Hdot Hne. unfold RecipeCard.formatInstructions.
  assert (Api.truthy (Api.JStr s) = true) as ->.
  { cbn. destruct s; [done | reflexivity]. }
  cbn [negb]. unfold RecipeCard.string_steps.
  rewrite (split_separator_none _ Hdot), filter_cons_True by exact Hne.
  reflexivity.
Qed.

(** *** The formatter on a one-line numbered text *)

Lemma trimEnd_app_space s c :
  Js.is_white_space c = true → Js.trimEnd (s +:+ String c "") = Js.trimEnd s.
Proof.
  intros Hc. induction s as [|a s IH].
  - rewrite append_nil_l. cbn [Js.trimEnd]. rewrite Hc. reflexivity.
  - rewrite append_cons. cbn [Js.trimEnd]. rewrite IH. reflexivity.
Qed.

Lemma plain_step_head step :
  RecipeCard.plain_step step →
  ∃ c r, step = String c r ∧ Js.is_white_space c = false ∧
         Js.trimEnd step = step.
Proof.
  intros (Hne & Htrim & _). unfold Js.trim in Htrim.
  destruct (trimStart_head step) as [H0|(c & r & Hs & Hc)].
  - rewrite H0 in Htrim. cbn in Htrim. congruence.
  - assert (Js.trimStart step = step) as Hst.
    { destruct step as [|a step']; [done|]. cbn [Js.trimStart] in *.
      destruct (Js.is_white_space a) eqn:Ha; [|reflexivity].
      rewrite Hs in Htrim. rewrite (trimEnd_cons_black _ _ Hc) in Htrim.
      injection Htrim as <- _. congruence. }
    rewrite Hst in Hs, Htrim. eauto.
Qed.

Lemma trim_step_space step :
  RecipeCard.plain_step step → Js.trim (step +:+ " ") = step.
Proof.
  intros Hp. destruct (plain_step_head step Hp) as (c & r & -> & Hc & Hend).
  unfold Js.trim. rewrite append_cons. cbn [Js.trimStart]. rewrite Hc.
  rewrite <- append_cons, trimEnd_app_space by reflexivity. exact Hend.
Qed.

Lemma split_separator_not_nil k s : RecipeCard.split_separator k s ≠ [].
Proof.
  revert k. induction s as [|c s IH]; intros k; [done|].
  cbn [RecipeCard.split_separator]. destruct k; [|apply IH].
  destruct (RecipeCard.separator_len _); [done|].
  destruct (RecipeCard.split_separator 0 s); done.
Qed.

Lemma split_separator_skip pre rest :
  RecipeCard.split_separator (String.length pre) (pre +:+ rest)
  = RecipeCard.split_separator 0 rest.
Proof.
  induction pre as [|c pre IH]; [destruct rest; reflexivity|].
  rewrite append_cons. cbn [String.length RecipeCard.split_separator]. exact IH.
Qed.

Lemma span_len_app p pre rest :
  RecipeCard.all_units p pre = true →
  RecipeCard.span_len p (pre +:+ rest)
  = (String.length pre + RecipeCard.span_len p rest)%nat.
Proof.
  induction pre as [|c pre IH]; [reflexivity|].
  cbn [RecipeCard.all_units]. intros [Hc Hpre]%andb_true_iff.
  rewrite append_cons. cbn [RecipeCard.span_len String.length].
  rewrite Hc, (IH Hpre). reflexivity.
Qed.

Lemma drop_units_app pre rest :
  RecipeCard.drop_units (String.length pre) (pre +:+ rest) = rest.
Proof.
  induction pre as [|c pre IH]; [destruct rest; reflexivity|].
  rewrite append_cons. exact IH.
Qed.

Lemma length_append s t :
  String.length (s +:+ t) = (String.length s + String.length t)%nat.
Proof.
  induction s as [|c s IH]; [reflexivity|].
  rewrite append_cons. cbn [String.length]. rewrite IH. reflexivity.
Qed.

Lemma decimal_digits d :
  RecipeCard.all_units RecipeCard.is_digit (NilZero.string_of_uint d) = true ∧
  NilZero.string_of_uint d ≠ "".
Proof.
  assert (∀ u, RecipeCard.all_units RecipeCard.is_digit
                 (NilEmpty.string_of_uint u) = true) as Hall.
  { induction u; cbn; auto. }
  destruct d; (split; [|done]); try reflexivity;
    cbn [NilZero.string_of_uint NilEmpty.string_of_uint RecipeCard.all_units];
    rewrite Hall; reflexivity.
Qed.

Lemma inert_no_separator c s :
  RecipeCard.inert c = true → RecipeCard.separator_len (String c s) = None.
Proof.
  unfold RecipeCard.inert. intros [Hd Hdot]%andb_true_iff.
  apply negb_true_iff in Hd, Hdot.
  unfold RecipeCard.separator_len, RecipeCard.numbering_len,
    RecipeCard.sentence_end_len.
  cbn [RecipeCard.span_len]. rewrite Hd, Hdot. reflexivity.
Qed.

Lemma split_inert_prefix pre rest :
  RecipeCard.all_units RecipeCard.inert pre = true →
  RecipeCard.split_separator 0 (pre +:+ rest)
  = match RecipeCard.split_separator 0 rest with
    | piece :: pieces => (pre +:+ piece) :: pieces
    | [] => [pre]
    end.
Proof.
  induction pre as [|c pre IH].
  - intros _. rewrite append_nil_l.
    destruct (RecipeCard.split_separator 0 rest) eqn:Hs; [|reflexivity].
    exfalso. exact (split_separator_not_nil 0 rest Hs).
  - cbn [RecipeCard.all_units]. intros [Hc Hpre]%andb_true_iff.
    rewrite append_cons. cbn [RecipeCard.split_separator].
    rewrite (inert_no_separator _ _ Hc), (IH Hpre).
    destruct (RecipeCard.split_separator 0 rest); reflexivity.
Qed.

(** A marker [N. ] in front of a step is one separator. *)
Lemma split_numbered_head digits step tail :
  RecipeCard.all_units RecipeCard.is_digit digits = true → digits ≠ "" →
  RecipeCard.plain_step step →
  RecipeCard.split_separator 0 (digits +:+ ". " +:+ step +:+ tail)
  = "" :: RecipeCard.split_separator 0 (step +:+ tail).
Proof.
  intros Hdigits Hne Hstep.
  destruct (plain_step_head step Hstep) as (c & r & -> & Hc & _).
  assert (RecipeCard.separator_len (digits +:+ ". " +:+ String c r +:+ tail)
          = Some (String.length digits + 2)%nat) as Hsep.
  { assert (RecipeCard.span_len RecipeCard.is_digit
              (digits +:+ ". " +:+ String c r +:+ tail)
            = String.length digits) as Hspan.
    { rewrite (span_len_app _ _ _ Hdigits).
      change (". " +:+ String c r +:+ tail)
        with (String RecipeCard.dot (String " " (String c (r +:+ tail)))).
      cbn [RecipeCard.span_len]. change (RecipeCard.is_digit RecipeCard.dot) with false.
      cbn iota. lia. }
    unfold RecipeCard.separator_len, RecipeCard.numbering_len. cbv zeta.
    rewrite Hspan.
    destruct (String.length digits) as [|n] eqn:Hlen; [destruct digits; done|].
    rewrite <- Hlen, drop_units_app.
    change (". " +:+ String c r +:+ tail)
      with (String RecipeCard.dot (String " " (String c (r +:+ tail)))).
    cbv beta iota. rewrite Ascii.eqb_refl. cbn [RecipeCard.span_len].
    change (Js.is_white_space " ") with true. cbv beta iota. rewrite Hc.
    f_equal. lia. }
  destruct digits as [|d digits']; [done|].
  rewrite append_cons in *. cbn [RecipeCard.split_separator]. rewrite Hsep.
  f_equal. cbn [String.length].
  replace (S (String.length digits') + 2 - 1)%nat
    with (String.length (digits' +:+ ". ")) by (rewrite length_append; cbn; lia).
  rewrite <- (append_assoc digits' ". "). apply split_separator_skip.
Qed.

Lemma split_numbered_text index steps :
  Forall RecipeCard.plain_step steps →
  RecipeCard.split_separator 0 (RecipeCard.numbered_text index steps)
  = "" :: ((λ step, step +:+ " ") <$> steps).
Proof.
  intros Hsteps. revert index.
  induction Hsteps as [|step steps Hstep _ IH]; intros index; [reflexivity|].
  cbn [RecipeCard.numbered_text]. unfold RecipeCard.numbered.
  destruct (decimal_digits (Nat.to_uint (S index))) as [Hdigits Hne].
  rewrite !append_assoc.
  rewrite (split_numbered_head _ step _ Hdigits Hne Hstep).
  rewrite <- (append_assoc step " ").
  rewrite split_inert_prefix, IH.
  - rewrite append_nil_r. reflexivity.
  - destruct Hstep as (_ & _ & Hinert). clear -Hinert.
    induction step as [|c step IHs]; [reflexivity|].
    cbn [RecipeCard.all_units] in Hinert.
    apply andb_true_iff in Hinert as [Hc Hrest].
    rewrite append_cons. cbn [RecipeCard.all_units]. rewrite Hc. auto.
Qed.

Lemma string_steps_numbered_text index steps :
  Forall RecipeCard.plain_step steps →
  RecipeCard.string_steps (RecipeCard.numbered_text index steps) = steps.
Proof.
  intros Hsteps. unfold RecipeCard.string_steps.
  rewrite (split_numbered_text index steps Hsteps).
  rewrite filter_cons_False by (intros H; apply H; reflexivity).
  induction Hsteps as [|step steps Hstep _ IH]; [reflexivity|].
  cbn [fmap list_fmap].
  rewrite filter_cons_True
    by (rewrite (trim_step_space _ Hstep); apply Hstep).
  cbn [fmap list_fmap]. rewrite (trim_step_space _ Hstep).
  f_equal. exact IH.
Qed.

(** The card turns a one-line text of numbered plain steps into one
    numbered line per step. *)
Lemma formatInstructions_numbered_text steps :
  Forall RecipeCard.plain_step steps →
  RecipeCard.formatInstructions (Api.JStr (RecipeCard.numbered_text 0 steps))
  = inr (RecipeCard.join_lines (imap RecipeCard.numbered steps)).
Proof.
  intros Hsteps. unfold RecipeCard.formatInstructions. cbn [Api.truthy].
  destruct (String.eqb (RecipeCard.numbered_text 0 steps) "") eqn:He.
  - apply String.eqb_eq in He. destruct steps as [|step steps]; [reflexivity|].
    cbn [RecipeCard.numbered_text] in He. unfold RecipeCard.numbered in He.
    destruct (decimal_digits (Nat.to_uint 1)) as [_ Hne].
    apply append_eq_nil in He as [He _]. apply append_eq_nil in He as [He _].
    contradiction.
  - cbn [negb]. rewrite (string_steps_numbered_text 0 steps Hsteps). reflexivity.
Qed.

(** *** The formatter on any text *)

Lemma span_len_le p s : (RecipeCard.span_len p s ≤ String.length s)%nat.
Proof.
  induction s as [|c s IH]; cbn; [lia|]. destruct (p c); cbn; lia.
Qed.

Lemma drop_units_length n s c rest :
  RecipeCard.drop_units n s = String c rest →
  String.length s = (n + S (String.length rest))%nat.
Proof.
  revert s. induction n as [|n IH]; intros s.
  - cbn. intros ->. reflexivity.
  - destruct s as [|d s]; [done|]. cbn [RecipeCard.drop_units String.length].
    intros H%IH. lia.
Qed.

Lemma separator_len_bounds s k :
  RecipeCard.separator_len s = Some k → (1 ≤ k ≤ String.length s)%nat.
Proof.
  unfold RecipeCard.separator_len.
  destruct (RecipeCard.numbering_len s) as [n|] eqn:Hn.
  - intros [= <-]. unfold RecipeCard.numbering_len in Hn.
    destruct (RecipeCard.span_len RecipeCard.is_digit s) as [|d] eqn:Hd; [done|].
    destruct (RecipeCard.drop_units (S d) s) as [|c rest] eqn:Hdrop; [done|].
    destruct (Ascii.eqb c RecipeCard.dot); [|done].
    injection Hn as <-. apply drop_units_length in Hdrop.
    pose proof (span_len_le Js.is_white_space rest). lia.
  - unfold RecipeCard.sentence_end_len. destruct s as [|c rest]; [done|].
    destruct (Ascii.eqb c RecipeCard.dot); [|done].
    destruct (RecipeCard.span_len Js.is_white_space rest) as [|d] eqn:Hd; [done|].
    destruct (RecipeCard.drop_units (S d) rest) as [|next r]; [done|].
    destruct (Js.is_upper next); [|done].
    intros [= <-]. pose proof (span_len_le Js.is_white_space rest).
    cbn [String.length]. lia.
Qed.

Lemma split_at k s :
  (k ≤ String.length s)%nat →
  ∃ a b, s = a +:+ b ∧ String.length a = k.
Proof.
  revert s. induction k as [|k IH]; intros s Hk.
  - exists "", s. split; reflexivity.
  - destruct s as [|c s]; [cbn in Hk; lia|]. cbn in Hk.
    destruct (IH s ltac:(lia)) as (a & b & -> & Ha).
    exists (String c a), b. split; [reflexivity | cbn; lia].
Qed.

(** The leftmost separator is one cut. *)
Lemma split_separator_marker sep rest :
  RecipeCard.separator_len (sep +:+ rest) = Some (String.length sep) →
  RecipeCard.split_separator 0 (sep +:+ rest)
  = "" :: RecipeCard.split_separator 0 rest.
Proof.
  intros Hsep. pose proof (separator_len_bounds _ _ Hsep) as [Hk _].
  destruct sep as [|c sep]; [cbn in Hk; lia|].
  rewrite append_cons in *. cbn [RecipeCard.split_separator]. rewrite Hsep.
  cbn [String.length]. replace (S (String.length sep) - 1)%nat
    with (String.length sep) by lia.
  rewrite split_separator_skip. reflexivity.
Qed.

(** Units at which no separator starts are kept in the piece. *)
Lemma split_separator_keep pre rest :
  (∀ a b, pre = a +:+ b → b ≠ "" →
          RecipeCard.separator_len (b +:+ rest) = None) →
  RecipeCard.split_separator 0 (pre +:+ rest)
  = match RecipeCard.split_separator 0 rest with
    | piece :: pieces => (pre +:+ piece) :: pieces
    | [] => [pre]
    end.
Proof.
  induction pre as [|c pre IH]; intros Hnone.
  - rewrite append_nil_l.
    destruct (RecipeCard.split_separator 0 rest) eqn:Hs; [|reflexivity].
    exfalso. exact (split_separator_not_nil 0 rest Hs).
  - rewrite append_cons. cbn [RecipeCard.split_separator].
    rewrite <- append_cons, (Hnone "" (String c pre)) by done.
    rewrite IH.
    + destruct (RecipeCard.split_separator 0 rest); reflexivity.
    + intros a b -> Hb. apply (Hnone (String c a) b); done.
Qed.

Lemma split_separator_whole s :
  (∀ pre post, s = pre +:+ post → RecipeCard.separator_len post = None) →
  RecipeCard.split_separator 0 s = [s].
Proof.
  intros Hnone. rewrite <- (append_nil_r s) at 1.
  rewrite split_separator_keep;
    [cbn [RecipeCard.split_separator]; rewrite append_nil_r; reflexivity|].
  intros a b -> _. rewrite append_nil_r. eapply Hnone. reflexivity.
Qed.

Lemma cut_at_markers_split s pieces :
  RecipeCard.cut_at_markers s pieces → RecipeCard.split_separator 0 s = pieces.
Proof.
  induction 1 as [s Hnone|pre sep rest pieces Hpre Hsep _ IH].
  - apply split_separator_whole, Hnone.
  - rewrite split_separator_keep by exact Hpre.
    rewrite (split_separator_marker _ _ Hsep), IH, append_nil_r. reflexivity.
Qed.

Lemma cut_at_markers_cons c s piece pieces :
  RecipeCard.separator_len (String c s) = None →
  RecipeCard.cut_at_markers s (piece :: pieces) →
  RecipeCard.cut_at_markers (String c s) (String c piece :: pieces).
Proof.
  intros Hc Hcut. inversion Hcut as [s0 Hnone|pre sep rest ps Hpre Hsep Hrest]; subst.
  - apply RecipeCard.cut_last. intros [|d pre] post.
    + rewrite append_nil_l. intros <-. exact Hc.
    + rewrite append_cons. intros [= _ ->]. eapply Hnone. reflexivity.
  - rewrite <- append_cons. apply RecipeCard.cut_marker; [|exact Hsep|exact Hrest].
    intros [|d a] b.
    + rewrite append_nil_l. intros <- _. rewrite append_cons. exact Hc.
    + rewrite append_cons. intros [= _ ->] Hb. apply (Hpre a b); done.
Qed.

Lemma split_separator_cut s : RecipeCard.cut_at_markers s (RecipeCard.split_separator 0 s).
Proof.
  remember (String.length s) as n eqn:Hn.
  revert s Hn. induction (lt_wf n) as [n _ IH]. intros s ->.
  destruct s as [|c s].
  - apply RecipeCard.cut_last. intros pre post [_ ->]%eq_sym%append_eq_nil. reflexivity.
  - destruct (RecipeCard.separator_len (String c s)) as [k|] eqn:Hk.
    + destruct (separator_len_bounds _ _ Hk) as [Hk1 Hk2].
      destruct (split_at k (String c s) Hk2) as (sep & rest & Hs & Hlen).
      rewrite Hs in Hk |- *. rewrite <- Hlen in Hk.
      rewrite (split_separator_marker _ _ Hk).
      rewrite <- (append_nil_l (sep +:+ rest)).
      apply RecipeCard.cut_marker;
        [intros a b [_ ->]%eq_sym%append_eq_nil Hb; done | exact Hk |].
      eapply IH; [|reflexivity].
      pose proof (f_equal String.length Hs) as Hl.
      rewrite length_append in Hl. lia.
    + cbn [RecipeCard.split_separator]. rewrite Hk.
      pose proof (IH (String.length s) ltac:(cbn; lia) s eq_refl) as Hcut.
      destruct (RecipeCard.split_separator 0 s) as [|piece pieces] eqn:Hp.
      * exfalso. exact (split_separator_not_nil 0 s Hp).
      * apply cut_at_markers_cons; assumption.
Qed.

(** A greedy span: the units taken satisfy [p], the next one does not. *)
Lemma span_split p s :
  ∃ a b, s = a +:+ b ∧ RecipeCard.all_units p a = true ∧
         RecipeCard.span_len p s = String.length a ∧
         RecipeCard.span_len p b = 0%nat ∧
         RecipeCard.drop_units (RecipeCard.span_len p s) s = b.
Proof.
  induction s as [|c s (a & b & Hs & Ha & Hlen & Hb & Hdrop)].
  - exists "", "". repeat split.
  - cbn [RecipeCard.span_len]. destruct (p c) eqn:Hc.
    + exists (String c a), b. rewrite append_cons, <- Hs.
      cbn [RecipeCard.all_units String.length RecipeCard.drop_units].
      rewrite Hc, Ha, Hlen. rewrite Hlen in Hdrop. repeat split; assumption.
    + exists "", (String c s). cbn [RecipeCard.span_len]. rewrite Hc.
      repeat split.
Qed.

Lemma upper_not_white_space c :
  Js.is_upper c = true → Js.is_white_space c = false.
Proof.
  destruct c as [[] [] [] [] [] [] [] []]; vm_compute; congruence.
Qed.

(** What the pattern matches at the head of a text: digits, a full stop
    and all the white space that follows; or a full stop, white space and
    then a capital letter, which is not taken. *)
Lemma separator_len_shape t k :
  RecipeCard.separator_len t = Some k ↔
  (∃ digits spaces rest,
      t = digits +:+ "." +:+ spaces +:+ rest ∧ digits ≠ "" ∧
      RecipeCard.all_units RecipeCard.is_digit digits = true ∧
      RecipeCard.all_units Js.is_white_space spaces = true ∧
      RecipeCard.span_len Js.is_white_space rest = 0%nat ∧
      k = (String.length digits + 1 + String.length spaces)%nat) ∨
  (∃ spaces next rest,
      t = "." +:+ spaces +:+ String next rest ∧ spaces ≠ "" ∧
      RecipeCard.all_units Js.is_white_space spaces = true ∧
      Js.is_upper next = true ∧
      k = (1 + String.length spaces)%nat).
Proof.
  split.
  - unfold RecipeCard.separator_len.
    destruct (RecipeCard.numbering_len t) as [n|] eqn:Hn.
    + intros [= <-]. left. unfold RecipeCard.numbering_len in Hn.
      destruct (span_split RecipeCard.is_digit t)
        as (digits & tail & Ht & Hdigits & Hlen & _ & Hdrop).
      destruct (RecipeCard.span_len RecipeCard.is_digit t) as [|d]; [done|].
      rewrite Hdrop in Hn. destruct tail as [|c tail]; [done|].
      destruct (Ascii.eqb c RecipeCard.dot) eqn:Hc; [|done].
      apply Ascii.eqb_eq in Hc as ->. injection Hn as <-.
      destruct (span_split Js.is_white_space tail)
        as (spaces & rest & -> & Hspaces & Hslen & Hrest & _).
      exists digits, spaces, rest.
      split; [exact Ht|]. split; [intros ->; discriminate Hlen|].
      repeat split; try assumption. lia.
    + intros Hs. right. unfold RecipeCard.sentence_end_len in Hs.
      destruct t as [|c tail]; [done|].
      destruct (Ascii.eqb c RecipeCard.dot) eqn:Hc; [|done].
      apply Ascii.eqb_eq in Hc as ->.
      destruct (span_split Js.is_white_space tail)
        as (spaces & rest & Ht & Hspaces & Hslen & _ & Hdrop).
      destruct (RecipeCard.span_len Js.is_white_space tail) as [|d]; [done|].
      rewrite Hdrop in Hs. destruct rest as [|next rest]; [done|].
      destruct (Js.is_upper next) eqn:Hup; [|done].
      injection Hs as <-. exists spaces, next, rest.
      split; [rewrite Ht; reflexivity|].
      split; [intros ->; discriminate Hslen|].
      repeat split; try assumption. lia.
  - intros [(digits & spaces & rest & -> & Hne & Hdigits & Hspaces & Hrest & ->)
           |(spaces & next & rest & -> & Hne & Hspaces & Hup & ->)].
    + unfold RecipeCard.separator_len, RecipeCard.numbering_len. cbv zeta.
      rewrite (span_len_app _ _ _ Hdigits).
      change ("." +:+ spaces +:+ rest)
        with (String RecipeCard.dot (spaces +:+ rest)).
      cbn [RecipeCard.span_len].
      change (RecipeCard.is_digit RecipeCard.dot) with false. cbv iota.
      rewrite Nat.add_0_r.
      destruct (String.length digits) as [|d] eqn:Hlen;
        [destruct digits; done|].
      rewrite <- Hlen, drop_units_app.
      rewrite Ascii.eqb_refl, (span_len_app _ _ _ Hspaces), Hrest.
      f_equal. lia.
    + unfold RecipeCard.separator_len, RecipeCard.numbering_len,
        RecipeCard.sentence_end_len.
      change ("." +:+ spaces +:+ String next rest)
        with (String RecipeCard.dot (spaces +:+ String next rest)).
      cbn [RecipeCard.span_len].
      change (RecipeCard.is_digit RecipeCard.dot) with false. cbv iota zeta.
      rewrite Ascii.eqb_refl, (span_len_app _ _ _ Hspaces).
      cbn [RecipeCard.span_len].
      rewrite (upper_not_white_space _ Hup), Nat.add_0_r.
      destruct (String.length spaces) as [|d] eqn:Hlen;
        [destruct spaces; done|].
      rewrite <- Hlen, drop_units_app, Hup. reflexivity.
Qed.

(** A line feed starts no separator. *)
Lemma line_feed_no_separator s :
  RecipeCard.separator_len (String Js.LF s) = None.
Proof. apply inert_no_separator. reflexivity. Qed.

Lemma formatInstructions_string s :
  RecipeCard.formatInstructions (Api.JStr s)
  = inr (RecipeCard.join_lines
           (imap RecipeCard.numbered
              (Js.trim <$> filter (λ piece, Js.trim piece ≠ "")
                                  (RecipeCard.split_separator 0 s)))).
Proof.
  unfold RecipeCard.formatInstructions. cbn [Api.truthy].
  destruct (String.eqb s "") eqn:He; [|reflexivity].
  apply String.eqb_eq in He as ->. reflexivity.
Qed.

(** C9 (as the code has it). When the instructions of a recipe are a single
    string, [cleanRecipeData] cuts it at line feeds only: the steps are the
    lines of the string, trimmed, the empty ones dropped, in order; each
    step is non-empty and holds no line feed; numbered markers are not
    separators there, so a text on one line stays one step.  Instructions
    that are already a list are returned as they are.  Numbered markers are
    split by the card's [formatInstructions] instead.  Given any string it
    cuts at every match of its pattern, leftmost first: a number with its
    full stop and all the white space after it, or a full stop followed by
    white space and a capital letter, wherever they stand, also inside a
    step; a line feed starts no match.  The pieces are trimmed, the empty
    ones dropped, and the rest shown in order, one per line, numbered by
    position.  So a text without full stop is one step, and a one-line text
    of numbered steps that hold no digit and no full stop comes out with
    each step on a line of its own. *)
Theorem cleanRecipeData_instructions_lines :
  (∀ recipe cleaned,
     Api.cleanRecipeData recipe = inr cleaned →
     (∀ s, Api.instructions recipe = Api.JStr s →
        let lines := Js.split Js.LF s in
        let steps := filter (λ step, step ≠ "") (Js.trim <$> lines) in
        Api.c_instructions cleaned = Api.JArr (Api.JStr <$> steps) ∧
        RecipeCard.join_lines lines = s ∧
        Forall (λ line, Js.mentions Js.LF line = false) lines ∧
        Forall (λ step, step ≠ "" ∧ Js.trim step = step ∧
                        Js.mentions Js.LF step = false) steps ∧
        (Js.mentions Js.LF s = false → Js.trim s ≠ "" → steps = [Js.trim s])) ∧
     (∀ items, Api.instructions recipe = Api.JArr items →
        Api.c_instructions cleaned = Api.JArr items)) ∧
  (∀ steps,
     Forall RecipeCard.plain_step steps →
     RecipeCard.formatInstructions (Api.JStr (RecipeCard.numbered_text 0 steps))
     = inr (RecipeCard.join_lines (imap RecipeCard.numbered steps))) ∧
  (∀ s,
     Js.mentions RecipeCard.dot s = false → Js.trim s ≠ "" →
     RecipeCard.formatInstructions (Api.JStr s) = inr ("1. " +:+ Js.trim s)) ∧
  (∀ s,
     let pieces := RecipeCard.split_separator 0 s in
     let steps := Js.trim <$> filter (λ piece, Js.trim piece ≠ "") pieces in
     RecipeCard.formatInstructions (Api.JStr s)
     = inr (RecipeCard.join_lines (imap RecipeCard.numbered steps)) ∧
     Forall (λ step, step ≠ "" ∧ Js.trim step = step) steps) ∧
  (∀ s pieces,
     RecipeCard.cut_at_markers s pieces ↔
     RecipeCard.split_separator 0 s = pieces) ∧
  (∀ t k,
     RecipeCard.separator_len t = Some k ↔
     (∃ digits spaces rest,
         t = digits +:+ "." +:+ spaces +:+ rest ∧ digits ≠ "" ∧
         RecipeCard.all_units RecipeCard.is_digit digits = true ∧
         RecipeCard.all_units Js.is_white_space spaces = true ∧
         RecipeCard.span_len Js.is_white_space rest = 0%nat ∧
         k = (String.length digits + 1 + String.length spaces)%nat) ∨
     (∃ spaces next rest,
         t = "." +:+ spaces +:+ String next rest ∧ spaces ≠ "" ∧
         RecipeCard.all_units Js.is_white_space spaces = true ∧
         Js.is_upper next = true ∧
         k = (1 + String.length spaces)%nat)) ∧
  (∀ s, RecipeCard.separator_len (String Js.LF s) = None).
Proof.
  split; [|split; [exact formatInstructions_numbered_text|]].
  2: { split; [exact formatInstructions_no_marker|].
       split; [|split; [|split; [exact separator_len_shape
                                | exact line_feed_no_separator]]].
       - intros s pieces steps. split; [apply formatInstructions_string|].
         apply Forall_forall. intros step.
         intros (piece & -> & [Hne _]%list_elem_of_filter)%list_elem_of_fmap.
         split; [exact Hne | apply trim_idem].
       - intros s pieces. split; [apply cut_at_markers_split|].
         intros <-. apply split_separator_cut. }
  intros recipe cleaned [_ Hi]%cleanRecipeData_inv. split.
  - intros s Hs lines steps. rewrite Hi, Hs, clean_instructions_string.
    repeat split.
    + apply join_split_lines.
    + apply split_pieces_free.
    + apply Forall_forall. intros step Hstep.
      destruct (split_steps_elem s step Hstep) as (? & ? & ? & _). auto.
    + apply split_steps_one_line.
  - intros items Hitems. rewrite Hi, Hitems. reflexivity.
Qed.

Lemma cleanRecipeData_instructions_lines_witness :
  (∃ cleaned,
     Api.cleanRecipeData
       (Samples.sample_recipe (Api.JStr "Easy") (Api.JStr Samples.two_lines))
       = inr cleaned ∧
     Api.c_instructions cleaned = Api.JArr [Api.JStr "Chop"; Api.JStr "Fry"]) ∧
  RecipeCard.formatInstructions (Api.JStr "1. Chop 2. Fry ")
  = inr ("1. Chop" +:+ String Js.LF "2. Fry") ∧
  RecipeCard.formatInstructions
    (Api.JStr "1. Bake at 350. Then cool 2. Serve ")
  = inr ("1. Bake at" +:+ String Js.LF "2. Then cool"
         +:+ String Js.LF "3. Serve") ∧
  RecipeCard.formatInstructions (Api.JStr "Add 2 eggs") = inr "1. Add 2 eggs".
Proof.
  destruct cleanRecipeData_instructions_lines
    as (Hclean & Hcard & Hone & Hany & _).
  split; [|split; [|split]].
  - eexists. split; [reflexivity|].
    destruct (Hclean
                (Samples.sample_recipe (Api.JStr "Easy") (Api.JStr Samples.two_lines))
                _ eq_refl) as [Hstring _].
    destruct (Hstring _ eq_refl) as [Hsteps _]. exact Hsteps.
  - apply (Hcard ["Chop"; "Fry"]).
    repeat constructor; try discriminate; reflexivity.
  - exact (proj1 (Hany "1. Bake at 350. Then cool 2. Serve ")).
  - apply (Hone "Add 2 eggs"); [reflexivity | discriminate].
Defined.

(** C9, the claim as worded fails: two numbered steps written on one line
    are not split by [cleanRecipeData], and two lines without markers are
    not split by [formatInstructions]. *)
Lemma cleanRecipeData_keeps_numbered_markers :
  (∃ cleaned,
     Api.cleanRecipeData
       (Samples.sample_recipe (Api.JStr "Easy") (Api.JStr "1. Chop 2. Fry"))
       = inr cleaned ∧
     Api.c_instructions cleaned = Api.JArr [Api.JStr "1. Chop 2. Fry"]) ∧
  RecipeCard.formatInstructions (Api.JStr Samples.two_lines)
    = inr ("1. " +:+ Samples.two_lines).
Proof. split; [eexists; split|]; reflexivity. Qed.

(** ** The ingredient editor *)

Lemma ingredient_includes_elem_of l x :
  IngredientInput.array_includes l x = true ↔ x ∈ l.
Proof.
  unfold IngredientInput.array_includes. rewrite existsb_exists. split.
  - intros (y & Hin & ->%String.eqb_eq). apply list_elem_of_In, Hin.
  - intros Hin. exists x. split; [apply list_elem_of_In, Hin | apply String.eqb_refl].
Qed.

Lemma addIngredient_present l x :
  Js.trim x ∈ l → IngredientInput.addIngredient l x = l.
Proof.
  intros Hin%ingredient_includes_elem_of. unfold IngredientInput.addIngredient.
  rewrite Hin, andb_false_r. reflexivity.
Qed.

Lemma addIngredient_fresh l x :
  Js.trim x ∉ l → Js.trim x ≠ "" →
  IngredientInput.addIngredient l x = l ++ [Js.trim x].
Proof.
  intros Hout Hne. unfold IngredientInput.addIngredient.
  apply String.eqb_neq in Hne. rewrite Hne.
  destruct (IngredientInput.array_includes l (Js.trim x)) eqn:Hin; [|reflexivity].
  apply ingredient_includes_elem_of in Hin. contradiction.
Qed.

Lemma addIngredient_cases l x :
  IngredientInput.addIngredient l x = l ∨
  (IngredientInput.addIngredient l x = l ++ [Js.trim x] ∧
   Js.trim x ≠ "" ∧ Js.trim x ∉ l).
Proof.
  unfold IngredientInput.addIngredient.
  destruct (String.eqb (Js.trim x) "") eqn:He; [left; reflexivity|].
  destruct (IngredientInput.array_includes l (Js.trim x)) eqn:Hin;
    [left; reflexivity|].
  right. apply String.eqb_neq in He. repeat split; [exact He|].
  intros Hin'%ingredient_includes_elem_of. congruence.
Qed.

Lemma editable_well_kept l :
  IngredientInput.editable l →
  NoDup l ∧ Forall (λ x, x ≠ "" ∧ Js.trim x = x) l.
Proof.
  induction 1 as [|l x _ [Hnd Hall]|l x _ [Hnd Hall]].
  - split; constructor.
  - destruct (addIngredient_cases l x) as [->|(-> & Hne & Hout)]; [done|].
    split.
    + apply NoDup_app. repeat split; [exact Hnd | | apply NoDup_singleton].
      intros y Hy ->%list_elem_of_singleton. contradiction.
    + apply Forall_app. split; [exact Hall|].
      repeat constructor; [exact Hne | apply trim_idem].
  - unfold IngredientInput.removeIngredient. split.
    + apply NoDup_filter, Hnd.
    + rewrite Forall_forall in *. intros y [_ Hy]%list_elem_of_filter. auto.
Qed.

Lemma editable_foldl names l :
  IngredientInput.editable l →
  IngredientInput.editable (foldl IngredientInput.addIngredient l names).
Proof.
  revert l. induction names as [|x names IH]; intros l Hl; [exact Hl|].
  cbn [foldl]. apply IH. constructor. exact Hl.
Qed.

(** C7 (as the code has it). A request sent by the form has at least one
    ingredient.  The editor keeps its list free of empty names and of exact
    duplicates: an ingredient whose trimmed name is already in the list,
    spelled the same, leaves the list unchanged; any other non-blank name,
    also one that differs from an entry only in letter case, is appended,
    whatever the length of the list. *)
Theorem editor_dedup_is_exact :
  (∀ l, IngredientInput.editable l →
        NoDup l ∧ Forall (λ x, x ≠ "" ∧ Js.trim x = x) l) ∧
  (∀ l x, Js.trim x ∈ l → IngredientInput.addIngredient l x = l) ∧
  (∀ l x, Js.trim x ∉ l → Js.trim x ≠ "" →
          IngredientInput.addIngredient l x = l ++ [Js.trim x]) ∧
  (∀ l prefs cuisine meal req,
      RecipeGenerator.handleSubmit l prefs cuisine meal = Some req →
      RecipeGenerator.req_ingredients req = l ∧ l ≠ []).
Proof.
  split; [exact editable_well_kept|].
  split; [exact addIngredient_present|].
  split; [exact addIngredient_fresh|].
  intros l prefs cuisine meal req. unfold RecipeGenerator.handleSubmit.
  destruct l; [done|]. intros [= <-]. done.
Qed.

Lemma editor_dedup_is_exact_witness :
  IngredientInput.addIngredient ["rice"; "leek"] " rice " = ["rice"; "leek"] ∧
  IngredientInput.addIngredient ["rice"; "leek"] "Rice" = ["rice"; "leek"; "Rice"] ∧
  NoDup ["rice"; "leek"; "Rice"] ∧
  ∃ req, RecipeGenerator.handleSubmit ["rice"] [] "" "Dinner" = Some req ∧
         RecipeGenerator.req_ingredients req = ["rice"].
Proof.
  destruct editor_dedup_is_exact as (Hkept & Hsame & Hfresh & Hsubmit).
  split; [|split; [|split]].
  - apply Hsame. vm_compute. repeat constructor.
  - apply (Hfresh ["rice"; "leek"] "Rice"); [|discriminate].
    intros Hin%list_elem_of_In. simpl in Hin.
    destruct Hin as [H|[H|[]]]; discriminate.
  - apply (Hkept ["rice"; "leek"; "Rice"]).
    apply (editable_foldl ["rice"; "leek"; "Rice"] []). constructor.
  - eexists. split; [reflexivity|].
    apply (Hsubmit ["rice"] [] "" "Dinner" _ eq_refl).
Defined.

(** C7, the claim as worded fails: a name that differs only in letter case
    is added, and a thirty-first ingredient is accepted. *)
Lemma editor_accepts_other_casing_and_31 :
  IngredientInput.addIngredient ["chicken"] "Chicken" = ["chicken"; "Chicken"] ∧
  IngredientInput.editable ["chicken"; "Chicken"] ∧
  IngredientInput.editable Samples.pantry ∧
  length Samples.pantry = 31%nat ∧
  (∀ prefs, ∃ req,
     RecipeGenerator.handleSubmit Samples.pantry prefs "" "" = Some req ∧
     length (RecipeGenerator.req_ingredients req) = 31%nat).
Proof.
  split; [reflexivity|]. split; [|split; [|split]].
  - apply (editable_foldl ["chicken"; "Chicken"] []). constructor.
  - apply (editable_foldl Samples.pantry []). constructor.
  - reflexivity.
  - intros prefs. eexists. split; reflexivity.
Qed.

(** ** [checkDietaryConflicts] *)

Lemma startsWith_spec s p :
  Js.startsWith s p = true ↔ ∃ post, s = p +:+ post.
Proof.
  revert s. induction p as [|a p IH]; intros s.
  - destruct s; cbn; split; eauto.
  - destruct s as [|b s]; cbn [Js.startsWith].
    + split; [discriminate | intros [post H]; discriminate].
    + destruct (Ascii.eqb a b) eqn:Hab.
      * apply Ascii.eqb_eq in Hab as ->. rewrite IH. split.
        -- intros [post ->]. exists post. reflexivity.
        -- intros [post H]. rewrite append_cons in H.
           injection H as ->. eauto.
      * split; [discriminate|]. intros [post H]. rewrite append_cons in H.
        injection H as -> _. rewrite Ascii.eqb_refl in Hab. discriminate.
Qed.

(** [includes] decides the substring relation. *)
Lemma includes_spec s sub :
  Js.includes s sub = true ↔ ∃ pre post, s = pre +:+ sub +:+ post.
Proof.
  induction s as [|c s IH].
  - cbn [Js.includes]. split.
    + destruct (Js.startsWith "" sub) eqn:Hs; [|discriminate]. intros _.
      apply startsWith_spec in Hs as [post Hs]. exists "", post. exact Hs.
    + intros (pre & post & H). symmetry in H.
      apply append_eq_nil in H as [-> H]. apply append_eq_nil in H as [-> ->].
      reflexivity.
  - cbn [Js.includes]. destruct (Js.startsWith (String c s) sub) eqn:Hs.
    + split; [intros _|reflexivity].
      apply startsWith_spec in Hs as [post Hs]. exists "", post. exact Hs.
    + rewrite IH. split.
      * intros (pre & post & ->). exists (String c pre), post. reflexivity.
      * intros (pre & post & H). destruct pre as [|d pre].
        -- assert (Js.startsWith (String c s) sub = true) as Hs'
             by (apply startsWith_spec; eauto).
           congruence.
        -- rewrite append_cons in H. injection H as -> ->. eauto.
Qed.

Lemma conflicting_spec forbidden ingredient :
  RecipeGenerator.conflicting forbidden ingredient = true ↔
  ∃ f, f ∈ forbidden ∧
       ∃ pre post, Js.toLowerCase ingredient = pre +:+ Js.toLowerCase f +:+ post.
Proof.
  unfold RecipeGenerator.conflicting. rewrite existsb_exists. split.
  - intros (f & Hin%list_elem_of_In & Hf%includes_spec). eauto.
  - intros (f & Hin%list_elem_of_In & Hf%includes_spec). eauto.
Qed.

Lemma no_table_no_conflict ingredients :
  filter (λ i, RecipeGenerator.conflicting [] i = true) ingredients = [].
Proof.
  induction ingredients as [|i l IH]; [reflexivity|].
  rewrite filter_cons_False; [exact IH | discriminate].
Qed.

Lemma check_diet_elem ingredients conflicts d c :
  c ∈ RecipeGenerator.check_diet ingredients conflicts d ↔
  c ∈ conflicts ∨
  (RecipeGenerator.diet c = d ∧
   RecipeGenerator.ingredients c =
     filter (λ i, RecipeGenerator.conflicting (RecipeGenerator.forbidden_table d) i = true)
            ingredients ∧
   RecipeGenerator.ingredients c ≠ []).
Proof.
  unfold RecipeGenerator.check_diet, RecipeGenerator.forbidden_table.
  destruct (RecipeGenerator.dietaryRestrictions !! _) as [tbl|]; cbn [default].
  - destruct (filter _ ingredients) as [|i l] eqn:Hf; cbn [length Nat.ltb Nat.leb].
    + split; [auto|]. intros [H|(_ & H1 & H2)]; [exact H | congruence].
    + rewrite elem_of_app, list_elem_of_singleton. split.
      * intros [H | ->]; [auto|]. right. done.
      * intros [H | (H1 & H2 & _)]; [auto|]. right.
        destruct c as [cd ci]. cbn in *. subst. reflexivity.
  - split; [auto|]. intros [H|(_ & H1 & H2)]; [exact H|].
    rewrite H1, no_table_no_conflict in H2. done.
Qed.

Lemma checkDietaryConflicts_elem prefs ingredients acc c :
  c ∈ foldl (RecipeGenerator.check_diet ingredients) acc prefs ↔
  c ∈ acc ∨
  (RecipeGenerator.diet c ∈ prefs ∧
   RecipeGenerator.ingredients c =
     filter (λ i, RecipeGenerator.conflicting
                    (RecipeGenerator.forbidden_table (RecipeGenerator.diet c)) i = true)
            ingredients ∧
   RecipeGenerator.ingredients c ≠ []).
Proof.
  revert acc. induction prefs as [|d prefs IH]; intros acc; cbn [foldl].
  - split; [auto|]. intros [H|[H _]]; [exact H|]. inversion H.
  - rewrite IH, check_diet_elem, elem_of_cons. split.
    + intros [[H|(<- & H1 & H2)]|(H & H1 & H2)]; auto.
    + intros [H|([->|H] & H1 & H2)]; auto.
Qed.

(** C8. An ingredient is reported under a selected diet exactly when some
    entry of that diet's table is a substring of it, letter case aside;
    "butternut squash" is therefore reported under Dairy-Free, through the
    entry "butter", although it is not itself in the table. *)
Theorem dietary_conflict_iff_substring :
  (∀ prefs ingredients d i,
     RecipeGenerator.flagged
       (RecipeGenerator.checkDietaryConflicts prefs ingredients) d i ↔
     d ∈ prefs ∧ i ∈ ingredients ∧
     ∃ f, f ∈ RecipeGenerator.forbidden_table d ∧
          ∃ pre post, Js.toLowerCase i = pre +:+ Js.toLowerCase f +:+ post) ∧
  RecipeGenerator.checkDietaryConflicts
    [RecipeGenerator.DairyFree] ["rice"; "butternut squash"]
  = [{| RecipeGenerator.diet := RecipeGenerator.DairyFree;
        RecipeGenerator.ingredients := ["butternut squash"] |}] ∧
  ("butternut squash" ∉ RecipeGenerator.forbidden_table RecipeGenerator.DairyFree) ∧
  "butter" ∈ RecipeGenerator.forbidden_table RecipeGenerator.DairyFree.
Proof.
  split; [|split; [reflexivity|split]].
  - intros prefs ingredients d i.
    unfold RecipeGenerator.flagged, RecipeGenerator.checkDietaryConflicts.
    split.
    + intros (c & Hc & <- & Hi). apply checkDietaryConflicts_elem in Hc.
      destruct Hc as [Hc|(Hd & Hf & _)]; [inversion Hc|].
      rewrite Hf in Hi. apply list_elem_of_filter in Hi as [Hi Hin].
      apply conflicting_spec in Hi. auto.
    + intros (Hd & Hin & Hf%conflicting_spec).
      exists {| RecipeGenerator.diet := d;
                RecipeGenerator.ingredients :=
                  filter (λ i, RecipeGenerator.conflicting
                                 (RecipeGenerator.forbidden_table d) i = true)
                         ingredients |}.
      assert (i ∈ filter (λ i, RecipeGenerator.conflicting
                                 (RecipeGenerator.forbidden_table d) i = true)
                         ingredients) as Hi
        by (apply list_elem_of_filter; auto).
      split; [|split; [reflexivity | exact Hi]].
      apply checkDietaryConflicts_elem. right. cbn.
      split; [exact Hd|]. split; [reflexivity|].
      intros Hnil. rewrite Hnil in Hi. inversion Hi.
  - vm_compute. intros Hin%list_elem_of_In. simpl in Hin.
    repeat (destruct Hin as [Hin|Hin]; [discriminate|]). exact Hin.
  - vm_compute. repeat constructor.
Qed.

(** ** [retryRequest] *)

Lemma retryRequest_post server url body retries n :
  ∃ r, (r ≤ retries)%nat ∧
    let '(outcome, n') := Api.retryRequest (Api.post server url body) retries n in
    Api.sent n' = Api.sent n ++ replicate (S r) (url, body) ∧
    Api.slept n' = Api.slept n + Api.RETRY_DELAY * Z.of_nat r ∧
    outcome = server (length (Api.sent n) + r)%nat ∧
    (∀ j, (j < r)%nat →
          Api.will_retry (server (length (Api.sent n) + j)%nat) = true) ∧
    (r = retries ∨ Api.will_retry outcome = false).
Proof.
  revert n. induction retries as [|retries IH]; intros n.
  - exists 0%nat. split; [lia|]. cbn [Api.retryRequest Api.post].
    rewrite Nat.add_0_r.
    destruct (server (length (Api.sent n))) as [a|e] eqn:Hs;
      cbn [Api.sent Api.slept]; (repeat split; [lia | | auto]); intros; lia.
  - cbn [Api.retryRequest]. unfold Api.post at 1.
    destruct (server (length (Api.sent n))) as [a|e] eqn:Hs.
    { exists 0%nat. split; [lia|]. cbn [Api.sent Api.slept].
      rewrite Nat.add_0_r, Hs.
      repeat split; [lia | | right; reflexivity]. intros; lia. }
    destruct (Api.retryable e) eqn:He.
    2:{ exists 0%nat. split; [lia|]. cbn [Api.sent Api.slept].
        rewrite Nat.add_0_r, Hs.
        repeat split; [lia | | right; exact He]. intros; lia. }
    set (n1 := Api.sleep Api.RETRY_DELAY _).
    destruct (IH n1) as (r & Hr & IHr).
    exists (S r). split; [lia|].
    destruct (Api.retryRequest (Api.post server url body) retries n1)
      as [outcome n'].
    destruct IHr as (Hsent & Hslept & Hout & Hbefore & Hlast).
    assert (length (Api.sent n1) = S (length (Api.sent n))) as Hlen.
    { subst n1. cbn. rewrite length_app. cbn. lia. }
    rewrite Hlen in Hout, Hbefore.
    replace (length (Api.sent n) + S r)%nat with (S (length (Api.sent n)) + r)%nat
      by lia.
    repeat split.
    + rewrite Hsent. subst n1. cbn [Api.sent Api.sleep].
      rewrite <- app_assoc. reflexivity.
    + rewrite Hslept. subst n1. cbn [Api.slept Api.sleep]. lia.
    + exact Hout.
    + intros [|j] Hj.
      * rewrite Nat.add_0_r, Hs. exact He.
      * replace (length (Api.sent n) + S j)%nat
          with (S (length (Api.sent n)) + j)%nat by lia.
        apply Hbefore. lia.
    + destruct Hlast as [->|Hlast]; [left; reflexivity | right; exact Hlast].
Qed.

(** C3 (as the code has it). One invocation of [generateRecipes] issues
    between one and four POST requests: a request that timed out
    (ECONNABORTED) or was answered with a status of 500 or more is sent
    again after one second, at most [MAX_RETRIES] = 3 times; every request
    before the last was such a failure, the invocation settles as the last
    request did, and it stops early only on an answer that is not
    retried. *)
Theorem generateRecipes_retries server requestData n :
  ∃ r, (r ≤ Api.MAX_RETRIES)%nat ∧
    let '(outcome, n') := Api.generateRecipes server requestData n in
    Api.sent n' =
      Api.sent n ++ replicate (S r) ("/api/recipes/generate", requestData) ∧
    Api.slept n' = Api.slept n + 1000 * Z.of_nat r ∧
    outcome = server (length (Api.sent n) + r)%nat ∧
    (∀ j, (j < r)%nat →
          Api.will_retry (server (length (Api.sent n) + j)%nat) = true) ∧
    (r = 3%nat ∨ Api.will_retry outcome = false).
Proof. apply retryRequest_post. Qed.

(** C3, the claim as worded fails: against a backend that keeps answering
    500, or keeps timing out, one invocation sends four requests; one
    failure with 503 already costs a second request.  The service's own
    [_call_gemini_async] of the reliability notes likewise calls the
    provider a second time after a time-out. *)
Lemma generateRecipes_sends_four_requests :
  length (Api.sent (snd (Api.generateRecipes (Samples.always_status 500)
                           Samples.request_body Api.Net0))) = 4%nat ∧
  length (Api.sent (snd (Api.generateRecipes Samples.always_timeout
                           Samples.request_body Api.Net0))) = 4%nat ∧
  length (Api.sent (snd (Api.generateRecipes Samples.flaky
                           Samples.request_body Api.Net0))) = 2%nat ∧
  snd (Reliability._call_gemini_async Samples.slow_http [])
  = [Reliability.AsyncHttp; Reliability.SyncThread].
Proof. repeat split; reflexivity. Qed.

(** ** [gather] *)

Lemma length_fill {A} (tasks : list A) slots i :
  length (Py.fill tasks slots i) = length slots.
Proof. unfold Py.fill. destruct (tasks !! i); [apply length_insert | reflexivity]. Qed.

Lemma length_foldl_fill {A} (tasks : list A) completion slots :
  length (foldl (Py.fill tasks) slots completion) = length slots.
Proof.
  revert slots. induction completion as [|i rest IH]; intros slots; [reflexivity|].
  cbn [foldl]. rewrite IH. apply length_fill.
Qed.

(** A slot that is filled, or whose task completes later, holds the
    outcome of its own task in the end. *)
Lemma foldl_fill_lookup {A} (tasks : list A) completion slots j :
  length slots = length tasks → (j < length tasks)%nat →
  j ∈ completion ∨ slots !! j = Some (tasks !! j) →
  foldl (Py.fill tasks) slots completion !! j = Some (tasks !! j).
Proof.
  revert slots. induction completion as [|i rest IH]; intros slots Hlen Hj Hcase.
  - destruct Hcase as [Hin|H]; [inversion Hin | exact H].
  - cbn [foldl]. apply IH; [rewrite length_fill; exact Hlen | exact Hj |].
    destruct (decide (j ∈ rest)) as [Hin|Hout]; [left; exact Hin | right].
    unfold Py.fill. destruct (decide (i = j)) as [->|Hne].
    + destruct (tasks !! j) as [x|] eqn:Hx.
      * apply list_lookup_insert_eq. lia.
      * apply lookup_ge_None in Hx. lia.
    + destruct Hcase as [Hin|H].
      * apply elem_of_cons in Hin as [->|Hin]; contradiction.
      * destruct (tasks !! i); [rewrite list_lookup_insert_ne by exact Hne|];
          exact H.
Qed.

Lemma gather_complete {A} (tasks : list A) completion :
  completion ≡ₚ seq 0 (length tasks) → Py.gather tasks completion = Some tasks.
Proof.
  intros Hperm. unfold Py.gather.
  assert (foldl (Py.fill tasks) (replicate (length tasks) None) completion
          = Some <$> tasks) as ->.
  { apply list_eq. intros j. rewrite list_lookup_fmap.
    destruct (decide (j < length tasks)%nat) as [Hj|Hj].
    - assert (j ∈ completion) as Hin.
      { apply (elem_of_Permutation_proper j _ _ Hperm), elem_of_seq. lia. }
      rewrite (foldl_fill_lookup tasks completion _ j
                 (length_replicate (length tasks) None) Hj (or_introl Hin)).
      destruct (lookup_lt_is_Some_2 tasks j Hj) as [x ->]. reflexivity.
    - rewrite (proj2 (lookup_ge_None tasks j)) by lia.
      apply lookup_ge_None. rewrite length_foldl_fill, length_replicate. lia. }
  apply mapM_Some_2. clear Hperm.
  induction tasks as [|x l IH]; cbn [fmap list_fmap]; constructor;
    [reflexivity | exact IH].
Qed.

(** ** The service: parser, generation, batch *)

Section ServiceFacts.

Context {Recipe RecipeData Payload : Type}.
Variable recipe_entries : string → Py.result (list RecipeData).
Variable _create_recipe_from_ai_data : RecipeData → Py.result Recipe.
Variable _validate_recipe : Recipe → bool.
Variable _get_fallback_recipes : list Recipe.
Variable _get_fallback_recipes_async : list Recipe.
Variable response_text : Payload → Py.result string.

Abbreviation _parse_response :=
  (GeminiService._parse_response recipe_entries _create_recipe_from_ai_data
     _validate_recipe _get_fallback_recipes).
Abbreviation service_generate :=
  (GeminiService.generate_recipes recipe_entries _create_recipe_from_ai_data
     _validate_recipe _get_fallback_recipes _get_fallback_recipes_async
     response_text).
Abbreviation generate_multiple_recipes :=
  (GeminiService.generate_multiple_recipes recipe_entries
     _create_recipe_from_ai_data _validate_recipe _get_fallback_recipes
     _get_fallback_recipes_async response_text).
Abbreviation generate_recipes_batch :=
  (RecipesApi.generate_recipes_batch recipe_entries
     _create_recipe_from_ai_data _validate_recipe _get_fallback_recipes
     _get_fallback_recipes_async response_text).
Abbreviation substitute := (GeminiService.substitute _get_fallback_recipes_async).

Lemma rebuild_requests (requests : list GeminiService.RequestDict) :
  (λ req, {| GeminiService.ingredients := GeminiService.ingredients req;
             GeminiService.cuisine_type := GeminiService.cuisine_type req;
             GeminiService.dietary_preferences :=
               GeminiService.dietary_preferences req |}) <$> requests
  = requests.
Proof.
  induction requests as [|[] l IH]; [reflexivity|].
  cbn [fmap list_fmap] in *. rewrite IH. reflexivity.
Qed.

Lemma generate_multiple_recipes_complete gemini completion requests :
  completion ≡ₚ seq 0 (length requests) →
  generate_multiple_recipes gemini completion requests
  = (Some (imap (λ i req, substitute (service_generate
                                          (gemini i (GeminiService.task_call req))))
                requests),
     GeminiService.task_call <$> requests).
Proof.
  intros Hperm. unfold GeminiService.generate_multiple_recipes.
  rewrite gather_complete
    by (rewrite length_imap, length_fmap; exact Hperm).
  cbn [fmap option_fmap option_map]. f_equal. f_equal.
  apply list_eq. intros i.
  rewrite list_lookup_fmap, !list_lookup_imap, list_lookup_fmap.
  destruct (requests !! i); reflexivity.
Qed.


(** C5. A batch of more than five requests is refused with HTTP 400
    ("Maximum 5 concurrent requests") before anything else happens: no
    generation task is created for any of its requests. *)
Theorem oversized_batch_rejected_before_dispatch gemini completion requests :
  (5 < length requests)%nat →
  generate_recipes_batch gemini completion requests
  = (Some (Py.Raise (Py.HTTPException 400 "Maximum 5 concurrent requests")), []).
Proof.
  intros Hlen. unfold RecipesApi.generate_recipes_batch.
  apply Nat.ltb_lt in Hlen. rewrite Hlen. reflexivity.
Qed.

Lemma batch_answer_by_position gemini completion requests :
  (length requests ≤ 5)%nat →
  completion ≡ₚ seq 0 (length requests) →
  ∃ answer results,
    generate_recipes_batch gemini completion requests
      = (Some (Py.Return answer), GeminiService.task_call <$> requests) ∧
    answer !! "recipe_sets" = Some (Py.VRecipeSets results) ∧
    length results = length requests ∧
    (∀ i req,
       requests !! i = Some req →
       results !! i
         = Some (substitute
                   (service_generate (gemini i (GeminiService.task_call req))))) ∧
    (∀ i req e,
       requests !! i = Some req →
       service_generate (gemini i (GeminiService.task_call req)) = Py.Raise e →
       results !! i = Some _get_fallback_recipes_async).
Proof.
  intros Hlen Hperm. unfold RecipesApi.generate_recipes_batch.
  assert ((5 <? length requests)%nat = false) as -> by (apply Nat.ltb_ge; lia).
  rewrite rebuild_requests,
    (generate_multiple_recipes_complete gemini completion requests Hperm).
  cbn [fmap option_fmap option_map].
  eexists _, _. split; [reflexivity|]. split; [apply lookup_insert_eq|].
  split; [apply length_imap|].
  assert (∀ i req, requests !! i = Some req →
            imap (λ i req, substitute (service_generate
                                          (gemini i (GeminiService.task_call req))))
                 requests !! i
            = Some (substitute (service_generate
                                  (gemini i (GeminiService.task_call req)))))
    as Hlookup.
  { intros i req Hreq. rewrite list_lookup_imap, Hreq. reflexivity. }
  split; [exact Hlookup|].
  intros i req e Hreq Hraise. rewrite (Hlookup i req Hreq), Hraise. reflexivity.
Qed.

(** The answer to a batch whose tasks have all completed does not mention
    the order of completion. *)
Lemma batch_answer_complete gemini completion requests :
  (length requests ≤ 5)%nat →
  completion ≡ₚ seq 0 (length requests) →
  generate_recipes_batch gemini completion requests
  = generate_recipes_batch gemini (seq 0 (length requests)) requests.
Proof.
  intros Hlen Hperm. unfold RecipesApi.generate_recipes_batch.
  destruct (5 <? length requests)%nat; [reflexivity|].
  rewrite rebuild_requests,
    (generate_multiple_recipes_complete gemini completion requests Hperm),
    (generate_multiple_recipes_complete gemini _ requests (reflexivity _)).
  reflexivity.
Qed.

(** C6. A batch of N requests, N at most five, is answered with exactly N
    recipe sets once all tasks have completed, and the answer is the same
    in whatever order they complete.  Task i is created from the
    ingredients and cuisine type of request i, and the set at position i
    is the outcome of that task and of nothing else: the recipes it
    returned, kept as they are, or the static recipes when it raised.  A
    provider that behaves differently for the sibling tasks leaves the set
    at position i as it is. *)
Theorem batch_results_follow_input_order gemini completion requests :
  (length requests ≤ 5)%nat →
  completion ≡ₚ seq 0 (length requests) →
  let call_of (req : GeminiService.RequestDict) :=
    {| GeminiService.call_ingredients := GeminiService.ingredients req;
       GeminiService.call_cuisine_type := GeminiService.cuisine_type req |} in
  ∃ answer results,
    generate_recipes_batch gemini completion requests
      = (Some (Py.Return answer), call_of <$> requests) ∧
    answer !! "recipe_sets" = Some (Py.VRecipeSets results) ∧
    length results = length requests ∧
    (∀ i req recipes,
       requests !! i = Some req →
       service_generate (gemini i (call_of req)) = Py.Return recipes →
       results !! i = Some recipes) ∧
    (∀ i req e,
       requests !! i = Some req →
       service_generate (gemini i (call_of req)) = Py.Raise e →
       results !! i = Some _get_fallback_recipes_async) ∧
    (∀ completion',
       completion' ≡ₚ seq 0 (length requests) →
       generate_recipes_batch gemini completion' requests
       = generate_recipes_batch gemini completion requests) ∧
    (∀ gemini' i,
       (∀ c, gemini' i c = gemini i c) →
       ∃ answer' results',
         generate_recipes_batch gemini' completion requests
           = (Some (Py.Return answer'), call_of <$> requests) ∧
         answer' !! "recipe_sets" = Some (Py.VRecipeSets results') ∧
         results' !! i = results !! i).
Proof.
  intros Hlen Hperm call_of.
  destruct (batch_answer_by_position gemini completion requests Hlen Hperm)
    as (answer & results & Hrun & Hsets & Hn & Hat & Hraise).
  exists answer, results.
  split; [exact Hrun|]. split; [exact Hsets|]. split; [exact Hn|].
  split; [|split; [exact Hraise|split]].
  - intros i req recipes Hreq Hok.
    rewrite (Hat i req Hreq). unfold GeminiService.task_call.
    fold (call_of req). rewrite Hok. reflexivity.
  - intros completion' Hperm'.
    rewrite (batch_answer_complete gemini completion requests Hlen Hperm).
    apply batch_answer_complete; assumption.
  - intros gemini' i Hagree.
    destruct (batch_answer_by_position gemini' completion requests Hlen Hperm)
      as (answer' & results' & Hrun' & Hsets' & Hn' & Hat' & _).
    exists answer', results'. split; [exact Hrun'|]. split; [exact Hsets'|].
    destruct (requests !! i) as [req|] eqn:Hreq.
    + rewrite (Hat i req Hreq), (Hat' i req Hreq), Hagree. reflexivity.
    + apply lookup_ge_None in Hreq.
      rewrite !(proj2 (lookup_ge_None _ _)) by lia. reflexivity.
Qed.

(** Consequently a sibling's provider outcome never shows in a result:
    two runs whose providers agree on task [i] agree on result [i]. *)
Corollary batch_results_isolated gemini gemini' completion completion'
    requests answer answer' results results' i :
  (length requests ≤ 5)%nat →
  completion ≡ₚ seq 0 (length requests) →
  completion' ≡ₚ seq 0 (length requests) →
  (∀ c, gemini i c = gemini' i c) →
  fst (generate_recipes_batch gemini completion requests)
    = Some (Py.Return answer) →
  fst (generate_recipes_batch gemini' completion' requests)
    = Some (Py.Return answer') →
  answer !! "recipe_sets" = Some (Py.VRecipeSets results) →
  answer' !! "recipe_sets" = Some (Py.VRecipeSets results') →
  results !! i = results' !! i.
Proof.
  intros Hlen Hp Hp' Hagree Ha Ha' Hr Hr'.
  destruct (batch_answer_by_position gemini completion requests Hlen Hp)
    as (a & rs & Hrun & Hrs & Hn & Hat & _).
  destruct (batch_answer_by_position gemini' completion' requests Hlen Hp')
    as (a' & rs' & Hrun' & Hrs' & Hn' & Hat' & _).
  rewrite Hrun in Ha. rewrite Hrun' in Ha'. cbn in Ha, Ha'.
  injection Ha as <-. injection Ha' as <-.
  rewrite Hrs in Hr. rewrite Hrs' in Hr'. injection Hr as <-. injection Hr' as <-.
  destruct (requests !! i) as [req|] eqn:Hreq.
  - rewrite (Hat i req Hreq), (Hat' i req Hreq), Hagree. reflexivity.
  - apply lookup_ge_None in Hreq.
    rewrite !(proj2 (lookup_ge_None _ _)) by lia. reflexivity.
Qed.

End ServiceFacts.


Lemma oversized_batch_rejected_before_dispatch_witness :
  RecipesApi.generate_recipes_batch Samples.five_entries Samples.titled
    Samples.any_recipe Samples.pantry_pasta Samples.pantry_pasta
    Samples.plain_text Samples.second_down [] Samples.six_requests
  = (Some (Py.Raise (Py.HTTPException 400 "Maximum 5 concurrent requests")), []).
Proof.
  apply oversized_batch_rejected_before_dispatch. vm_compute. lia.
Defined.

Lemma batch_results_follow_input_order_witness :
  ∃ answer results,
    RecipesApi.generate_recipes_batch Samples.five_entries Samples.titled
      Samples.any_recipe Samples.pantry_pasta Samples.pantry_pasta
      Samples.plain_text Samples.second_down [2; 0; 1]%nat Samples.three_requests
    = (Some (Py.Return answer),
       [ {| GeminiService.call_ingredients := ["rice"];
            GeminiService.call_cuisine_type := None |};
         {| GeminiService.call_ingredients := ["leek"];
            GeminiService.call_cuisine_type := None |};
         {| GeminiService.call_ingredients := ["egg"];
            GeminiService.call_cuisine_type := None |} ]) ∧
    answer !! "recipe_sets" = Some (Py.VRecipeSets results) ∧
    length results = 3%nat ∧
    results !! 0%nat = Some ["Soup"; "Stew"; "Salad"] ∧
    results !! 1%nat = Some Samples.pantry_pasta ∧
    results !! 2%nat = Some ["Soup"; "Stew"; "Salad"] ∧
    RecipesApi.generate_recipes_batch Samples.five_entries Samples.titled
      Samples.any_recipe Samples.pantry_pasta Samples.pantry_pasta
      Samples.plain_text Samples.second_down [0; 1; 2]%nat Samples.three_requests
    = RecipesApi.generate_recipes_batch Samples.five_entries Samples.titled
        Samples.any_recipe Samples.pantry_pasta Samples.pantry_pasta
        Samples.plain_text Samples.second_down [2; 0; 1]%nat
        Samples.three_requests.
Proof.
  destruct (batch_results_follow_input_order Samples.five_entries Samples.titled
              Samples.any_recipe Samples.pantry_pasta Samples.pantry_pasta
              Samples.plain_text Samples.second_down [2; 0; 1]%nat
              Samples.three_requests)
    as (answer & results & Hrun & Hsets & Hlen & Hkept & Hfail & Horder & _).
  - vm_compute. lia.
  - change (seq 0 (length Samples.three_requests)) with [0; 1; 2]%nat.
    apply (Permutation_cons_append [0; 1]%nat 2%nat).
  - exists answer, results.
    split; [exact Hrun|]. split; [exact Hsets|]. split; [exact Hlen|].
    split; [|split; [|split]].
    + apply (Hkept 0%nat (Samples.request_for "rice")); reflexivity.
    + apply (Hfail 1%nat (Samples.request_for "leek") Py.ClientError);
        reflexivity.
    + apply (Hkept 2%nat (Samples.request_for "egg")); reflexivity.
    + apply Horder. reflexivity.
Defined.

(** ** Graceful degradation and the generation endpoint *)

Section DegradationFacts.

Context {Recipe : Type}.
Variable provider : nat → Reliability.Channel → Py.result (list Recipe).
Variable _get_fallback_recipes_async : list Recipe.

Abbreviation degrade :=
  (Reliability.generate_recipes provider _get_fallback_recipes_async).

(** The chain never raises; it makes at most three provider calls and
    what it returns is a provider answer or the static recipes. *)
Lemma generate_recipes_total calls :
  ∃ recipes made,
    degrade calls = (Py.Return recipes, calls ++ made) ∧
    (1 ≤ length made ≤ 3)%nat ∧
    (recipes = _get_fallback_recipes_async ∨
     provider (length calls) Reliability.AsyncHttp = Py.Return recipes ∨
     ∃ k, provider k Reliability.SyncThread = Py.Return recipes).
Proof.
  unfold Reliability.generate_recipes, Reliability._call_gemini_async,
    Reliability.try_except, Reliability._make_http_request,
    Reliability._call_gemini_sync_fallback, Reliability.provider_call,
    Reliability.ret.
  destruct (provider (length calls) Reliability.AsyncHttp) as [r|e] eqn:Ha.
  { exists r, [Reliability.AsyncHttp].
    split; [reflexivity|]. split; [cbn; lia|]. right. left. reflexivity. }
  assert (∀ calls' made',
            calls' = calls ++ made' → (1 ≤ length made' ≤ 2)%nat →
            ∃ recipes made,
              (match provider (length calls') Reliability.SyncThread with
               | Py.Return a => (Py.Return a, calls' ++ [Reliability.SyncThread])
               | Py.Raise _ =>
                   (Py.Return _get_fallback_recipes_async,
                    calls' ++ [Reliability.SyncThread])
               end) = (Py.Return recipes, calls ++ made) ∧
              (1 ≤ length made ≤ 3)%nat ∧
              (recipes = _get_fallback_recipes_async ∨
               Py.Raise e = Py.Return recipes ∨
               ∃ k, provider k Reliability.SyncThread = Py.Return recipes))
    as Hlast.
  { intros calls' made' -> Hlen.
    destruct (provider _ Reliability.SyncThread) as [r|e'] eqn:Hs;
      eexists _, (made' ++ [Reliability.SyncThread]);
      rewrite app_assoc, length_app; cbn; (split; [reflexivity|]);
      (split; [lia|]); eauto. }
  destruct e; try (apply (Hlast _ [Reliability.AsyncHttp]); [reflexivity | cbn; lia]).
  destruct (provider (length (calls ++ [Reliability.AsyncHttp]))
              Reliability.SyncThread) as [r|e'] eqn:Hs.
  { exists r, [Reliability.AsyncHttp; Reliability.SyncThread].
    rewrite <- app_assoc.
    split; [reflexivity|]. split; [cbn; lia|]. right. right. eauto. }
  apply (Hlast _ [Reliability.AsyncHttp; Reliability.SyncThread]);
    [rewrite <- app_assoc; reflexivity | cbn; lia].
Qed.

Lemma generate_recipes_all_down calls :
  (∀ k ch, Py.raised (provider k ch) = true) →
  fst (degrade calls) = Py.Return _get_fallback_recipes_async.
Proof.
  intros Hdown.
  destruct (generate_recipes_total calls)
    as (recipes & made & -> & _ & [->|[Hr|[k Hr]]]); [reflexivity | |].
  - specialize (Hdown (length calls) Reliability.AsyncHttp).
    rewrite Hr in Hdown. discriminate.
  - specialize (Hdown k Reliability.SyncThread). rewrite Hr in Hdown.
    discriminate.
Qed.

Lemma endpoint_success (recipes : list Recipe) ingredients :
  ∃ answer log,
    RecipesApi.generate_recipes (Py.Return recipes) ingredients
      = (Py.Return answer, log) ∧
    answer !! "recipes" = Some (Py.VRecipes recipes) ∧
    answer !! "status" = Some (Py.VStr "success") ∧
    (∀ key, key ≠ "recipes" → key ≠ "status" → answer !! key = None).
Proof.
  eexists _, _. split; [reflexivity|]. split; [apply lookup_insert_eq|].
  split; [rewrite lookup_insert_ne by done; apply lookup_insert_eq|].
  intros key H1 H2. rewrite !lookup_insert_ne by done. apply lookup_empty.
Qed.

(** What the chain returns once the HTTP call has raised [e]: the answer
    of the thread-pool retry; when the retry raises, after a time-out the
    answer of a second thread-pool call, and otherwise, or when that call
    raises too, the static recipes. *)
Lemma generate_recipes_after_failure calls e :
  provider (length calls) Reliability.AsyncHttp = Py.Raise e →
  fst (degrade calls)
  = Py.Return
      match provider (S (length calls)) Reliability.SyncThread with
      | Py.Return recipes => recipes
      | Py.Raise _ =>
          match e with
          | Py.TimeoutError =>
              match provider (S (S (length calls))) Reliability.SyncThread with
              | Py.Return recipes => recipes
              | Py.Raise _ => _get_fallback_recipes_async
              end
          | _ => _get_fallback_recipes_async
          end
      end.
Proof.
  intros Hhttp.
  unfold Reliability.generate_recipes, Reliability._call_gemini_async,
    Reliability.try_except, Reliability._make_http_request,
    Reliability._call_gemini_sync_fallback, Reliability.provider_call,
    Reliability.ret.
  rewrite Hhttp.
  assert (length (calls ++ [Reliability.AsyncHttp]) = S (length calls)) as Hone
    by (rewrite length_app; cbn; lia).
  assert (length ((calls ++ [Reliability.AsyncHttp]) ++ [Reliability.SyncThread])
          = S (S (length calls))) as Htwo
    by (rewrite !length_app; cbn; lia).
  destruct e; rewrite ?Hone;
    destruct (provider (S (length calls)) Reliability.SyncThread);
    rewrite ?Htwo; try reflexivity.
  destruct (provider (S (S (length calls))) Reliability.SyncThread); reflexivity.
Qed.

(** C1 (as the code has it). When the provider call fails, the
    graceful-degradation chain absorbs the failure: [generate_recipes]
    raises nothing and returns the recipes of the thread-pool retry
    whenever the retry answers; when the retry fails after a time-out of
    the HTTP call, a second thread-pool call is made and its recipes are
    returned when it answers; the static fallback recipes are returned
    only when every call made has failed.  The endpoint then answers with
    the recipes and the status "success" and with nothing else, so neither
    the error nor the source of the recipes is reported. *)
Theorem provider_failure_absorbed_silently calls ingredients :
  Py.raised (provider (length calls) Reliability.AsyncHttp) = true →
  let retry := provider (S (length calls)) Reliability.SyncThread in
  let second_retry := provider (S (S (length calls))) Reliability.SyncThread in
  ∃ recipes made answer log,
    degrade calls = (Py.Return recipes, calls ++ made) ∧
    (recipes = _get_fallback_recipes_async ∨
     ∃ k, provider k Reliability.SyncThread = Py.Return recipes) ∧
    ((∀ k ch, Py.raised (provider k ch) = true) →
     recipes = _get_fallback_recipes_async) ∧
    RecipesApi.generate_recipes (fst (degrade calls)) ingredients
      = (Py.Return answer, log) ∧
    answer !! "recipes" = Some (Py.VRecipes recipes) ∧
    answer !! "status" = Some (Py.VStr "success") ∧
    (∀ key, key ≠ "recipes" → key ≠ "status" → answer !! key = None) ∧
    (∀ answered, retry = Py.Return answered → recipes = answered) ∧
    (Py.raised retry = true →
     provider (length calls) Reliability.AsyncHttp ≠ Py.Raise Py.TimeoutError →
     recipes = _get_fallback_recipes_async) ∧
    (Py.raised retry = true →
     provider (length calls) Reliability.AsyncHttp = Py.Raise Py.TimeoutError →
     (∀ answered, second_retry = Py.Return answered → recipes = answered) ∧
     (Py.raised second_retry = true → recipes = _get_fallback_recipes_async)).
Proof.
  intros Hfail retry second_retry.
  destruct (generate_recipes_total calls) as (recipes & made & Hrun & _ & Hfrom).
  assert (recipes = _get_fallback_recipes_async ∨
          ∃ k, provider k Reliability.SyncThread = Py.Return recipes) as Hfrom'.
  { destruct Hfrom as [H|[H|H]]; [left; exact H | | right; exact H].
    rewrite H in Hfail. discriminate. }
  destruct (endpoint_success recipes ingredients)
    as (answer & log & Hanswer & Hrec & Hstatus & Hrest).
  exists recipes, made, answer, log. rewrite Hrun. cbn [fst].
  split; [reflexivity|]. split; [exact Hfrom'|].
  split.
  { intros Hdown. pose proof (generate_recipes_all_down calls Hdown) as H.
    rewrite Hrun in H. cbn in H. congruence. }
  split; [exact Hanswer|]. split; [exact Hrec|]. split; [exact Hstatus|].
  split; [exact Hrest|].
  destruct (provider (length calls) Reliability.AsyncHttp) as [r|e] eqn:Hhttp;
    [discriminate Hfail|].
  pose proof (generate_recipes_after_failure calls e Hhttp) as Hexact.
  rewrite Hrun in Hexact. cbn [fst] in Hexact.
  fold retry second_retry in Hexact. injection Hexact as ->.
  split; [|split].
  - intros answered ->. reflexivity.
  - intros Hretry Hother. destruct retry; [discriminate Hretry|].
    destruct e; first [reflexivity | contradiction].
  - intros Hretry [= ->]. destruct retry; [discriminate Hretry|].
    split; [intros answered ->; reflexivity|].
    intros Hsecond. destruct second_retry; [discriminate Hsecond | reflexivity].
Qed.

End DegradationFacts.

Lemma provider_failure_absorbed_silently_witness :
  ∃ answer log,
    RecipesApi.generate_recipes
      (fst (Reliability.generate_recipes Samples.slow_http Samples.pantry_pasta []))
      ["chicken"; "rice"]
    = (Py.Return answer, log) ∧
    answer !! "recipes" = Some (Py.VRecipes ["Soup"]) ∧
    answer !! "error" = None.
Proof.
  destruct (provider_failure_absorbed_silently Samples.slow_http
              Samples.pantry_pasta [] ["chicken"; "rice"] eq_refl)
    as (recipes & made & answer & log & _ & _ & _ & Hanswer & Hrec & _ & Hrest
        & Hretry & _).
  exists answer, log. rewrite (Hretry ["Soup"] eq_refl) in Hrec.
  split; [exact Hanswer|]. split; [exact Hrec|]. apply Hrest; discriminate.
Defined.

(** C1, the claim as worded fails.  With the provider unreachable the
    endpoint answers "success" with the static recipes and reports no
    error; and with the service of section 1, which catches time-outs
    only, a provider answering 503 surfaces as HTTP 500, a hard failure
    that is neither a validation nor a batch-size error. *)
Lemma fallback_answer_carries_no_error :
  (∃ answer log,
     RecipesApi.generate_recipes
       (fst (Reliability.generate_recipes Samples.unreachable
               Samples.pantry_pasta []))
       ["chicken"; "rice"]
     = (Py.Return answer, log) ∧
     answer !! "recipes" = Some (Py.VRecipes Samples.pantry_pasta) ∧
     answer !! "status" = Some (Py.VStr "success") ∧
     answer !! "error" = None ∧ answer !! "source" = None) ∧
  fst (RecipesApi.generate_recipes
         (GeminiService.generate_recipes Samples.five_entries Samples.titled
            Samples.any_recipe Samples.pantry_pasta Samples.pantry_pasta
            Samples.plain_text
            (GeminiService.Responded 503 (Py.Return "unavailable")))
         ["chicken"; "rice"])
  = Py.Raise (Py.HTTPException 500 "Generation failed").
Proof.
  split; [|reflexivity].
  eexists _, _. split; [reflexivity|]. repeat split; reflexivity.
Qed.

(** ** The circuit breaker *)

Section CircuitFacts.

Import CircuitBreaker.

Lemma state_set_state cb s : state (set_state cb s) = s.
Proof. reflexivity. Qed.

(** Every change of state made by one of the entry points is one of the
    four transitions. *)
Lemma step_transition cb ev :
  state (step cb ev) ≠ state cb → transition cb ev (step cb ev).
Proof.
  destruct ev as [now| |now]; cbn [step].
  - unfold before_call. destruct (state cb) eqn:Hs; cbn [snd]; try congruence.
    destruct (_should_attempt_reset now cb) eqn:Hr; cbn [snd]; [|congruence].
    intros _. apply open_to_half_open; [exact Hs | reflexivity |].
    unfold _should_attempt_reset in Hr. lia.
  - unfold _on_success. destruct (state cb) eqn:Hs; cbn [state]; try congruence.
    intros _. apply half_open_to_closed; [exact Hs | reflexivity].
  - unfold _on_failure. destruct (state cb) eqn:Hs; cbn [state]; try congruence.
    + destruct (failure_threshold cb <=? S (failure_count cb))%nat eqn:Hf;
        [|congruence].
      intros _.
      apply closed_to_open; [exact Hs | reflexivity | apply Nat.leb_le, Hf].
    + intros _. apply half_open_to_open; [exact Hs | reflexivity].
Qed.

Lemma run_snoc cb evs ev : run cb (evs ++ [ev]) = step (run cb evs) ev.
Proof. unfold run. apply foldl_snoc. Qed.

Lemma step_thresholds cb ev :
  failure_threshold (step cb ev) = failure_threshold cb ∧
  recovery_timeout (step cb ev) = recovery_timeout cb.
Proof.
  destruct ev as [now| |now]; cbn [step].
  - unfold before_call. destruct (state cb); try done.
    destruct (_should_attempt_reset now cb); done.
  - unfold _on_success. destruct (state cb); done.
  - unfold _on_failure. destruct (state cb); done.
Qed.

(** While the breaker is closed its counter is the number of failures
    since the last success: the threshold is on consecutive failures. *)
Lemma closed_counts_consecutive_failures F T history :
  state (run (__init__ F T) history) = CLOSED →
  failure_count (run (__init__ F T) history) = trailing_failures (rev history).
Proof.
  induction history as [|ev history IH] using rev_ind; [reflexivity|].
  rewrite run_snoc, rev_app_distr. cbn [rev app].
  set (cb := run (__init__ F T) history) in *.
  destruct ev as [now| |now]; cbn [step trailing_failures].
  - unfold before_call. destruct (state cb) eqn:Hs; cbn [snd].
    + intros _. apply IH. reflexivity.
    + destruct (_should_attempt_reset now cb); cbn [snd]; [discriminate|].
      congruence.
    + congruence.
  - unfold _on_success. destruct (state cb) eqn:Hs; [reflexivity | congruence |
      reflexivity].
  - unfold _on_failure. destruct (state cb) eqn:Hs; cbn [state failure_count].
    + intros _. rewrite IH by reflexivity. reflexivity.
    + congruence.
    + discriminate.
Qed.

(** The printed [call] is a call check followed by the success or failure
    notification; while the breaker is open and cooling down, the awaited
    function is not run and the state is left alone. *)
Lemma call_as_events {A} now (func : Py.result A) now' cb :
  snd (call now func now' cb)
  = match fst (before_call now cb) with
    | Py.Raise _ => cb
    | Py.Return _ =>
        step (step cb (BeforeCall now))
             (match func with
              | Py.Return _ => OnSuccess
              | Py.Raise _ => OnFailure now'
              end)
    end.
Proof.
  unfold call. cbn [step]. unfold before_call.
  destruct (state cb); try (destruct func; reflexivity).
  destruct (_should_attempt_reset now cb); destruct func; reflexivity.
Qed.

Lemma call_rejected_while_cooling {A} now (func : Py.result A) now' cb :
  state cb = OPEN → now - last_failure_time cb < recovery_timeout cb →
  call now func now' cb = (Py.Raise Py.CircuitOpen, cb).
Proof.
  intros Hopen Hcool. unfold call, before_call, _should_attempt_reset.
  rewrite Hopen.
  assert ((recovery_timeout cb <=? now - last_failure_time cb) = false) as ->
    by lia.
  reflexivity.
Qed.

(** C4. Whatever the sequence of [beforeCall], [onSuccess] and [onFailure]
    events, the state changes only along Closed to Open (on a failure that
    brings the run of consecutive failures to the threshold, 3 by default),
    Open to HalfOpen (on a call check once the cool-down has elapsed),
    HalfOpen to Closed (on a success) and HalfOpen to Open (on a failure);
    and each of these four does take place under its condition. *)
Theorem circuit_transitions_only_the_four :
  (∀ cb ev, state (step cb ev) ≠ state cb → transition cb ev (step cb ev)) ∧
  (∀ F T history ev,
     let cb := run (__init__ F T) history in
     state cb = CLOSED → state (step cb ev) = OPEN →
     ∃ now, ev = OnFailure now ∧
            (F ≤ S (trailing_failures (rev history)))%nat) ∧
  (∀ F T history now,
     let cb := run (__init__ F T) history in
     state cb = CLOSED →
     (F ≤ S (trailing_failures (rev history)))%nat →
     state (step cb (OnFailure now)) = OPEN) ∧
  (∀ cb now,
     state cb = OPEN →
     (state (step cb (BeforeCall now)) = HALF_OPEN ↔
      recovery_timeout cb ≤ now - last_failure_time cb)) ∧
  (∀ cb, state cb = HALF_OPEN → state (step cb OnSuccess) = CLOSED) ∧
  (∀ cb now, state cb = HALF_OPEN → state (step cb (OnFailure now)) = OPEN) ∧
  state default = CLOSED ∧ failure_threshold default = 3%nat ∧
  recovery_timeout default = 30.
Proof.
  split; [exact step_transition|].
  assert (∀ F T history, failure_threshold (run (__init__ F T) history) = F)
    as Hthreshold.
  { intros F T history. induction history as [|ev history IH] using rev_ind;
      [reflexivity|].
    rewrite run_snoc. rewrite (proj1 (step_thresholds _ _)). exact IH. }
  split; [|split; [|split; [|split; [|split]]]].
  - intros F T history ev cb Hclosed Hopen.
    assert (state (step cb ev) ≠ state cb) as Hchange by congruence.
    apply step_transition in Hchange.
    inversion Hchange as [now cb' _ _ Hf | | | ]; subst; try congruence.
    exists now. split; [reflexivity|].
    subst cb. rewrite Hthreshold in Hf.
    rewrite closed_counts_consecutive_failures in Hf by exact Hclosed.
    exact Hf.
  - intros F T history now cb Hclosed Hf. cbn [step]. unfold _on_failure.
    rewrite Hclosed. cbn [state].
    subst cb. rewrite Hthreshold.
    rewrite closed_counts_consecutive_failures by exact Hclosed.
    apply Nat.leb_le in Hf. rewrite Hf. reflexivity.
  - intros cb now Hopen. cbn [step]. unfold before_call. rewrite Hopen.
    unfold _should_attempt_reset.
    destruct (recovery_timeout cb <=? now - last_failure_time cb) eqn:Hr;
      cbn [snd].
    + split; [lia | reflexivity].
    + rewrite Hopen. split; [discriminate | lia].
  - intros cb Hhalf. cbn [step]. unfold _on_success. rewrite Hhalf. reflexivity.
  - intros cb now Hhalf. cbn [step]. unfold _on_failure. rewrite Hhalf.
    reflexivity.
  - repeat split; reflexivity.
Qed.

Lemma circuit_transitions_only_the_four_witness :
  transition (run default [OnFailure 1; OnFailure 2]) (OnFailure 3)
             (run default [OnFailure 1; OnFailure 2; OnFailure 3]) ∧
  state (run default [OnFailure 1; OnFailure 2; OnFailure 3; BeforeCall 20]) = OPEN ∧
  state (run default [OnFailure 1; OnFailure 2; OnFailure 3; BeforeCall 33]) = HALF_OPEN ∧
  state (run default [OnFailure 1; OnFailure 2; OnFailure 3; BeforeCall 33; OnSuccess])
    = CLOSED.
Proof.
  destruct circuit_transitions_only_the_four
    as (Honly & _ & Hopen & Hcool & Hclose & _).
  split; [|split; [|split]].
  - apply (Honly (run default [OnFailure 1; OnFailure 2]) (OnFailure 3)).
    discriminate.
  - reflexivity.
  - apply (Hcool (run default [OnFailure 1; OnFailure 2; OnFailure 3]) 33);
      [reflexivity | vm_compute; discriminate].
  - apply (Hclose (run default [OnFailure 1; OnFailure 2; OnFailure 3; BeforeCall 33])).
    reflexivity.
Defined.

End CircuitFacts.

(* ===================================================================== *)
(** * Further properties of the code *)
(* ===================================================================== *)

(** ** Notifications (App.js) *)

Section NotificationFacts.

Context {Id : Type} `{EqDecision Id}.
Import Notifications.

Implicit Types (n : Notification Id) (l prev : list (Notification Id)).

(** The list before the cap: an entry with the same message gives way. *)
Lemma replaced_messages n prev :
  NoDup (message <$> prev) →
  let new := match findIndex (λ m, String.eqb (message m) (message n)) prev with
             | Some i => delete i prev ++ [n]
             | None => prev ++ [n]
             end in
  NoDup (message <$> new) ∧ ∀ m, m ∈ new → m = n ∨ m ∈ prev.
Proof.
  induction prev as [|x rest IH]; intros Hnd.
  - cbn. split; [apply NoDup_singleton|]. intros m ->%list_elem_of_singleton. auto.
  - rewrite fmap_cons in Hnd. apply NoDup_cons in Hnd as [Hx Hrest].
    specialize (IH Hrest). cbn [findIndex].
    destruct (String.eqb (message x) (message n)) eqn:He.
    + apply String.eqb_eq in He. cbn. split.
      * rewrite fmap_app. apply NoDup_app. repeat split; [exact Hrest | |].
        -- intros m Hm ->%list_elem_of_singleton. congruence.
        -- apply NoDup_singleton.
      * intros m [Hm| ->%list_elem_of_singleton]%elem_of_app; [|auto].
        right. apply elem_of_cons. auto.
    + apply String.eqb_neq in He.
      destruct (findIndex _ rest) as [i|]; cbn in *;
        destruct IH as [IHnd IHin]; (split;
          [ apply NoDup_cons; split; [|exact IHnd];
            intros (m & Hm & Hin)%list_elem_of_fmap;
            destruct (IHin m Hin) as [->|Hin']; [congruence|];
            apply Hx, list_elem_of_fmap; eauto
          | intros m [->|Hm]%elem_of_cons;
            [right; apply elem_of_cons; auto|];
            destruct (IHin m Hm) as [->|Hin']; [auto|];
            right; apply elem_of_cons; auto ]).
Qed.

Lemma addNotification_ends_with n prev :
  ∃ front, addNotification n prev = front ++ [n] ∧
           ∀ m, m ∈ front → m ∈ prev.
Proof.
  unfold addNotification.
  destruct (findIndex _ prev) as [i|] eqn:Hf.
  - assert (∀ m, m ∈ delete i prev → m ∈ prev) as Hsub
      by (intros m; apply list_elem_of_delete_inv).
    destruct (5 <? length (delete i prev ++ [n]))%nat; [|eauto].
    unfold last_five. rewrite length_app. cbn [length].
    rewrite drop_app_le by lia. eexists. split; [reflexivity|].
    intros m Hm. apply Hsub.
    exact (sublist_subseteq _ _ (sublist_drop _ _) m Hm).
  - destruct (5 <? length (prev ++ [n]))%nat; [|eauto].
    unfold last_five. rewrite length_app. cbn [length].
    rewrite drop_app_le by lia. eexists. split; [reflexivity|].
    intros m Hm. exact (sublist_subseteq _ _ (sublist_drop _ _) m Hm).
Qed.

Lemma length_addNotification n prev : (length (addNotification n prev) ≤ 5)%nat.
Proof.
  unfold addNotification. cbv zeta.
  match goal with |- context [(5 <? length ?l)%nat] =>
    destruct (5 <? length l)%nat eqn:Hlen end.
  - unfold last_five. rewrite length_drop. apply Nat.ltb_lt in Hlen. lia.
  - apply Nat.ltb_ge in Hlen. exact Hlen.
Qed.

Lemma addNotification_messages n prev :
  NoDup (message <$> prev) → NoDup (message <$> addNotification n prev).
Proof.
  intros Hnd. destruct (replaced_messages n prev Hnd) as [Hnew _].
  unfold addNotification. cbv zeta in *.
  match goal with |- context [(5 <? length ?l)%nat] =>
    destruct (5 <? length l)%nat; [|exact Hnew] end.
  unfold last_five. rewrite fmap_drop.
  exact (sublist_NoDup _ _ Hnew (sublist_drop _ _)).
Qed.

(** X1. The page never shows more than five notifications nor two with
    the same message; the notification just added is the newest one, and
    what stands before it was on the page already. *)
Theorem notifications_capped_and_distinct :
  (∀ l, shown l → (length l ≤ 5)%nat ∧ NoDup (message <$> l)) ∧
  (∀ n l, shown l →
     ∃ front, addNotification n l = front ++ [n] ∧
              (length front ≤ 4)%nat ∧
              (∀ m, m ∈ front → m ∈ l ∧ message m ≠ message n)).
Proof.
  assert (∀ l, shown l → (length l ≤ 5)%nat ∧ NoDup (message <$> l)) as Hinv.
  { induction 1 as [|n l _ [_ IH]|i l _ [Hlen IH]|l _ _].
    - split; [cbn; lia | constructor].
    - split; [apply length_addNotification | apply addNotification_messages, IH].
    - unfold removeNotification. split.
      + etrans; [apply length_filter | exact Hlen].
      + refine (sublist_NoDup _ _ IH _).
        apply fmap_sublist, sublist_filter.
    - split; [cbn; lia | constructor]. }
  split; [exact Hinv|].
  intros n l Hl. destruct (Hinv l Hl) as [_ Hnd].
  destruct (addNotification_ends_with n l) as (front & Heq & Hfront).
  exists front. split; [exact Heq|].
  pose proof (length_addNotification n l) as Hlen.
  pose proof (addNotification_messages n l Hnd) as Hnd'.
  rewrite Heq in Hlen, Hnd'. rewrite length_app in Hlen. cbn in Hlen.
  split; [lia|]. intros m Hm. split; [auto|].
  rewrite fmap_app in Hnd'. apply NoDup_app in Hnd' as (_ & Hdisj & _).
  intros Heqm. apply (Hdisj (message m)).
  - apply list_elem_of_fmap. eauto.
  - rewrite Heqm. cbn. apply list_elem_of_singleton. reflexivity.
Qed.

End NotificationFacts.
(** ** The pagination bar *)

(** Case analysis on the disjunctions among the hypotheses. *)
Ltac split_ors :=
  repeat match goal with H : _ ∨ _ |- _ => destruct H end.

Section PaginationFacts.

Import Pagination.

Lemma elem_of_pages_from first last n :
  Page n ∈ pages_from first last ↔ first ≤ n ≤ last.
Proof.
  unfold pages_from. rewrite list_elem_of_fmap. split.
  - intros (m & [= ->] & Hm%elem_of_seqZ). lia.
  - intros Hn. exists n. split; [reflexivity|]. apply elem_of_seqZ. lia.
Qed.

Lemma ellipsis_not_in_pages first last : Ellipsis ∉ pages_from first last.
Proof. unfold pages_from. intros (m & Hm & _)%list_elem_of_fmap. discriminate. Qed.

Lemma page_numbers_pages_from first last :
  omap page_of (pages_from first last) = seqZ first (last - first + 1).
Proof.
  unfold pages_from. induction (seqZ first (last - first + 1)) as [|x l IH];
    [reflexivity|]. cbn. rewrite IH. reflexivity.
Qed.

Lemma seqZ_increasing m len : StronglySorted Z.lt (seqZ m len).
Proof.
  destruct (decide (len ≤ 0)) as [Hle|Hgt]; [rewrite seqZ_nil by lia; constructor|].
  rewrite <- (Z2Nat.id len) by lia. generalize (Z.to_nat len) as k. clear.
  intros k. revert m. induction k as [|k IH]; intros m.
  - rewrite seqZ_nil by lia. constructor.
  - rewrite seqZ_cons by lia. constructor.
    + replace (Z.pred (Z.of_nat (S k))) with (Z.of_nat k) by lia. apply IH.
    + apply Forall_seqZ. lia.
Qed.

(** The entries in the many-pages case, written out. *)
Lemma getPageNumbers_many totalPages currentPage :
  5 < totalPages →
  getPageNumbers totalPages currentPage =
    [Page 1]
    ++ (if 2 <? Z.max 2 (currentPage - 1) then [Ellipsis] else [])
    ++ pages_from (Z.max 2 (currentPage - 1))
                  (Z.min (totalPages - 1) (currentPage + 1))
    ++ (if Z.min (totalPages - 1) (currentPage + 1) <? totalPages - 1
        then [Ellipsis] else [])
    ++ [Page totalPages].
Proof.
  intros Hmany. unfold getPageNumbers, maxPagesToShow.
  assert ((totalPages <=? 5) = false) as -> by lia.
  assert ((1 <? totalPages) = true) as -> by lia.
  reflexivity.
Qed.

(** X2. Whatever the current page is, also one out of range, every page
    button of the bar shows a page between 1 and the number of pages, the
    numbers increase strictly from left to right, and there are at most
    seven entries. *)
Theorem page_buttons_in_range_and_increasing totalPages currentPage :
  (∀ n, Page n ∈ getPageNumbers totalPages currentPage → 1 ≤ n ≤ totalPages) ∧
  StronglySorted Z.lt (omap page_of (getPageNumbers totalPages currentPage)) ∧
  (length (getPageNumbers totalPages currentPage) ≤ 7)%nat.
Proof.
  destruct (decide (totalPages ≤ 5)) as [Hfew|Hmany].
  - unfold getPageNumbers, maxPagesToShow.
    assert ((totalPages <=? 5) = true) as -> by lia.
    split; [|split].
    + intros n Hn%elem_of_pages_from. exact Hn.
    + rewrite page_numbers_pages_from. apply seqZ_increasing.
    + unfold pages_from. rewrite length_fmap, length_seqZ. lia.
  - rewrite getPageNumbers_many by lia.
    set (s := Z.max 2 (currentPage - 1)).
    set (e := Z.min (totalPages - 1) (currentPage + 1)).
    split; [|split].
    + intros n Hn. rewrite !elem_of_app in Hn.
      destruct Hn as [Hn|[Hn|[Hn|[Hn|Hn]]]].
      * apply list_elem_of_singleton in Hn as [= ->]. lia.
      * destruct (2 <? s); [apply list_elem_of_singleton in Hn|inversion Hn];
          discriminate.
      * apply elem_of_pages_from in Hn. lia.
      * destruct (e <? totalPages - 1);
          [apply list_elem_of_singleton in Hn|inversion Hn]; discriminate.
      * apply list_elem_of_singleton in Hn as [= ->]. lia.
    + assert (omap page_of
                ([Page 1] ++ (if 2 <? s then [Ellipsis] else [])
                 ++ pages_from s e
                 ++ (if e <? totalPages - 1 then [Ellipsis] else [])
                 ++ [Page totalPages])
              = 1 :: seqZ s (e - s + 1) ++ [totalPages]) as ->.
      { rewrite !omap_app, page_numbers_pages_from.
        destruct (2 <? s), (e <? totalPages - 1); reflexivity. }
      constructor.
      * apply StronglySorted_app_2; [| apply seqZ_increasing | repeat constructor].
        intros x y Hx%elem_of_seqZ ->%list_elem_of_singleton. lia.
      * apply Forall_app. split; [apply Forall_seqZ; lia | repeat constructor; lia].
    + rewrite !length_app. unfold pages_from.
      rewrite length_fmap, length_seqZ.
      destruct (2 <? s), (e <? totalPages - 1); cbn [length]; lia.
Qed.

(** X3. For a current page within range the bar always offers the first
    page, the last page, the current page and its neighbours; an ellipsis
    appears exactly on the side where pages are left out. *)
Theorem page_buttons_cover_current totalPages currentPage :
  1 ≤ currentPage ≤ totalPages →
  let bar := getPageNumbers totalPages currentPage in
  Page 1 ∈ bar ∧ Page totalPages ∈ bar ∧ Page currentPage ∈ bar ∧
  (1 ≤ currentPage - 1 → Page (currentPage - 1) ∈ bar) ∧
  (currentPage + 1 ≤ totalPages → Page (currentPage + 1) ∈ bar) ∧
  (∀ n, 1 ≤ n ≤ totalPages → Page n ∉ bar → Ellipsis ∈ bar) ∧
  (Ellipsis ∈ bar → ∃ n, 1 ≤ n ≤ totalPages ∧ Page n ∉ bar).
Proof.
  intros Hcur bar. subst bar.
  destruct (decide (totalPages ≤ 5)) as [Hfew|Hmany].
  - unfold getPageNumbers, maxPagesToShow.
    assert ((totalPages <=? 5) = true) as -> by lia.
    rewrite !elem_of_pages_from.
    repeat split; try lia.
    + intros n Hn Hout. exfalso. apply Hout, elem_of_pages_from. lia.
    + intros Hell. exfalso. exact (ellipsis_not_in_pages _ _ Hell).
  - rewrite getPageNumbers_many by lia.
    set (s := Z.max 2 (currentPage - 1)).
    set (e := Z.min (totalPages - 1) (currentPage + 1)).
    assert (∀ n, Page n ∈ [Page 1] ++ (if 2 <? s then [Ellipsis] else [])
                   ++ pages_from s e
                   ++ (if e <? totalPages - 1 then [Ellipsis] else [])
                   ++ [Page totalPages]
                 ↔ n = 1 ∨ s ≤ n ≤ e ∨ n = totalPages) as Hpage.
    { clearbody s e. clear Hcur Hmany. intros n.
      rewrite !elem_of_app, elem_of_pages_from, !list_elem_of_singleton.
      destruct (2 <? s), (e <? totalPages - 1);
        rewrite ?list_elem_of_singleton, ?elem_of_nil;
        (split; intros H; split_ors; subst; try discriminate;
         try contradiction;
         try match goal with E : Page _ = Page _ |- _ => injection E as -> end;
         auto 10). }
    assert (Ellipsis ∈ [Page 1] ++ (if 2 <? s then [Ellipsis] else [])
              ++ pages_from s e
              ++ (if e <? totalPages - 1 then [Ellipsis] else [])
              ++ [Page totalPages]
            ↔ 2 < s ∨ e < totalPages - 1) as Hell.
    { clearbody s e. clear Hcur Hmany Hpage.
      rewrite !elem_of_app, !list_elem_of_singleton.
      pose proof (ellipsis_not_in_pages s e) as Hno.
      destruct (2 <? s) eqn:Hs, (e <? totalPages - 1) eqn:He;
        rewrite ?list_elem_of_singleton, ?elem_of_nil;
        (split; intros H; split_ors; try discriminate; try contradiction;
         try lia; auto 10). }
    rewrite !Hpage, Hell. repeat split; try lia.
    + intros n Hn Hout. rewrite Hpage in Hout. try apply Hell. lia.
    + intros [Hs|He].
      * exists 2. rewrite Hpage. lia.
      * exists (totalPages - 1). rewrite Hpage. lia.
Qed.

End PaginationFacts.
(** ** The ingredient editor: suggestions and removal *)

Lemma commonIngredients_clean :
  Forall (λ s, Js.trim s = s ∧ s ≠ "") Suggestions.commonIngredients.
Proof.
  unfold Suggestions.commonIngredients.
  repeat (constructor; [split; [reflexivity | discriminate]|]). constructor.
Qed.

Lemma commonIngredients_distinct : NoDup Suggestions.commonIngredients.
Proof.
  unfold Suggestions.commonIngredients.
  repeat (apply NoDup_cons; split;
    [intros Hin%list_elem_of_In; simpl in Hin;
     repeat (destruct Hin as [Hin|Hin]; [discriminate|]); exact Hin|]).
  apply NoDup_nil_2.
Qed.

Lemma displayed_elem ingredients value st s :
  s ∈ Suggestions.displayed (Suggestions.handleInputChange ingredients value st) →
  (1 < String.length value)%nat ∧
  s ∈ Suggestions.commonIngredients ∧
  Suggestions.suggested ingredients value s = true.
Proof.
  unfold Suggestions.handleInputChange, Suggestions.displayed.
  destruct (1 <? String.length value)%nat eqn:Hlen;
    cbn [Suggestions.showSuggestions Suggestions.suggestions]; [|inversion 1].
  intros Hs. apply Nat.ltb_lt in Hlen. split; [exact Hlen|].
  apply (sublist_subseteq _ _ (sublist_take _ _)) in Hs.
  apply list_elem_of_filter in Hs as [Hs Hin]. auto.
Qed.

(** X4. The suggestions shown after typing are at most five distinct common
    ingredients, none of them in the list yet, each containing the typed
    text (of two characters or more) letter case aside; clicking one always
    appends exactly that ingredient to the list. *)
Theorem suggestions_are_fresh_matches ingredients value st :
  let shown :=
    Suggestions.displayed (Suggestions.handleInputChange ingredients value st) in
  (length shown ≤ 5)%nat ∧ NoDup shown ∧
  ∀ s, s ∈ shown →
    (1 < String.length value)%nat ∧
    s ∈ Suggestions.commonIngredients ∧ (s ∉ ingredients) ∧
    (∃ pre post, Js.toLowerCase s = pre +:+ Js.toLowerCase value +:+ post) ∧
    Suggestions.handleSuggestionClick ingredients s = ingredients ++ [s].
Proof.
  intros shown. split; [|split].
  - subst shown. unfold Suggestions.handleInputChange, Suggestions.displayed.
    destruct (1 <? String.length value)%nat;
      cbn [Suggestions.showSuggestions Suggestions.suggestions length]; [|lia].
    rewrite length_take. lia.
  - subst shown. unfold Suggestions.handleInputChange, Suggestions.displayed.
    destruct (1 <? String.length value)%nat;
      cbn [Suggestions.showSuggestions Suggestions.suggestions]; [|constructor].
    refine (sublist_NoDup _ _ commonIngredients_distinct _).
    etrans; [apply sublist_take | apply sublist_filter].
  - intros s Hs. destruct (displayed_elem _ _ _ _ Hs) as (Hlen & Hcommon & Hsug).
    unfold Suggestions.suggested in Hsug.
    apply andb_true_iff in Hsug as [Hinc Hnew].
    apply negb_true_iff in Hnew.
    assert (s ∉ ingredients) as Hout.
    { intros Hin%ingredient_includes_elem_of. congruence. }
    pose proof commonIngredients_clean as Hclean.
    rewrite Forall_forall in Hclean. destruct (Hclean s Hcommon) as [Htrim Hne].
    repeat split; try assumption.
    + apply includes_spec, Hinc.
    + unfold Suggestions.handleSuggestionClick.
      rewrite addIngredient_fresh; rewrite Htrim; auto.
Qed.

(** X5. Removing an ingredient leaves no copy of it, keeps every other
    entry in place, and undoes the addition of a new ingredient. *)
Theorem removeIngredient_removes_exactly l x :
  (x ∉ IngredientInput.removeIngredient l x) ∧
  (∀ y, y ≠ x → (y ∈ IngredientInput.removeIngredient l x ↔ y ∈ l)) ∧
  IngredientInput.removeIngredient l x `sublist_of` l ∧
  (x ∉ l → IngredientInput.removeIngredient l x = l) ∧
  (∀ typed, Js.trim typed ∉ l → Js.trim typed ≠ "" →
     IngredientInput.removeIngredient
       (IngredientInput.addIngredient l typed) (Js.trim typed) = l).
Proof.
  unfold IngredientInput.removeIngredient.
  assert (∀ k : list string, x ∉ k → filter (λ item, item ≠ x) k = k) as Hid.
  { intros k. induction k as [|y k IH]; [reflexivity|].
    intros Hout. apply not_elem_of_cons in Hout as [Hne Hout].
    rewrite filter_cons_True by auto. rewrite IH by exact Hout. reflexivity. }
  split; [|split; [|split; [|split]]].
  - intros [Hne _]%list_elem_of_filter. congruence.
  - intros y Hy. rewrite list_elem_of_filter. tauto.
  - apply sublist_filter.
  - apply Hid.
  - intros typed Hout Hne. rewrite (addIngredient_fresh _ _ Hout Hne).
    rewrite filter_app, filter_cons_False, filter_nil, app_nil_r by auto.
    clear Hid. induction l as [|y k IH]; [reflexivity|].
    apply not_elem_of_cons in Hout as [Hne' Hout].
    rewrite filter_cons_True by auto. rewrite IH by exact Hout. reflexivity.
Qed.

(** ** The diet check boxes *)

Section DietaryFacts.

Import RecipeGenerator DietaryToggle.

Lemma option_eqb_eq a b : option_eqb a b = true ↔ a = b.
Proof. destruct a, b; cbn; split; intros H; try reflexivity; discriminate. Qed.

Lemma option_eqb_neq a b : option_eqb a b = false ↔ a ≠ b.
Proof.
  rewrite <- option_eqb_eq. destruct (option_eqb a b); split; congruence.
Qed.

Lemma includes_elem_of prev o : includes prev o = true ↔ o ∈ prev.
Proof.
  unfold includes. rewrite existsb_exists. split.
  - intros (x & Hin%list_elem_of_In & ->%option_eqb_eq). exact Hin.
  - intros Hin. exists o.
    split; [apply list_elem_of_In, Hin | apply option_eqb_eq; reflexivity].
Qed.

Lemma toggle_cases o prev :
  (o ∈ prev ∧
   handleDietaryChange o prev = filter (λ item, option_eqb item o = false) prev) ∨
  ((o ∉ prev) ∧ handleDietaryChange o prev = prev ++ [o]).
Proof.
  unfold handleDietaryChange. destruct (includes prev o) eqn:Hin.
  - left. split; [apply includes_elem_of, Hin | reflexivity].
  - right. split; [|reflexivity]. intros Hin'%includes_elem_of. congruence.
Qed.

Lemma filter_other_id o (prev : list DietaryOption) :
  o ∉ prev → filter (λ item, option_eqb item o = false) prev = prev.
Proof.
  induction prev as [|x l IH]; [reflexivity|].
  intros [Hne Hout]%not_elem_of_cons.
  rewrite filter_cons_True by (apply option_eqb_neq; congruence).
  rewrite IH by exact Hout. reflexivity.
Qed.

(** X6. Clicking a check box flips that option and no other; a selection
    never holds an option twice; ticking a box and unticking it again
    restores the selection, the generated request with it. *)
Theorem diet_toggle_flips_one_option :
  (∀ o prev, o ∈ handleDietaryChange o prev ↔ o ∉ prev) ∧
  (∀ o prev o', o' ≠ o → (o' ∈ handleDietaryChange o prev ↔ o' ∈ prev)) ∧
  (∀ l, selectable l → NoDup l) ∧
  (∀ o prev, o ∉ prev →
     handleDietaryChange o (handleDietaryChange o prev) = prev).
Proof.
  split; [|split; [|split]].
  - intros o prev. destruct (toggle_cases o prev) as [[Hin ->]|[Hout ->]].
    + rewrite list_elem_of_filter, option_eqb_neq. tauto.
    + rewrite elem_of_app, list_elem_of_singleton. tauto.
  - intros o prev o' Hne. destruct (toggle_cases o prev) as [[Hin ->]|[Hout ->]].
    + rewrite list_elem_of_filter, option_eqb_neq. tauto.
    + rewrite elem_of_app, list_elem_of_singleton. tauto.
  - induction 1 as [|o l _ IH]; [constructor|].
    destruct (toggle_cases o l) as [[Hin ->]|[Hout ->]].
    + apply NoDup_filter, IH.
    + apply NoDup_app. repeat split; [exact IH | | apply NoDup_singleton].
      intros x Hx ->%list_elem_of_singleton. contradiction.
  - intros o prev Hout.
    destruct (toggle_cases o prev) as [[Hin _]|[_ ->]]; [contradiction|].
    destruct (toggle_cases o (prev ++ [o])) as [[_ ->]|[Hout' _]].
    + rewrite filter_app, filter_cons_False, filter_nil, app_nil_r.
      * apply filter_other_id, Hout.
      * intros H. apply option_eqb_neq in H. congruence.
    + exfalso. apply Hout', elem_of_app. right. apply list_elem_of_singleton.
      reflexivity.
Qed.

End DietaryFacts.
(** ** What [cleanRecipeData] sends, and [createRecipe] *)

Section CleaningFacts.

Import Api ApiClient.

Lemma or_else_null_idem v : or_else (or_else v JNull) JNull = or_else v JNull.
Proof. unfold or_else. destruct (truthy v) eqn:Hv; [rewrite Hv|]; reflexivity. Qed.

Lemma trimmed_or_idem v :
  trimmed_or JNull (trimmed_or JNull v) = trimmed_or JNull v.
Proof. destruct v; cbn; try reflexivity. rewrite trim_idem. reflexivity. Qed.

Lemma length_omap_le {A} (l : list (option A)) :
  (length (omap id l) ≤ length l)%nat.
Proof. induction l as [|[a|] l IH]; cbn; lia. Qed.

Lemma clean_ingredients_elem items i :
  i ∈ clean_ingredients (JArr items) ↔
  ∃ v, v ∈ items ∧ clean_ingredient v = Some i ∧ ing_name i ≠ "".
Proof.
  unfold clean_ingredients. rewrite list_elem_of_omap. split.
  - intros (o & [Hkeep (v & -> & Hv)%list_elem_of_fmap]%list_elem_of_filter & Ho).
    cbn in Ho. exists v. split; [exact Hv|]. split; [exact Ho|].
    rewrite Ho in Hkeep. cbn in Hkeep. apply negb_true_iff, String.eqb_neq in Hkeep.
    exact Hkeep.
  - intros (v & Hv & Hc & Hne). exists (Some i). split; [|reflexivity].
    apply list_elem_of_filter. split.
    + cbn. apply negb_true_iff, String.eqb_neq, Hne.
    + rewrite <- Hc. apply list_elem_of_fmap. eauto.
Qed.

Lemma clean_ingredient_settled v i :
  clean_ingredient v = Some i → ing_name i ≠ "" → settled i.
Proof.
  unfold settled.
  destruct v as [| | | |s|items|props]; try discriminate; intros [= <-];
    cbn [ing_name ing_amount ing_unit ing_notes get]; intros Hne;
    (split; [exact Hne|]).
  - rewrite trim_idem. auto.
  - repeat split.
  - split; [destruct (assoc "name" props); try reflexivity; apply trim_idem|].
    split; [apply or_else_null_idem|]. split; apply trimmed_or_idem.
Qed.

Lemma clean_ingredient_value i :
  settled i → clean_ingredient (ingredient_value i) = Some i.
Proof.
  intros (Hne & Htrim & Hamount & Hunit & Hnotes). destruct i as [name a u n].
  cbn in *. rewrite Htrim, Hamount, Hunit, Hnotes. reflexivity.
Qed.

Lemma clean_ingredients_values l :
  Forall settled l → clean_ingredients (JArr (ingredient_value <$> l)) = l.
Proof.
  unfold clean_ingredients. induction 1 as [|i l Hi _ IH]; [reflexivity|].
  cbn [fmap list_fmap]. rewrite (clean_ingredient_value i Hi).
  rewrite filter_cons_True.
  - cbn [omap list_omap id]. f_equal. exact IH.
  - cbn. apply negb_true_iff, String.eqb_neq, Hi.
Qed.

Lemma clean_ingredients_settled v : Forall settled (clean_ingredients v).
Proof.
  destruct v as [| | | | |items|]; try (cbn; constructor).
  apply Forall_forall. intros i (v & _ & Hc & Hne)%clean_ingredients_elem.
  exact (clean_ingredient_settled v i Hc Hne).
Qed.

Lemma clean_instructions_idem v :
  clean_instructions (clean_instructions v) = clean_instructions v.
Proof.
  unfold clean_instructions, or_else.
  destruct v as [| |[]|n|s|items|props]; cbn; try reflexivity.
  - destruct (n =? 0) eqn:Hn; cbn; [reflexivity|]. rewrite Hn. reflexivity.
  - destruct (String.eqb s ""); reflexivity.
Qed.

Lemma clean_difficulty_idem d name :
  clean_difficulty d = inr name → clean_difficulty (JStr name) = inr name.
Proof.
  intros Hname%clean_difficulty_valid. unfold validDifficulties in Hname.
  apply list_elem_of_In in Hname. simpl in Hname.
  destruct Hname as [<-|[<-|[<-|[<-|[]]]]]; reflexivity.
Qed.

(** X7. The ingredients [cleanRecipeData] sends all carry a non-empty,
    trimmed name; they are the cleaned entries of the recipe's array, in
    the order of the array, without those that have no usable name; a
    string entry with a name turns into that name without amount, unit or
    notes; a recipe whose ingredients are not an array is sent with
    none. *)
Theorem cleaned_ingredients_are_named recipe cleaned :
  cleanRecipeData recipe = inr cleaned →
  Forall (λ i, ing_name i ≠ "" ∧ Js.trim (ing_name i) = ing_name i)
         (c_ingredients cleaned) ∧
  (∀ items, ingredients recipe = JArr items →
     c_ingredients cleaned `sublist_of` omap clean_ingredient items ∧
     (length (c_ingredients cleaned) ≤ length items)%nat ∧
     (∀ i, i ∈ c_ingredients cleaned ↔
           ∃ v, v ∈ items ∧ clean_ingredient v = Some i ∧ ing_name i ≠ "") ∧
     (∀ s, JStr s ∈ items → Js.trim s ≠ "" →
        {| ing_name := Js.trim s; ing_amount := JNull; ing_unit := JNull;
           ing_notes := JNull |} ∈ c_ingredients cleaned)) ∧
  ((∀ items, ingredients recipe ≠ JArr items) → c_ingredients cleaned = []).
Proof.
  unfold cleanRecipeData.
  destruct (clean_difficulty _) as [e|name]; [discriminate|].
  intros [= <-]. cbn [c_ingredients]. split; [|split].
  - eapply Forall_impl; [apply clean_ingredients_settled|].
    intros i (Hne & Htrim & _). auto.
  - intros items ->. split; [|split; [|split]].
    + unfold clean_ingredients. induction items as [|v items IH]; [constructor|].
      cbn [fmap list_fmap omap list_omap].
      destruct (clean_ingredient v) as [i|] eqn:Hv.
      * destruct (decide (keep_ingredient (Some i) = true)) as [Hk|Hk].
        -- rewrite filter_cons_True by exact Hk. cbn [omap list_omap id].
           apply sublist_skip, IH.
        -- rewrite filter_cons_False by exact Hk. apply sublist_cons, IH.
      * rewrite filter_cons_False by (cbn; discriminate). exact IH.
    + unfold clean_ingredients.
      rewrite <- (length_fmap clean_ingredient items).
      etrans; [apply length_omap_le | apply length_filter].
    + intros i. apply clean_ingredients_elem.
    + intros s Hs Hne. apply clean_ingredients_elem. exists (JStr s).
      split; [exact Hs|]. split; [reflexivity | exact Hne].
  - intros Hno. destruct (ingredients recipe) as [| | | | |items|]; try reflexivity.
    destruct (Hno items eq_refl).
Qed.

(** X8. Cleaning is idempotent: the object [cleanRecipeData] returns,
    cleaned once more, comes back as it is. *)
Theorem cleanRecipeData_idempotent recipe cleaned :
  cleanRecipeData recipe = inr cleaned →
  cleanRecipeData (as_recipe cleaned) = inr cleaned.
Proof.
  unfold cleanRecipeData at 1.
  destruct (clean_difficulty (difficulty recipe)) as [|name] eqn:Hd; [discriminate|].
  intros [= <-]. unfold cleanRecipeData, as_recipe, cleaned_value.
  cbn [get assoc String.eqb Ascii.eqb Bool.eqb title description instructions
       ingredients prep_time cook_time servings difficulty
       c_title c_description c_instructions c_ingredients c_prep_time
       c_cook_time c_servings c_difficulty].
  rewrite (clean_difficulty_idem _ _ Hd).
  rewrite trimmed_or_idem, clean_instructions_idem, !or_else_null_idem.
  rewrite (clean_ingredients_values _ (clean_ingredients_settled _)).
  destruct (title recipe); try reflexivity. rewrite trim_idem. reflexivity.
Qed.

(** X9. [createRecipe] sends nothing, and does not wait or retry, when the
    cleaning throws (a truthy difficulty that is not a string); otherwise
    it posts the cleaned recipe to [/api/recipes] between one and four
    times, a time-out or a status of 500 or more being retried after one
    second, and settles as the last request did. *)
Theorem createRecipe_posts_cleaned server recipeData n :
  match cleanRecipeData recipeData with
  | inl _ =>
      truthy (difficulty recipeData) = true ∧
      (∀ s, difficulty recipeData ≠ JStr s) ∧
      ∃ e, createRecipe server recipeData n = (Rejected e, n)
  | inr cleanedData =>
      ∃ r, (r ≤ 3)%nat ∧
        let '(outcome, n') := createRecipe server recipeData n in
        sent n' = sent n ++ replicate (S r) ("/api/recipes", cleaned_value cleanedData) ∧
        slept n' = slept n + 1000 * Z.of_nat r ∧
        outcome = server (length (sent n) + r)%nat ∧
        (∀ j, (j < r)%nat → will_retry (server (length (sent n) + j)%nat) = true) ∧
        (r = 3%nat ∨ will_retry outcome = false)
  end.
Proof.
  unfold createRecipe.
  destruct (cleanRecipeData recipeData) as [e|cleanedData] eqn:Hclean.
  - destruct (proj1 (cleanRecipeData_throws recipeData) (ex_intro _ e Hclean))
      as [Ht Hs].
    split; [exact Ht|]. split; [exact Hs|]. eexists. reflexivity.
  - apply (retryRequest_post server "/api/recipes" (cleaned_value cleanedData)
             MAX_RETRIES n).
Qed.

End CleaningFacts.
(** ** The response interceptor and the health check *)

Section InterceptorFacts.

Import Api ApiClient.

Variable to_string : JsValue → string.

Lemma truthy_or_else_text v s : s ≠ "" → truthy (or_else v (JStr s)) = true.
Proof.
  intros Hs. unfold or_else. destruct (truthy v) eqn:Hv; [exact Hv|].
  cbn. apply negb_true_iff, String.eqb_neq, Hs.
Qed.

Lemma response_message_truthy msg r m :
  response_message to_string msg r = inr m → truthy m = true.
Proof.
  unfold response_message.
  assert (∀ dflt, dflt ≠ "" →
            match prop (data r) "detail" with
            | inl e => inl e
            | inr detail => inr (or_else detail (JStr dflt))
            end = inr m → truthy m = true) as Hdetail.
  { intros dflt Hd. destruct (prop (data r) "detail"); [discriminate|].
    intros [= <-]. apply truthy_or_else_text, Hd. }
  destruct (status r =? 400); [apply Hdetail; discriminate|].
  destruct (status r =? 422).
  { destruct (prop (data r) "detail") as [|detail] eqn:Hp; [discriminate|].
    destruct detail as [| | | | |errs|];
      try (intros [= <-]; apply truthy_or_else_text; discriminate).
    destruct (validation_lines to_string errs); [discriminate|].
    intros [= <-]. reflexivity. }
  destruct (status r =? 500); [intros [= <-]; reflexivity|].
  destruct (status r =? 503); [intros [= <-]; reflexivity|].
  apply Hdetail. discriminate.
Qed.

(** X10. Whenever the interceptor rejects with the error, it has set a
    truthy [userMessage], which is therefore what the page shows in place
    of the raw message; the code and the response, hence the retry
    decision of [retryRequest], are left as they were. *)
Theorem interceptor_sets_user_message error error' :
  on_rejected to_string error = inr error' →
  truthy (userMessage error') = true ∧
  shown_message error' = userMessage error' ∧
  view error' = view error ∧ message error' = message error ∧
  retryable (view error') = retryable (view error).
Proof.
  unfold on_rejected. intros H.
  assert (∃ m, error' = with_message error m ∧ truthy m = true) as (m & -> & Hm).
  { destruct (response error) as [r|].
    - destruct (response_message to_string (message error) r) as [|m] eqn:Hr;
        [discriminate|].
      injection H as <-. exists m. split; [reflexivity|].
      exact (response_message_truthy _ _ _ Hr).
    - destruct (request error); injection H as <-; eexists; split; reflexivity. }
  split; [exact Hm|]. split; [|repeat split].
  unfold shown_message, or_else. cbn [userMessage with_message]. rewrite Hm.
  reflexivity.
Qed.

(** X11. For a status other than 422 the interceptor itself throws exactly
    when the response has a body that is [null] or [undefined] and the
    status is neither 500 nor 503; the error then reaching the caller is
    that [TypeError], not the error of the request. *)
Theorem interceptor_throws_on_missing_body error :
  (∀ r, response error = Some r → status r ≠ 422) →
  ((∃ e, on_rejected to_string error = inl e) ↔
   ∃ r, response error = Some r ∧ status r ≠ 500 ∧ status r ≠ 503 ∧
        (data r = JNull ∨ data r = JUndefined)).
Proof.
  intros H422. unfold on_rejected. destruct (response error) as [r|].
  2:{ split; [|intros (r & [=] & _)]. destruct (request error); intros [e [=]]. }
  specialize (H422 r eq_refl). unfold response_message.
  assert ((status r =? 422) = false) as -> by lia.
  assert (∀ dflt,
            (∃ e, match
                    match prop (data r) "detail" with
                    | inl e => inl e
                    | inr detail => inr (or_else detail (JStr dflt))
                    end
                  with
                  | inl e => inl e
                  | inr m => inr (with_message error m)
                  end = inl e) ↔ (data r = JNull ∨ data r = JUndefined))
    as Hdetail.
  { intros dflt. unfold prop. destruct (data r); cbn;
      first [ solve [split; [intros [e [=]] | intros [[=]|[=]]]]
            | solve [split; eauto] ]. }
  destruct (status r =? 400) eqn:H400.
  { rewrite Hdetail. split.
    - intros Hd. exists r. repeat split; try lia. exact Hd.
    - intros (r' & [= <-] & _ & _ & Hd). exact Hd. }
  destruct (status r =? 500) eqn:H500.
  { split; [intros [e [=]]|]. intros (r' & [= <-] & Hne & _). lia. }
  destruct (status r =? 503) eqn:H503.
  { split; [intros [e [=]]|]. intros (r' & [= <-] & _ & Hne & _). lia. }
  rewrite Hdetail. split.
  - intros Hd. exists r. repeat split; try lia. exact Hd.
  - intros (r' & [= <-] & _ & _ & Hd). exact Hd.
Qed.

End InterceptorFacts.

Section HealthFacts.

Import Api ApiClient.

(** X12. The health check never rejects: it sends one GET to [/health],
    does not wait, and answers true exactly when that request resolved
    with status 200.  [ensureConnection] resolves in that case only, and
    its rejection is one [retryRequest] would not retry. *)
Theorem health_check_asks_once server n :
  ∃ healthy,
    checkBackendHealth server n
      = (Resolved healthy,
         {| sent := sent n ++ [("/health", JUndefined)]; slept := slept n |}) ∧
    (healthy = true ↔
     ∃ r, server (length (sent n)) = Resolved r ∧ status r = 200) ∧
    snd (ensureConnection server n) = snd (checkBackendHealth server n) ∧
    (fst (ensureConnection server n) = Resolved tt ↔ healthy = true) ∧
    will_retry (fst (ensureConnection server n)) = false ∧
    ∀ retries,
      retryRequest (ensureConnection server) retries n = ensureConnection server n.
Proof.
  unfold ensureConnection, checkBackendHealth, get_request.
  destruct (server (length (sent n))) as [r|e] eqn:Hs.
  - exists (status r =? 200). split; [reflexivity|]. split.
    { split; [intros H; exists r; split; [reflexivity | lia]|].
      intros (r' & [= <-] & H). lia. }
    destruct (status r =? 200) eqn:H200; cbn [fst snd];
      (split; [reflexivity|]); (split; [split; congruence|]);
      (split; [reflexivity|]); intros [|retries]; cbn [retryRequest];
      rewrite Hs, ?H200; reflexivity.
  - exists false. split; [reflexivity|]. split.
    { split; [discriminate | intros (r' & [=] & _)]. }
    cbn [fst snd]. split; [reflexivity|]. split; [split; congruence|].
    split; [reflexivity|]. intros [|retries]; cbn [retryRequest]; rewrite Hs;
      reflexivity.
Qed.

End HealthFacts.
(** ** The conflict report and the diet tables *)

Section ConflictFacts.

Import RecipeGenerator.

Lemma forbidden_tables d :
  forbidden_table d ≠ [] → d ∈ [Vegetarian; Vegan; GlutenFree; DairyFree].
Proof.
  destruct d; intros H; try (exfalso; apply H; reflexivity);
    repeat constructor.
Qed.

Lemma check_diet_cases ingredients conflicts d :
  let found := filter (λ i, conflicting (forbidden_table d) i = true) ingredients in
  check_diet ingredients conflicts d
  = if decide (found = []) then conflicts
    else conflicts ++ [{| diet := d; ingredients := found |}].
Proof.
  unfold check_diet, forbidden_table.
  destruct (dietaryRestrictions !! _) as [tbl|]; cbn [default].
  - destruct (filter _ ingredients) as [|i l]; reflexivity.
  - rewrite no_table_no_conflict. reflexivity.
Qed.

Lemma foldl_check_diet ingredients acc prefs :
  foldl (check_diet ingredients) acc prefs
  = acc ++ foldl (check_diet ingredients) [] prefs.
Proof.
  revert acc. induction prefs as [|d prefs IH]; intros acc; cbn [foldl].
  - rewrite app_nil_r. reflexivity.
  - rewrite IH, (IH (check_diet ingredients [] d)), !check_diet_cases.
    destruct (decide (_ = [])); [reflexivity|].
    rewrite app_nil_l, app_assoc. reflexivity.
Qed.

Lemma flagged_conflicting prefs ingredients d i :
  flagged (checkDietaryConflicts prefs ingredients) d i ↔
  d ∈ prefs ∧ i ∈ ingredients ∧ conflicting (forbidden_table d) i = true.
Proof.
  unfold flagged, checkDietaryConflicts. split.
  - intros (c & Hc & <- & Hi). apply checkDietaryConflicts_elem in Hc.
    destruct Hc as [Hc|(Hd & Hf & _)]; [inversion Hc|].
    rewrite Hf in Hi. apply list_elem_of_filter in Hi as [Hi Hin]. auto.
  - intros (Hd & Hin & Hf).
    assert (i ∈ filter (λ i, conflicting (forbidden_table d) i = true) ingredients)
      as Hi by (apply list_elem_of_filter; auto).
    exists {| diet := d;
              ingredients :=
                filter (λ i, conflicting (forbidden_table d) i = true) ingredients |}.
    split; [|split; [reflexivity | exact Hi]].
    apply checkDietaryConflicts_elem. right. cbn.
    split; [exact Hd|]. split; [reflexivity|].
    intros Hnil. rewrite Hnil in Hi. inversion Hi.
Qed.

(** X13. The conflict report lists the selected diets that have a
    conflicting ingredient, in the order they were selected and once per
    selection; each entry names a non-empty part of the ingredient list, in
    the order of that list; only the four diets with a table can ever
    appear, so Keto, Low-Carb, High-Protein and Paleo never conflict. *)
Theorem conflict_report_follows_selection prefs ingredients :
  let report := checkDietaryConflicts prefs ingredients in
  diet <$> report
    = filter (λ d, filter (λ i, conflicting (forbidden_table d) i = true)
                          ingredients ≠ []) prefs ∧
  (∀ c, c ∈ report →
     RecipeGenerator.ingredients c ≠ [] ∧
     RecipeGenerator.ingredients c `sublist_of` ingredients ∧
     diet c ∈ [Vegetarian; Vegan; GlutenFree; DairyFree]) ∧
  (NoDup prefs → NoDup (diet <$> report)) ∧
  (length report ≤ length prefs)%nat.
Proof.
  intros report.
  assert (diet <$> report
          = filter (λ d, filter (λ i, conflicting (forbidden_table d) i = true)
                                ingredients ≠ []) prefs) as Hdiets.
  { subst report. unfold checkDietaryConflicts.
    induction prefs as [|d prefs IH]; [reflexivity|].
    cbn [foldl]. rewrite foldl_check_diet, fmap_app, IH, check_diet_cases.
    destruct (decide (_ = [])) as [He|Hne].
    - rewrite filter_cons_False by (intros H; apply H; exact He). reflexivity.
    - rewrite filter_cons_True by exact Hne. reflexivity. }
  split; [exact Hdiets|]. split; [|split].
  - intros c Hc. subst report. unfold checkDietaryConflicts in Hc.
    apply checkDietaryConflicts_elem in Hc as [Hc|(Hd & Hf & Hne)]; [inversion Hc|].
    split; [exact Hne|]. split; [rewrite Hf; apply sublist_filter|].
    apply forbidden_tables. intros Hnil. rewrite Hnil in Hf.
    rewrite no_table_no_conflict in Hf. contradiction.
  - intros Hnd. rewrite Hdiets. apply NoDup_filter, Hnd.
  - rewrite <- (length_fmap diet report), Hdiets. apply length_filter.
Qed.

Lemma substring_of_substring s f g :
  (∃ pre post, f = pre +:+ g +:+ post) →
  (∃ pre post, s = pre +:+ f +:+ post) →
  ∃ pre post, s = pre +:+ g +:+ post.
Proof.
  intros (p1 & q1 & ->) (p2 & q2 & ->).
  exists (p2 +:+ p1), (q1 +:+ q2). rewrite !append_assoc. reflexivity.
Qed.

(** X14. Whatever is reported under Vegetarian or under Dairy-Free is
    reported under Vegan as well when Vegan is selected: every entry of
    those two tables is in the Vegan table or, for "ice cream", contains
    one. *)
Theorem vegan_reports_what_vegetarian_and_dairy_free_do prefs ingredients d i :
  d = Vegetarian ∨ d = DairyFree →
  Vegan ∈ prefs →
  flagged (checkDietaryConflicts prefs ingredients) d i →
  flagged (checkDietaryConflicts prefs ingredients) Vegan i.
Proof.
  intros Hd Hvegan (_ & Hin & Hi)%flagged_conflicting.
  apply flagged_conflicting. split; [exact Hvegan|]. split; [exact Hin|].
  apply conflicting_spec in Hi as (f & Hf & Hsub). apply conflicting_spec.
  assert (∃ g, g ∈ forbidden_table Vegan ∧
               ∃ pre post, Js.toLowerCase f = pre +:+ Js.toLowerCase g +:+ post)
    as (g & Hg & Hfg).
  { assert (∀ g, g ∈ forbidden_table Vegan →
              ∃ g', g' ∈ forbidden_table Vegan ∧
                ∃ pre post, Js.toLowerCase g = pre +:+ Js.toLowerCase g' +:+ post)
      as Hself.
    { intros g Hg. exists g. split; [exact Hg|]. exists "", "".
      rewrite append_nil_l, append_nil_r. reflexivity. }
    destruct Hd as [-> | ->]; apply list_elem_of_In in Hf; vm_compute in Hf.
    - repeat (destruct Hf as [<-|Hf];
              [apply Hself; vm_compute; apply list_elem_of_In; simpl; tauto|]).
      destruct Hf.
    - repeat (destruct Hf as [<-|Hf];
              [first [ apply Hself; vm_compute; apply list_elem_of_In; simpl; tauto
                     | exists "cream"; split;
                       [vm_compute; apply list_elem_of_In; simpl; tauto
                       | exists "ice ", ""; reflexivity] ]|]).
      destruct Hf. }
  exists g. split; [exact Hg|]. exact (substring_of_substring _ _ _ Hfg Hsub).
Qed.

End ConflictFacts.
(** ** The recipe card on a list of steps *)

Section CardFacts.

Import Api RecipeCard.

Lemma strings_of_strings steps : strings_of (JStr <$> steps) = inr steps.
Proof.
  induction steps as [|s l IH]; [reflexivity|].
  cbn [fmap list_fmap strings_of]. change (list_fmap _ _ JStr l) with (JStr <$> l).
  rewrite IH. reflexivity.
Qed.

Lemma strings_of_throws items :
  (∃ e, strings_of items = inl e) ↔ ∃ x, x ∈ items ∧ ∀ s, x ≠ JStr s.
Proof.
  induction items as [|v items IH].
  - split; [intros [e [=]] | intros (x & Hx & _); inversion Hx].
  - destruct v as [| | | |s| |];
      try (split; [intros _; eexists; split; [apply list_elem_of_here | discriminate]
                  | intros _; eexists; reflexivity]).
    cbn [strings_of]. destruct (strings_of items) as [e|l].
    + split; [intros _|eauto].
      destruct (proj1 IH (ex_intro _ e eq_refl)) as (x & Hx & Hs).
      exists x. split; [apply list_elem_of_further, Hx | exact Hs].
    + split; [intros [e [=]]|]. intros (x & Hx & Hs).
      apply elem_of_cons in Hx as [->|Hx]; [destruct (Hs s eq_refl)|].
      destruct (proj2 IH (ex_intro _ x (conj Hx Hs))) as [e [=]].
Qed.

Lemma strip_numbering_plain step : plain_step step → strip_numbering step = step.
Proof.
  intros (Hne & _ & Hinert). unfold strip_numbering, numbering_len.
  destruct step as [|c r]; [done|]. cbn [all_units] in Hinert.
  apply andb_true_iff in Hinert as [Hc _]. unfold inert in Hc.
  apply andb_true_iff in Hc as [Hd _]. apply negb_true_iff in Hd.
  cbn [span_len]. rewrite Hd. reflexivity.
Qed.

Lemma strip_numbering_numbered k step :
  plain_step step → strip_numbering (numbered k step) = step.
Proof.
  intros Hstep. destruct (plain_step_head step Hstep) as (c & r & -> & Hc & _).
  unfold numbered. set (digits := NilZero.string_of_uint (Nat.to_uint (S k))).
  destruct (decimal_digits (Nat.to_uint (S k))) as [Hdigits Hne].
  fold digits in Hdigits, Hne.
  assert (span_len is_digit (digits +:+ ". " +:+ String c r) = String.length digits)
    as Hspan.
  { rewrite (span_len_app _ _ _ Hdigits).
    change (". " +:+ String c r) with (String dot (String " " (String c r))).
    cbn [span_len]. change (is_digit dot) with false. cbn iota. lia. }
  unfold strip_numbering, numbering_len. cbv zeta. rewrite Hspan.
  destruct (String.length digits) as [|n] eqn:Hlen; [destruct digits; done|].
  rewrite <- Hlen, drop_units_app.
  change (". " +:+ String c r) with (String dot (String " " (String c r))).
  cbv beta iota. rewrite Ascii.eqb_refl. cbn [span_len].
  change (Js.is_white_space " ") with true. cbv beta iota. rewrite Hc.
  replace (String.length digits + 1 + 1)%nat
    with (String.length (digits +:+ String dot " "))
    by (rewrite length_append; cbn; lia).
  change (String dot (String " " (String c r)))
    with (String dot " " +:+ String c r).
  rewrite <- append_assoc. apply drop_units_app.
Qed.

Lemma format_array steps (mark : nat → string → string) :
  (∀ i step, steps !! i = Some step →
     Js.trim (strip_numbering (mark i step)) = step) →
  formatInstructions (JArr (JStr <$> imap mark steps))
  = inr (join_lines (imap numbered steps)).
Proof.
  intros Hmark. unfold formatInstructions. cbn [truthy negb].
  rewrite strings_of_strings. f_equal. f_equal.
  apply list_eq. intros i. rewrite !list_lookup_imap.
  destruct (steps !! i) as [step|] eqn:Hi; [|reflexivity].
  cbn. rewrite (Hmark i step Hi). reflexivity.
Qed.

(** X15. On a list of steps the card replaces whatever numbering the steps
    carry by their position: plain steps, numbered in any way or not at
    all, come out as the lines "1. ...", "2. ...", and so does the same
    text written on one numbered line. *)
Theorem card_renumbers_listed_steps steps (number : nat → nat) :
  Forall plain_step steps →
  formatInstructions (JArr (JStr <$> steps))
    = inr (join_lines (imap numbered steps)) ∧
  formatInstructions (JArr (JStr <$> imap (λ i step, numbered (number i) step) steps))
    = inr (join_lines (imap numbered steps)) ∧
  formatInstructions (JStr (numbered_text 0 steps))
    = formatInstructions (JArr (JStr <$> steps)).
Proof.
  intros Hsteps.
  assert (∀ i step, steps !! i = Some step → plain_step step) as Hplain.
  { intros i step Hi. rewrite Forall_forall in Hsteps.
    apply Hsteps. eapply list_elem_of_lookup_2, Hi. }
  assert (formatInstructions (JArr (JStr <$> steps))
          = inr (join_lines (imap numbered steps))) as Hlist.
  { rewrite <- (format_array steps (λ _ step, step)).
    - do 3 f_equal. apply list_eq. intros i. rewrite list_lookup_imap.
      destruct (steps !! i); reflexivity.
    - intros i step Hi. rewrite (strip_numbering_plain _ (Hplain i step Hi)).
      apply (Hplain i step Hi). }
  split; [exact Hlist|]. split.
  - apply format_array. intros i step Hi.
    rewrite (strip_numbering_numbered _ _ (Hplain i step Hi)).
    apply (Hplain i step Hi).
  - rewrite Hlist. apply formatInstructions_numbered_text, Hsteps.
Qed.

(** X16. The card throws exactly on a list holding an entry that is not a
    string; anything that is neither a list nor a string is shown as the
    empty text.  Instructions that [cleanRecipeData] made from a string are
    therefore always displayed. *)
Theorem card_throws_on_non_string_steps :
  (∀ v, (∃ e, formatInstructions v = inl e) ↔
        ∃ items x, v = JArr items ∧ x ∈ items ∧ ∀ s, x ≠ JStr s) ∧
  (∀ v, (∀ items, v ≠ JArr items) → (∀ s, v ≠ JStr s) →
        formatInstructions v = inr "") ∧
  (∀ recipe cleaned s,
     cleanRecipeData recipe = inr cleaned → instructions recipe = JStr s →
     ∃ text, formatInstructions (c_instructions cleaned) = inr text).
Proof.
  split; [|split].
  - intros v. unfold formatInstructions.
    destruct v as [| |b|n|s|items|props]; cbn [truthy negb];
      try destruct b; try destruct (n =? 0); try destruct (String.eqb s "");
      cbn [negb];
      try solve [split; [intros [e [=]] | intros (items' & x & [=] & _)]].
    destruct (strings_of items) as [err|steps] eqn:Hs.
    + split; [intros _ | eauto].
      destruct (proj1 (strings_of_throws items) (ex_intro _ err Hs)) as (x & Hx & Hn).
      exists items, x. auto.
    + split; [intros [e [=]]|]. intros (items' & x & [= <-] & Hx & Hn).
      destruct (proj2 (strings_of_throws items) (ex_intro _ x (conj Hx Hn)))
        as [e He].
      congruence.
  - intros v Harr Hstr. unfold formatInstructions.
    destruct v as [| |b|n|s|items|props]; cbn [truthy negb];
      try destruct b; try destruct (n =? 0); cbn [negb]; try reflexivity.
    + destruct (Hstr s eq_refl).
    + destruct (Harr items eq_refl).
  - intros recipe cleaned s [_ Hi]%cleanRecipeData_inv Hs.
    rewrite Hi, Hs, clean_instructions_string. unfold formatInstructions.
    cbn [truthy negb]. rewrite strings_of_strings. eauto.
Qed.

End CardFacts.
(** ** The Python service, continued *)

Section ParserFacts.

Context {Recipe RecipeData Payload : Type}.
Variable recipe_entries : string → Py.result (list RecipeData).
Variable _create_recipe_from_ai_data : RecipeData → Py.result Recipe.
Variable _validate_recipe : Recipe → bool.
Variable _get_fallback_recipes : list Recipe.
Variable _get_fallback_recipes_async : list Recipe.
Variable response_text : Payload → Py.result string.

Abbreviation collect :=
  (GeminiService.collect _create_recipe_from_ai_data _validate_recipe).
Abbreviation parse :=
  (GeminiService._parse_response recipe_entries _create_recipe_from_ai_data
     _validate_recipe _get_fallback_recipes).
Abbreviation call_gemini :=
  (GeminiService._call_gemini_async recipe_entries _create_recipe_from_ai_data
     _validate_recipe _get_fallback_recipes response_text).
Abbreviation generate :=
  (GeminiService.generate_recipes recipe_entries _create_recipe_from_ai_data
     _validate_recipe _get_fallback_recipes _get_fallback_recipes_async
     response_text).

Lemma collect_created entries created recipes :
  Forall2 (λ d r, _create_recipe_from_ai_data d = Py.Return r) entries created →
  collect entries recipes
  = Py.Return (recipes ++ filter (λ r, _validate_recipe r = true) created).
Proof.
  intros Hall. revert recipes.
  induction Hall as [|d r entries created Hd _ IH]; intros recipes.
  - cbn. rewrite app_nil_r. reflexivity.
  - cbn [GeminiService.collect]. rewrite Hd, IH.
    destruct (_validate_recipe r) eqn:Hv.
    + rewrite filter_cons_True by exact Hv. rewrite <- app_assoc. reflexivity.
    + rewrite filter_cons_False by congruence. reflexivity.
Qed.

Lemma collect_raises entries d recipes :
  d ∈ entries → Py.raised (_create_recipe_from_ai_data d) = true →
  ∃ e, collect entries recipes = Py.Raise e.
Proof.
  intros Hin Hd. revert recipes.
  induction entries as [|d' entries IH]; intros recipes; [inversion Hin|].
  cbn [GeminiService.collect].
  destruct (_create_recipe_from_ai_data d') as [r|e] eqn:Hd'; [|eauto].
  apply elem_of_cons in Hin as [->|Hin]; [|apply IH, Hin].
  rewrite Hd' in Hd. discriminate.
Qed.

(** X17. When every entry of a decoded response can be turned into a
    recipe, the parser returns the first three of those that validate, in
    the order of the response; entries that do not validate are skipped
    without notice.  One entry that cannot be turned into a recipe discards
    the others too: the static recipes are returned instead. *)
Theorem parser_keeps_first_three_valid text entries :
  recipe_entries text = Py.Return entries →
  (∀ created,
     Forall2 (λ d r, _create_recipe_from_ai_data d = Py.Return r) entries created →
     parse text = take 3 (filter (λ r, _validate_recipe r = true) created)) ∧
  (∀ d, d ∈ entries → Py.raised (_create_recipe_from_ai_data d) = true →
        parse text = _get_fallback_recipes).
Proof.
  intros Htext. unfold GeminiService._parse_response. rewrite Htext. split.
  - intros created Hall. rewrite (collect_created _ _ [] Hall). reflexivity.
  - intros d Hin Hd. destruct (collect_raises entries d [] Hin Hd) as [e ->].
    reflexivity.
Qed.

(** X18. The generation endpoint answers HTTP 500 exactly when the
    provider call ended with an exception other than a time-out, a status
    other than 200 included; a time-out is answered with the static
    recipes and "success".  Every request queues one log entry, marked
    successful exactly when recipes were answered. *)
Theorem endpoint_fails_on_all_but_timeouts http ingredients :
  let answer := fst (RecipesApi.generate_recipes (generate http) ingredients) in
  let log := snd (RecipesApi.generate_recipes (generate http) ingredients) in
  (answer = Py.Raise (Py.HTTPException 500 "Generation failed") ↔
   ∃ e, call_gemini http = Py.Raise e ∧ e ≠ Py.TimeoutError) ∧
  (Py.raised answer = true →
   answer = Py.Raise (Py.HTTPException 500 "Generation failed")) ∧
  (call_gemini http = Py.Raise Py.TimeoutError →
   ∃ body, answer = Py.Return body ∧
           body !! "recipes" = Some (Py.VRecipes _get_fallback_recipes_async) ∧
           body !! "status" = Some (Py.VStr "success")) ∧
  (∀ status json, http = GeminiService.Responded status json → status ≠ 200 →
     answer = Py.Raise (Py.HTTPException 500 "Generation failed")) ∧
  ∃ entry, log = [entry] ∧
           RecipesApi.log_ingredients entry = ingredients ∧
           RecipesApi.log_success entry = negb (Py.raised answer).
Proof.
  intros answer log. subst answer log.
  unfold GeminiService.generate_recipes.
  split; [|split; [|split; [|split]]].
  - destruct (call_gemini http) as [rs|e] eqn:Hc.
    + cbn. split; [discriminate | intros (e & [=] & _)].
    + destruct e; cbn;
        try (split; [intros _; eexists; split; [reflexivity | discriminate]
                    | reflexivity]).
      split; [discriminate|]. intros (e & [= <-] & Hne). contradiction.
  - destruct (call_gemini http) as [rs|e]; [discriminate|].
    destruct e; cbn; try reflexivity. discriminate.
  - intros ->. cbn. eexists. split; [reflexivity|].
    split; [apply lookup_insert_eq|].
    rewrite lookup_insert_ne by done. apply lookup_insert_eq.
  - intros status json -> Hs. cbn [GeminiService._call_gemini_async].
    assert ((status =? 200) = false) as -> by lia. reflexivity.
  - destruct (call_gemini http) as [rs|e]; [eexists; repeat split|].
    destruct e; eexists; repeat split.
Qed.

(** X19. A batch of at most five requests is always answered, never with
    an error, once all its tasks have completed: the answer holds one
    recipe set per request, [total_recipes] is the number of recipes in
    these sets taken together, and [concurrent_processing] is true. *)
Theorem batch_total_counts_recipes gemini completion requests :
  (length requests ≤ 5)%nat →
  completion ≡ₚ seq 0 (length requests) →
  ∃ answer sets,
    fst (RecipesApi.generate_recipes_batch recipe_entries
           _create_recipe_from_ai_data _validate_recipe _get_fallback_recipes
           _get_fallback_recipes_async response_text gemini completion requests)
      = Some (Py.Return answer) ∧
    answer !! "recipe_sets" = Some (Py.VRecipeSets sets) ∧
    length sets = length requests ∧
    answer !! "total_recipes" = Some (Py.VInt (Z.of_nat (length (concat sets)))) ∧
    answer !! "concurrent_processing" = Some (Py.VBool true).
Proof.
  intros Hlen Hperm. unfold RecipesApi.generate_recipes_batch.
  assert ((5 <? length requests)%nat = false) as -> by (apply Nat.ltb_ge; lia).
  rewrite rebuild_requests,
    (generate_multiple_recipes_complete _ _ _ _ _ _ gemini completion requests Hperm).
  cbn [fmap option_fmap option_map fst].
  set (sets := imap _ requests).
  assert (∀ l : list (list Recipe),
            RecipesApi.total l = Z.of_nat (length (concat l))) as Htotal.
  { induction l as [|set l IH]; [reflexivity|].
    cbn [RecipesApi.total foldr concat]. rewrite length_app.
    unfold RecipesApi.total in IH. rewrite IH. lia. }
  eexists _, sets. split; [reflexivity|]. split; [apply lookup_insert_eq|].
  split; [apply length_imap|].
  split; [rewrite lookup_insert_ne by done; rewrite lookup_insert_eq, Htotal;
          reflexivity|].
  rewrite !lookup_insert_ne by done. apply lookup_insert_eq.
Qed.

End ParserFacts.

Section ChainFacts.

Context {Recipe : Type}.
Variable provider : nat → Reliability.Channel → Py.result (list Recipe).
Variable _get_fallback_recipes_async : list Recipe.

Import Reliability.

(** X20. The graceful-degradation chain reaches the provider once over
    HTTP and then at most twice through the thread pool: once when the HTTP
    call answered or failed otherwise than by a time-out, and a second time
    when the HTTP call timed out and the thread-pool call made for it
    failed as well.  It returns the first answer it gets, the static
    recipes when every call made has failed. *)
Theorem degradation_call_pattern calls :
  let n := length calls in
  let last_resort outcome recipes :=
    outcome = Py.Return recipes ∨
    (Py.raised outcome = true ∧ recipes = _get_fallback_recipes_async) in
  ∃ recipes made,
    generate_recipes provider _get_fallback_recipes_async calls
      = (Py.Return recipes, calls ++ made) ∧
    ((made = [AsyncHttp] ∧ provider n AsyncHttp = Py.Return recipes) ∨
     (made = [AsyncHttp; SyncThread] ∧
      Py.raised (provider n AsyncHttp) = true ∧
      provider n AsyncHttp ≠ Py.Raise Py.TimeoutError ∧
      last_resort (provider (S n) SyncThread) recipes) ∨
     (made = [AsyncHttp; SyncThread] ∧
      provider n AsyncHttp = Py.Raise Py.TimeoutError ∧
      provider (S n) SyncThread = Py.Return recipes) ∨
     (made = [AsyncHttp; SyncThread; SyncThread] ∧
      provider n AsyncHttp = Py.Raise Py.TimeoutError ∧
      Py.raised (provider (S n) SyncThread) = true ∧
      last_resort (provider (S (S n)) SyncThread) recipes)).
Proof.
  intros n last_resort.
  unfold generate_recipes, _call_gemini_async, try_except, _make_http_request,
    _call_gemini_sync_fallback, provider_call, ret.
  fold n.
  assert (length (calls ++ [AsyncHttp]) = S n) as Hn1
    by (rewrite length_app; cbn; lia).
  assert (length ((calls ++ [AsyncHttp]) ++ [SyncThread]) = S (S n)) as Hn2
    by (rewrite !length_app; cbn; lia).
  destruct (provider n AsyncHttp) as [r|e] eqn:Ha.
  { exists r, [AsyncHttp]. split; [reflexivity|]. left. auto. }
  destruct e;
    try (rewrite Hn1;
         destruct (provider (S n) SyncThread) as [r|e'] eqn:Hs;
         [ exists r, [AsyncHttp; SyncThread]
         | exists _get_fallback_recipes_async, [AsyncHttp; SyncThread] ];
         (split; [rewrite <- app_assoc; reflexivity|]);
         right; left; (split; [reflexivity|]); (split; [reflexivity|]);
         (split; [discriminate|]); subst last_resort; cbn; auto).
  rewrite Hn1. destruct (provider (S n) SyncThread) as [r|e'] eqn:Hs.
  { exists r, [AsyncHttp; SyncThread]. split; [rewrite <- app_assoc; reflexivity|].
    right. right. left. auto. }
  rewrite Hn2. destruct (provider (S (S n)) SyncThread) as [r|e''] eqn:Hs2;
    [ exists r, [AsyncHttp; SyncThread; SyncThread]
    | exists _get_fallback_recipes_async, [AsyncHttp; SyncThread; SyncThread] ];
    (split; [rewrite <- !app_assoc; reflexivity|]);
    right; right; right; (split; [reflexivity|]); (split; [reflexivity|]);
    (split; [reflexivity|]); subst last_resort; cbn; auto.
Qed.

End ChainFacts.
(** ** The meal planner *)

Section PlannerFacts.

Import Api MealPlanner.

Lemma set_prop_fresh {A} key (v : A) props :
  key ∉ fst <$> props → set_prop key v props = props ++ [(key, v)].
Proof.
  induction props as [|[k x] rest IH]; [reflexivity|].
  cbn [fmap list_fmap fst set_prop]. intros [Hne Hout]%not_elem_of_cons.
  destruct (String.eqb k key) eqn:Hk.
  - apply String.eqb_eq in Hk. congruence.
  - rewrite IH by exact Hout. reflexivity.
Qed.

Lemma lookup_prop_at {A} key (x : A) l1 l2 :
  key ∉ fst <$> l1 → lookup_prop key (l1 ++ (key, x) :: l2) = Some x.
Proof.
  induction l1 as [|[k y] l1 IH]; cbn [fmap list_fmap fst app lookup_prop].
  - rewrite String.eqb_refl. reflexivity.
  - intros [Hne Hout]%not_elem_of_cons.
    destruct (String.eqb k key) eqn:Hk; [|apply IH, Hout].
    apply String.eqb_eq in Hk. congruence.
Qed.

Lemma set_prop_at {A} key (x v : A) l1 l2 :
  key ∉ fst <$> l1 →
  set_prop key v (l1 ++ (key, x) :: l2) = l1 ++ (key, v) :: l2.
Proof.
  induction l1 as [|[k y] l1 IH]; cbn [fmap list_fmap fst app set_prop].
  - rewrite String.eqb_refl. reflexivity.
  - intros [Hne Hout]%not_elem_of_cons.
    destruct (String.eqb k key) eqn:Hk.
    + apply String.eqb_eq in Hk. congruence.
    + rewrite IH by exact Hout. reflexivity.
Qed.

Lemma lookup_prop_key {A} key (props : list (string * A)) :
  key ∈ fst <$> props →
  ∃ l1 x l2, props = l1 ++ (key, x) :: l2 ∧ key ∉ fst <$> l1.
Proof.
  induction props as [|[k y] rest IH]; cbn [fmap list_fmap fst]; [inversion 1|].
  intros Hin. destruct (decide (k = key)) as [->|Hne].
  - exists [], y, rest. split; [reflexivity|]. cbn. apply not_elem_of_nil.
  - apply elem_of_cons in Hin as [Heq|Hin]; [congruence|].
    destruct (IH Hin) as (l1 & x & l2 & -> & Hout).
    exists ((k, y) :: l1), x, l2. split; [reflexivity|].
    cbn [fmap list_fmap fst]. apply not_elem_of_cons. auto.
Qed.

Lemma days_distinct : NoDup days.
Proof.
  unfold days.
  repeat (apply NoDup_cons; split;
    [intros Hin%list_elem_of_In; simpl in Hin;
     repeat (destruct Hin as [Hin|Hin]; [discriminate|]); exact Hin|]).
  apply NoDup_nil_2.
Qed.

Lemma emptyPlan_well_formed recipes_prop : well_formed recipes_prop emptyPlan.
Proof.
  split; [reflexivity|]. unfold emptyPlan, days, mealTimes.
  repeat constructor; cbn; discriminate.
Qed.

(** Writing a slot of a well-formed plan keeps it well formed. *)
Lemma set_slot_well_formed recipes_prop day mealTime slot plan :
  day ∈ days → mealTime ∈ mealTimes →
  (∀ recipe, slot = Some recipe → recipe ∈ recipes_prop) →
  well_formed recipes_prop plan →
  well_formed recipes_prop
    (set_prop day (set_prop mealTime slot (default [] (lookup_prop day plan))) plan).
Proof.
  intros Hday Hmeal Hslot [Hkeys Hdays].
  rewrite <- Hkeys in Hday.
  destruct (lookup_prop_key day plan Hday) as (l1 & meals & l2 & -> & Hout).
  rewrite (lookup_prop_at _ _ _ _ Hout), (set_prop_at _ _ _ _ _ Hout).
  cbn [default from_option id].
  rewrite Forall_app, Forall_cons in Hdays.
  destruct Hdays as (H1 & [Hm Hs] & H2). cbn [snd] in Hm, Hs.
  split.
  - rewrite <- Hkeys, !fmap_app. reflexivity.
  - rewrite Forall_app, Forall_cons. split; [exact H1|]. split; [|exact H2].
    cbn [snd]. rewrite <- Hm in Hmeal.
    destruct (lookup_prop_key mealTime meals Hmeal) as (m1 & old & m2 & -> & Hout').
    rewrite (set_prop_at _ _ _ _ _ Hout'). split.
    + rewrite <- Hm, !fmap_app. reflexivity.
    + rewrite Forall_app, Forall_cons in Hs. destruct Hs as (Hs1 & _ & Hs2).
      rewrite Forall_app, Forall_cons. auto.
Qed.

Lemma planned_well_formed recipes_prop plan :
  planned recipes_prop plan → well_formed recipes_prop plan.
Proof.
  induction 1 as [|day mealTime recipe prev Hday Hmeal Hrecipe _ IH
                  |day mealTime prev Hday Hmeal _ IH].
  - apply emptyPlan_well_formed.
  - apply set_slot_well_formed; try assumption. intros r [= <-]. exact Hrecipe.
  - apply set_slot_well_formed; try assumption. discriminate.
Qed.

(** *** Saving: the recipes of the plan, day by day *)

Lemma plan_recipes_entries (plan : MealPlan) :
  NoDup (fst <$> plan) →
  plan_recipes plan
  = omap (λ entry, if (0 <? length (dayRecipes (snd entry)))%nat
                   then Some (fst entry, dayRecipes (snd entry)) else None)
         plan.
Proof.
  intros Hnd. unfold plan_recipes.
  set (pick := λ entry : string * DayMeals,
                 if (0 <? length (dayRecipes (snd entry)))%nat
                 then Some (fst entry, dayRecipes (snd entry)) else None).
  assert (∀ q1 q2, plan = q1 ++ q2 →
            foldl (λ acc day,
                     let ids := dayRecipes (default [] (lookup_prop day plan)) in
                     if (0 <? length ids)%nat then set_prop day ids acc else acc)
                  (omap pick q1) (fst <$> q2)
            = omap pick plan) as Hgen.
  { intros q1 q2. revert q1. induction q2 as [|[day meals] q2 IH]; intros q1 Hp.
    - rewrite app_nil_r in Hp. subst q1. reflexivity.
    - cbn [fmap list_fmap fst foldl].
      assert (day ∉ fst <$> q1) as Hout.
      { rewrite Hp, fmap_app in Hnd. apply NoDup_app in Hnd as (_ & Hd & _).
        intros Hin. apply (Hd day Hin). cbn. apply list_elem_of_here. }
      assert (lookup_prop day plan = Some meals) as Hl
        by (rewrite Hp; apply lookup_prop_at, Hout).
      rewrite <- (IH (q1 ++ [(day, meals)]))
        by (rewrite <- app_assoc; exact Hp).
      f_equal. cbv zeta. rewrite Hl. cbn [default from_option id].
      rewrite omap_app. cbn [omap list_omap]. subst pick. cbn beta.
      cbn [fst snd].
      destruct (0 <? length (dayRecipes meals))%nat; [|rewrite app_nil_r; reflexivity].
      apply set_prop_fresh. intros Hin.
      apply list_elem_of_fmap in Hin as ([d ids] & -> & Hin).
      apply list_elem_of_omap in Hin as ([d' m'] & Hin & Hpick).
      cbn [fst snd] in Hpick.
      destruct (0 <? length (dayRecipes m'))%nat; [|discriminate].
      injection Hpick as <- _. apply Hout.
      apply list_elem_of_fmap. exists (d', m'). auto. }
  exact (Hgen [] plan eq_refl).
Qed.

(** *** Loading *)

Lemma strict_eq_true a b : strict_eq a b = true → a = b.
Proof.
  destruct a, b; cbn; try discriminate; try reflexivity.
  - intros H. apply Bool.eqb_prop in H. congruence.
  - intros H. f_equal. lia.
  - intros H%String.eqb_eq. congruence.
Qed.

Lemma find_identified recipes_prop recipe :
  identified recipes_prop → recipe ∈ recipes_prop →
  List.find (λ r, strict_eq (assoc "id" r) (assoc "id" recipe)) recipes_prop
  = Some recipe.
Proof.
  intros [Hnd Hids] Hin. induction recipes_prop as [|r l IH]; [inversion Hin|].
  cbn [fmap list_fmap] in Hnd. apply NoDup_cons in Hnd as [Hr Hnd].
  apply Forall_cons in Hids as [Hid Hids]. cbn [List.find].
  apply elem_of_cons in Hin as [->|Hin].
  - assert (strict_eq (assoc "id" r) (assoc "id" r) = true) as ->; [|reflexivity].
    destruct (assoc "id" r); try contradiction; cbn.
    + lia.
    + apply String.eqb_refl.
  - destruct (strict_eq (assoc "id" r) (assoc "id" recipe)) eqn:He.
    + apply strict_eq_true in He. exfalso. apply Hr. rewrite He.
      apply list_elem_of_fmap. eauto.
    + apply IH; assumption.
Qed.

Lemma assign_at day index mealTime recipe l1 meals l2 :
  day ∉ fst <$> l1 → mealTimes !! index = Some mealTime →
  assign day index recipe (l1 ++ (day, meals) :: l2)
  = (None, l1 ++ (day, set_prop mealTime (Some recipe) meals) :: l2).
Proof.
  intros Hout Hmeal. unfold assign.
  rewrite (lookup_prop_at _ _ _ _ Hout), Hmeal, (set_prop_at _ _ _ _ _ Hout).
  reflexivity.
Qed.

Abbreviation saved_entry :=
  (λ entry : string * list JsValue, (fst entry, Some (snd entry))).

Abbreviation pick_day :=
  (λ entry : string * DayMeals,
     if (0 <? length (dayRecipes (snd entry)))%nat
     then Some (fst entry, dayRecipes (snd entry)) else None).

Abbreviation empty_day := ((λ meal : string, (meal, @None RecipeObj)) <$> mealTimes).

(** One day of the saved plan, loaded into the empty day. *)
Lemma load_day recipes_prop day meals l1 l2 :
  identified recipes_prop →
  day ∉ fst <$> l1 →
  fst <$> meals = mealTimes →
  Forall (λ meal, ∀ recipe, snd meal = Some recipe → recipe ∈ recipes_prop) meals →
  for_each (load_entry recipes_prop) (saved_entry <$> from_option (λ e, [e]) [] (pick_day (day, meals)))
           (l1 ++ (day, empty_day) :: l2)
  = (None, l1 ++ (day, packed_day meals) :: l2).
Proof.
  intros Hid Hout Hkeys Hslots. unfold mealTimes in Hkeys. unfold load_entry.
  destruct meals as [|[k1 s1] [|[k2 s2] [|[k3 s3] [|]]]]; try discriminate.
  injection Hkeys as -> -> ->.
  apply Forall_cons in Hslots as [H1 Hslots].
  apply Forall_cons in Hslots as [H2 Hslots].
  apply Forall_cons in Hslots as [H3 _]. cbn [snd] in H1, H2, H3.
  destruct s1 as [r1|], s2 as [r2|], s3 as [r3|];
    cbn [dayRecipes omap list_omap snd fmap list_fmap length Nat.ltb Nat.leb
         from_option fst for_each];
    rewrite ?(find_identified recipes_prop r1 Hid (H1 r1 eq_refl)),
            ?(find_identified recipes_prop r2 Hid (H2 r2 eq_refl)),
            ?(find_identified recipes_prop r3 Hid (H3 r3 eq_refl));
    cbn [imap for_each fst snd length mealTimes Nat.ltb Nat.leb compose];
    repeat (erewrite assign_at; [|exact Hout|reflexivity]);
    reflexivity.
Qed.

Lemma for_each_app {S X} (body : X → S → option TypeError * S) l1 l2 s s1 :
  for_each body l1 s = (None, s1) →
  for_each body (l1 ++ l2) s = for_each body l2 s1.
Proof.
  revert s. induction l1 as [|x l1 IH]; intros s; cbn [for_each app].
  - intros [= ->]. reflexivity.
  - destruct (body x s) as [[e|] s']; [discriminate|]. apply IH.
Qed.

Lemma load_days recipes_prop (q1 q2 : MealPlan) :
  identified recipes_prop →
  NoDup (fst <$> (q1 ++ q2)) →
  Forall (λ entry,
            fst <$> snd entry = mealTimes ∧
            Forall (λ meal, ∀ recipe, snd meal = Some recipe → recipe ∈ recipes_prop)
                   (snd entry)) q2 →
  for_each (load_entry recipes_prop) (saved_entry <$> omap pick_day q2)
           (packed q1 ++ ((λ entry, (fst entry, empty_day)) <$> q2))
  = (None, packed (q1 ++ q2)).
Proof.
  intros Hid. revert q1. induction q2 as [|[day meals] q2 IH]; intros q1 Hnd Hok.
  - cbn. rewrite !app_nil_r. reflexivity.
  - apply Forall_cons in Hok as [[Hkeys Hslots] Hok]. cbn [snd] in Hkeys, Hslots.
    assert (day ∉ fst <$> packed q1) as Hout.
    { unfold packed. rewrite <- list_fmap_compose.
      rewrite fmap_app in Hnd. apply NoDup_app in Hnd as (_ & Hd & _).
      intros Hin. apply (Hd day); [exact Hin|]. cbn. apply list_elem_of_here. }
    pose proof (load_day recipes_prop day meals (packed q1)
                  ((λ entry, (fst entry, empty_day)) <$> q2) Hid Hout Hkeys Hslots)
      as Hday.
    assert (saved_entry <$> omap pick_day ((day, meals) :: q2)
            = (saved_entry <$> from_option (λ e, [e]) [] (pick_day (day, meals)))
              ++ (saved_entry <$> omap pick_day q2)) as ->.
    { cbn [omap list_omap]. destruct (pick_day (day, meals)); reflexivity. }
    cbn [fmap list_fmap fst].
    change (list_fmap _ _ (λ entry : string * DayMeals, (fst entry, empty_day)) q2)
      with ((λ entry : string * DayMeals, (fst entry, empty_day)) <$> q2).
    rewrite (for_each_app _ _ _ _ _ Hday).
    specialize (IH (q1 ++ [(day, meals)])).
    rewrite <- app_assoc in IH. cbn [app] in IH. specialize (IH Hnd Hok).
    unfold packed in IH at 1. rewrite fmap_app in IH.
    cbn [fmap list_fmap fst snd] in IH.
    rewrite <- app_assoc in IH. cbn [app] in IH. exact IH.
Qed.

(** A day comes back as it was exactly when no empty meal precedes a
    filled one. *)
Lemma packed_day_fixed (meals : DayMeals) :
  length meals = 3%nat →
  (packed_day meals = meals ↔
   ∀ i j recipe, (i < j)%nat →
     snd <$> (meals !! i) = Some None → snd <$> (meals !! j) ≠ Some (Some recipe)).
Proof.
  destruct meals as [|[k1 s1] [|[k2 s2] [|[k3 s3] [|]]]]; try discriminate.
  intros _. unfold packed_day.
  destruct s1 as [r1|], s2 as [r2|], s3 as [r3|];
    cbn [imap omap list_omap snd fst lookup list_lookup compose].
  all: split.
  all: try (intros Heq; discriminate Heq).
  all: try (intros H; reflexivity).
  all: try (intros _ [|[|[|i]]] [|[|[|j]]] recipe Hlt Hi Hj;
            vm_compute in Hi; vm_compute in Hj; first [lia | congruence]).
  all: intros H; exfalso;
       first [ exact (H 0%nat 1%nat _ ltac:(lia) eq_refl eq_refl)
             | exact (H 0%nat 2%nat _ ltac:(lia) eq_refl eq_refl)
             | exact (H 1%nat 2%nat _ ltac:(lia) eq_refl eq_refl) ].
Qed.

(** X21. Saving a plan and loading it again does not give the plan back
    but the plan with the recipes of each day moved up to the first meals
    of the day: the saved plan lists the recipes of a day without their
    meal, and loading fills Breakfast, Lunch, Dinner in that order.  The
    plan comes back as it was exactly when no day has an empty meal before
    a filled one. *)
Theorem saved_plan_reloads_packed recipes_prop plan plan_name st :
  identified recipes_prop → planned recipes_prop plan →
  loadMealPlan recipes_prop
    {| name := plan_name;
       recipes := (λ entry, (fst entry, Some (snd entry))) <$> plan_recipes plan |}
    st
  = setPlanName plan_name (setMealPlan (packed plan) st) ∧
  (packed plan = plan ↔
   ∀ day meals i j recipe,
     (day, meals) ∈ plan → (i < j)%nat →
     snd <$> (meals !! i) = Some None →
     snd <$> (meals !! j) ≠ Some (Some recipe)).
Proof.
  intros Hid Hplanned.
  destruct (planned_well_formed _ _ Hplanned) as [Hkeys Hok].
  assert (NoDup (fst <$> plan)) as Hnd by (rewrite Hkeys; apply days_distinct).
  split.
  - unfold loadMealPlan. cbn [recipes name].
    rewrite (plan_recipes_entries plan Hnd).
    assert (emptyPlan = packed [] ++ ((λ entry, (fst entry, empty_day)) <$> plan))
      as ->.
    { unfold emptyPlan. rewrite <- Hkeys, <- list_fmap_compose. reflexivity. }
    rewrite (load_days recipes_prop [] plan Hid Hnd Hok). reflexivity.
  - assert (∀ q : MealPlan,
              Forall (λ entry, fst <$> snd entry = mealTimes) q →
              (packed q = q ↔
               ∀ day meals, (day, meals) ∈ q → packed_day meals = meals)) as Hall.
    { induction q as [|[d m] q IH]; intros Hq.
      - split; [intros _ ? ? Hin; inversion Hin | reflexivity].
      - apply Forall_cons in Hq as [_ Hq]. cbn [packed fmap list_fmap fst snd].
        split.
        + intros [= Hm Hrest] day meals [[= -> ->]|Hin]%elem_of_cons; [exact Hm|].
          exact (proj1 (IH Hq) Hrest day meals Hin).
        + intros H. rewrite (H d m) by apply list_elem_of_here. f_equal.
          apply (IH Hq). intros day meals Hin.
          apply (H day meals), list_elem_of_further, Hin. }
    assert (Forall (λ entry : string * DayMeals, fst <$> snd entry = mealTimes) plan)
      as Hmeals by (eapply Forall_impl; [exact Hok | intros ? [? _]; assumption]).
    rewrite (Hall plan Hmeals).
    assert (∀ day meals, (day, meals) ∈ plan → length meals = 3%nat) as Hlen.
    { intros day meals Hin. rewrite Forall_forall in Hmeals.
      specialize (Hmeals _ Hin). cbn [snd] in Hmeals.
      rewrite <- (length_fmap fst), Hmeals. reflexivity. }
    split.
    + intros H day meals i j recipe Hin.
      apply (proj1 (packed_day_fixed meals (Hlen day meals Hin)) (H day meals Hin)).
    + intros H day meals Hin.
      apply (proj2 (packed_day_fixed meals (Hlen day meals Hin))).
      intros i j recipe. exact (H day meals i j recipe Hin).
Qed.

End PlannerFacts.
Section PlannerSaveFacts.

Import Api MealPlanner.

Lemma for_each_unchanged {S X} (body : X → S → option TypeError * S) l s :
  (∀ x, x ∈ l → body x s = (None, s)) → for_each body l s = (None, s).
Proof.
  induction l as [|x l IH]; intros Hbody; [reflexivity|].
  cbn [for_each]. rewrite (Hbody x) by apply list_elem_of_here.
  apply IH. intros y Hy. apply Hbody, list_elem_of_further, Hy.
Qed.

Lemma identified_not_temp recipes_prop recipe :
  identified recipes_prop → recipe ∈ recipes_prop → is_temp recipe = false.
Proof.
  intros [_ Hids] Hin. rewrite Forall_forall in Hids. specialize (Hids _ Hin).
  unfold is_temp. destruct (assoc "id" recipe); try reflexivity. exact Hids.
Qed.

(** No slot of a plan filled from the given recipes holds a temporary
    recipe. *)
Lemma slot_not_temp recipes_prop plan day mealTime :
  identified recipes_prop → well_formed recipes_prop plan →
  day ∈ days → mealTime ∈ mealTimes →
  ∃ slot, slot_of plan day mealTime = inr slot ∧ temp_in slot = None.
Proof.
  intros Hid [Hkeys Hok] Hday Hmeal. rewrite <- Hkeys in Hday.
  destruct (lookup_prop_key day plan Hday) as (l1 & meals & l2 & -> & Hout).
  unfold slot_of. rewrite (lookup_prop_at _ _ _ _ Hout).
  rewrite Forall_app, Forall_cons in Hok. destruct Hok as (_ & [Hm Hs] & _).
  cbn [snd] in Hm, Hs. rewrite <- Hm in Hmeal.
  destruct (lookup_prop_key mealTime meals Hmeal) as (m1 & slot & m2 & -> & Hout').
  rewrite (lookup_prop_at _ _ _ _ Hout'). eexists. split; [reflexivity|].
  rewrite Forall_app, Forall_cons in Hs. destruct Hs as (_ & Hslot & _).
  cbn [snd] in Hslot. destruct slot as [recipe|]; [|reflexivity].
  cbn [temp_in]. rewrite (identified_not_temp _ _ Hid (Hslot recipe eq_refl)).
  reflexivity.
Qed.

Lemma tempRecipes_none recipes_prop plan :
  identified recipes_prop → well_formed recipes_prop plan →
  tempRecipes plan = (None, []).
Proof.
  intros Hid Hwf. unfold tempRecipes.
  apply for_each_unchanged. intros day Hday.
  apply for_each_unchanged. intros mealTime Hmeal.
  destruct (slot_not_temp _ _ _ _ Hid Hwf Hday Hmeal) as (slot & -> & ->).
  reflexivity.
Qed.

Lemma with_saved_ids_unchanged recipes_prop savedRecipeIds plan :
  identified recipes_prop → well_formed recipes_prop plan →
  with_saved_ids savedRecipeIds plan = (None, plan).
Proof.
  intros Hid Hwf. unfold with_saved_ids.
  apply for_each_unchanged. intros day Hday.
  apply for_each_unchanged. intros mealTime Hmeal.
  destruct (slot_not_temp _ _ _ _ Hid Hwf Hday Hmeal) as (slot & -> & ->).
  reflexivity.
Qed.

(** X22. [saveMealPlan] sends nothing for a blank name.  For a plan filled
    from the saved recipes it creates no recipe and leaves the plan as it
    is: it posts the name and the recipes of each day to [/api/meal-plans]
    between one and four times; after a successful POST it asks for the
    saved plans once, clears the name and reports success, otherwise it
    keeps the name and reports the error; it never stays in the loading
    state. *)
Theorem saveMealPlan_posts_the_plan server recipes_prop st n :
  identified recipes_prop → planned recipes_prop (mealPlan st) →
  (Js.trim (planName st) = "" →
   saveMealPlan server st n
   = (alert "Please enter a name for your meal plan" st, n)) ∧
  (Js.trim (planName st) ≠ "" →
   ∃ r, (r ≤ 3)%nat ∧
     let '(st', n') := saveMealPlan server st n in
     let posts :=
       replicate (S r) ("/api/meal-plans", planData (planName st) (mealPlan st)) in
     mealPlan st' = mealPlan st ∧ isLoading st' = false ∧
     slept n' = slept n + 1000 * Z.of_nat r ∧
     (∀ j, (j < r)%nat → will_retry (server (length (sent n) + j)%nat) = true) ∧
     match server (length (sent n) + r)%nat with
     | Resolved _ =>
         sent n' = sent n ++ posts
                     ++ [("/api/meal-plans",
                          JObj [("page", JNum 1); ("page_size", JNum 10)])] ∧
         planName st' = "" ∧
         alerts st' = alerts st ++ ["Meal plan saved successfully!"] ∧
         savedPlans st' = match server (length (sent n) + S r)%nat with
                          | Resolved plans => plans
                          | Rejected _ => savedPlans st
                          end
     | Rejected _ =>
         sent n' = sent n ++ posts ∧
         planName st' = planName st ∧
         alerts st' = alerts st ++ ["Error saving meal plan. Please try again."] ∧
         savedPlans st' = savedPlans st
     end).
Proof.
  intros Hid Hplanned. pose proof (planned_well_formed _ _ Hplanned) as Hwf.
  unfold saveMealPlan. cbn [truthy]. split.
  - intros ->. reflexivity.
  - intros Hname. apply String.eqb_neq in Hname. rewrite Hname. cbn [negb].
    rewrite (tempRecipes_none _ _ Hid Hwf). cbn [save_temps].
    rewrite (with_saved_ids_unchanged _ _ _ Hid Hwf).
    unfold createMealPlan.
    destruct (retryRequest_post server "/api/meal-plans"
                (planData (planName st) (mealPlan st)) MAX_RETRIES n)
      as (r & Hr & Hrun).
    exists r. split; [exact Hr|].
    destruct (retryRequest (post server "/api/meal-plans" _) MAX_RETRIES n)
      as [outcome n2].
    destruct Hrun as (Hsent & Hslept & Hout & Hbefore & _).
    rewrite <- Hout. destruct outcome as [savedPlan|e].
    + unfold loadSavedPlans, getMealPlans.
      assert (length (sent n2) = (length (sent n) + S r)%nat) as Hlen.
      { rewrite Hsent, length_app, length_replicate. reflexivity. }
      rewrite Hlen.
      destruct (server (length (sent n) + S r)%nat) as [plans|e];
        cbn [mealPlan isLoading planName alerts savedPlans setIsLoading alert
             setPlanName setSavedPlans setMealPlan sent slept];
        rewrite Hsent, <- app_assoc; repeat split; assumption.
    + cbn [mealPlan isLoading planName alerts savedPlans setIsLoading alert
           setPlanName setSavedPlans setMealPlan sent slept].
      repeat split; assumption.
Qed.

End PlannerSaveFacts.
(** ** The line "Showing a-b of n results" *)

(** X23. With more than one page the component is shown, and the ranges it
    prints for successive pages tile the results: page one starts at 1,
    each page starts right after the one before, holds at most
    [itemsPerPage] results, and the last page ends at [totalItems]. *)
Theorem page_ranges_tile_the_results itemsPerPage totalItems totalPages :
  0 < itemsPerPage →
  (totalPages - 1) * itemsPerPage < totalItems ≤ totalPages * itemsPerPage →
  1 < totalPages →
  (∀ currentPage,
     Pagination.render currentPage totalPages totalItems itemsPerPage
     = Some (Pagination.startItem currentPage itemsPerPage,
             Pagination.endItem currentPage itemsPerPage totalItems,
             Pagination.getPageNumbers totalPages currentPage)) ∧
  Pagination.startItem 1 itemsPerPage = 1 ∧
  Pagination.endItem totalPages itemsPerPage totalItems = totalItems ∧
  ∀ currentPage,
    1 ≤ currentPage ≤ totalPages →
    let first := Pagination.startItem currentPage itemsPerPage in
    let last := Pagination.endItem currentPage itemsPerPage totalItems in
    1 ≤ first ≤ last ∧ last ≤ totalItems ∧ last - first + 1 ≤ itemsPerPage ∧
    (currentPage < totalPages →
     Pagination.startItem (currentPage + 1) itemsPerPage = last + 1).
Proof.
  intros Hper Htotal Hpages.
  unfold Pagination.render, Pagination.startItem, Pagination.endItem.
  split; [|split; [|split]].
  - intros currentPage. assert ((totalPages <=? 1) = false) as -> by lia.
    reflexivity.
  - lia.
  - lia.
  - intros currentPage Hcur. cbv zeta.
    assert (currentPage < totalPages → currentPage * itemsPerPage < totalItems)
      as Hfull by nia.
    destruct (decide (currentPage < totalPages)) as [Hlt|Hlast].
    + specialize (Hfull Hlt). rewrite Z.min_l by lia. nia.
    + assert (currentPage = totalPages) as -> by lia. rewrite Z.min_r by lia.
      nia.
Qed.

(** ** Worked instances *)

Lemma page_buttons_cover_current_witness :
  Pagination.Page 4 ∈ Pagination.getPageNumbers 10 5 ∧
  Pagination.Page 6 ∈ Pagination.getPageNumbers 10 5 ∧
  Pagination.Page 10 ∈ Pagination.getPageNumbers 10 5.
Proof.
  destruct (page_buttons_cover_current 10 5) as (_ & Hlast & _ & Hprev & Hnext & _);
    [lia|].
  split; [apply Hprev; lia|]. split; [apply Hnext; lia | exact Hlast].
Defined.

Lemma page_ranges_tile_the_results_witness :
  Pagination.startItem 3 10 = Pagination.endItem 2 10 25 + 1 ∧
  Pagination.endItem 3 10 25 = 25.
Proof.
  destruct (page_ranges_tile_the_results 10 25 3) as (_ & _ & Hlast & Hpage);
    [lia | lia | lia |].
  split; [|exact Hlast].
  destruct (Hpage 2) as (_ & _ & _ & Hnext); [lia|]. apply Hnext. lia.
Defined.

Lemma cleaned_ingredients_are_named_witness :
  ∃ cleaned,
    Api.cleanRecipeData (Samples.sample_recipe (Api.JStr "Easy") Api.JNull)
      = inr cleaned ∧
    Forall (λ i, Api.ing_name i ≠ "" ∧ Js.trim (Api.ing_name i) = Api.ing_name i)
           (Api.c_ingredients cleaned) ∧
    (length (Api.c_ingredients cleaned) ≤ 1)%nat.
Proof.
  eexists. split; [reflexivity|].
  destruct (cleaned_ingredients_are_named
              (Samples.sample_recipe (Api.JStr "Easy") Api.JNull) _ eq_refl)
    as (Hnamed & Harray & _).
  split; [exact Hnamed|].
  destruct (Harray [Api.JStr "leek "] eq_refl) as (_ & Hlen & _). exact Hlen.
Defined.

Lemma cleanRecipeData_idempotent_witness :
  ∃ cleaned,
    Api.cleanRecipeData (Samples.sample_recipe (Api.JStr "eXPERT") (Api.JStr Samples.two_lines))
      = inr cleaned ∧
    Api.cleanRecipeData (ApiClient.as_recipe cleaned) = inr cleaned.
Proof.
  eexists. split; [reflexivity|].
  apply (cleanRecipeData_idempotent
           (Samples.sample_recipe (Api.JStr "eXPERT") (Api.JStr Samples.two_lines))).
  reflexivity.
Defined.

Lemma interceptor_sets_user_message_witness :
  ∃ error',
    ApiClient.on_rejected MoreSamples.to_text MoreSamples.not_found = inr error' ∧
    ApiClient.shown_message error' = Api.JStr "Recipe not found" ∧
    Api.retryable (ApiClient.view error') = false.
Proof.
  eexists. split; [reflexivity|].
  destruct (interceptor_sets_user_message MoreSamples.to_text MoreSamples.not_found
              _ eq_refl) as (_ & Hshown & _ & _ & Hretry).
  split; [exact Hshown | exact Hretry].
Defined.

Lemma interceptor_throws_on_missing_body_witness :
  ∃ e, ApiClient.on_rejected MoreSamples.to_text MoreSamples.bad_gateway = inl e.
Proof.
  apply (interceptor_throws_on_missing_body MoreSamples.to_text MoreSamples.bad_gateway).
  - intros r [= <-]. simpl. lia.
  - eexists. split; [reflexivity|]. simpl. repeat split; try lia. left. reflexivity.
Defined.

Lemma vegan_reports_what_vegetarian_and_dairy_free_do_witness :
  RecipeGenerator.flagged
    (RecipeGenerator.checkDietaryConflicts
       [RecipeGenerator.DairyFree; RecipeGenerator.Vegan] ["rice"; "Ice Cream"])
    RecipeGenerator.Vegan "Ice Cream".
Proof.
  apply (vegan_reports_what_vegetarian_and_dairy_free_do
           [RecipeGenerator.DairyFree; RecipeGenerator.Vegan] ["rice"; "Ice Cream"]
           RecipeGenerator.DairyFree "Ice Cream").
  - right. reflexivity.
  - apply list_elem_of_further, list_elem_of_here.
  - exists {| RecipeGenerator.diet := RecipeGenerator.DairyFree;
              RecipeGenerator.ingredients := ["Ice Cream"] |}.
    split; [apply list_elem_of_here|]. split; [reflexivity|].
    apply list_elem_of_here.
Defined.

Lemma card_renumbers_listed_steps_witness :
  RecipeCard.formatInstructions
    (Api.JArr [Api.JStr "3. Chop"; Api.JStr "3. Fry"])
  = inr ("1. Chop" +:+ String Js.LF "2. Fry").
Proof.
  destruct (card_renumbers_listed_steps ["Chop"; "Fry"] (λ _, 2%nat)) as (_ & H & _).
  - repeat constructor; try discriminate; reflexivity.
  - exact H.
Defined.

Lemma parser_keeps_first_three_valid_witness :
  GeminiService._parse_response Samples.five_entries Samples.titled
    MoreSamples.not_stew Samples.pantry_pasta "five recipes"
  = ["Soup"; "Salad"; "Curry"].
Proof.
  destruct (parser_keeps_first_three_valid Samples.five_entries Samples.titled
              MoreSamples.not_stew Samples.pantry_pasta "five recipes"
              ["Soup"; "Stew"; "Salad"; "Curry"; "Pie"] eq_refl) as [Hvalid _].
  apply (Hvalid ["Soup"; "Stew"; "Salad"; "Curry"; "Pie"]).
  repeat constructor.
Defined.

Lemma batch_total_counts_recipes_witness :
  ∃ answer (sets : list (list string)),
    fst (RecipesApi.generate_recipes_batch Samples.five_entries Samples.titled
           Samples.any_recipe Samples.pantry_pasta Samples.pantry_pasta
           Samples.plain_text Samples.second_down [2; 0; 1]%nat
           Samples.three_requests)
      = Some (Py.Return answer) ∧
    length sets = 3%nat ∧
    answer !! "total_recipes" = Some (Py.VInt (Z.of_nat (length (concat sets)))) ∧
    answer !! "total_recipes" = Some (Py.VInt 7).
Proof.
  destruct (batch_total_counts_recipes Samples.five_entries Samples.titled
              Samples.any_recipe Samples.pantry_pasta Samples.pantry_pasta
              Samples.plain_text Samples.second_down [2; 0; 1]%nat
              Samples.three_requests)
    as (answer & sets & Hrun & _ & Hsets & Htotal & _).
  - vm_compute. lia.
  - change (seq 0 (length Samples.three_requests)) with [0; 1; 2]%nat.
    apply (Permutation_cons_append [0; 1]%nat 2%nat).
  - exists answer, sets. split; [exact Hrun|]. split; [exact Hsets|].
    split; [exact Htotal|].
    pose proof (f_equal (λ outcome,
                           match outcome with
                           | Some (Py.Return a) => a !! "total_recipes"
                           | _ => None
                           end) Hrun) as Hlookup.
    cbv beta iota in Hlookup. rewrite <- Hlookup. vm_compute. reflexivity.
Defined.

Lemma saved_plan_reloads_packed_witness :
  MealPlanner.mealPlan
    (MealPlanner.loadMealPlan MoreSamples.saved_recipes
       {| MealPlanner.name := "Week 1";
          MealPlanner.recipes :=
            (λ entry, (fst entry, Some (snd entry)))
              <$> MealPlanner.plan_recipes MoreSamples.dinner_only |}
       MoreSamples.week)
  = MealPlanner.addRecipeToSlot "Monday" "Breakfast" MoreSamples.soup
      MealPlanner.emptyPlan.
Proof.
  destruct (saved_plan_reloads_packed MoreSamples.saved_recipes
              MoreSamples.dinner_only "Week 1" MoreSamples.week) as [Hload _].
  - split.
    + apply NoDup_cons. split; [|apply NoDup_singleton].
      intros Hin%list_elem_of_singleton. discriminate.
    + repeat constructor.
  - apply MealPlanner.planned_add;
      [ apply list_elem_of_here
      | do 2 apply list_elem_of_further; apply list_elem_of_here
      | apply list_elem_of_here
      | apply MealPlanner.planned_init ].
  - rewrite Hload. reflexivity.
Defined.

Lemma saveMealPlan_posts_the_plan_witness :
  MealPlanner.isLoading
    (fst (MealPlanner.saveMealPlan MoreSamples.accepting MoreSamples.week Api.Net0))
  = false ∧
  MealPlanner.mealPlan
    (fst (MealPlanner.saveMealPlan MoreSamples.accepting MoreSamples.week Api.Net0))
  = MoreSamples.dinner_only.
Proof.
  destruct (saveMealPlan_posts_the_plan MoreSamples.accepting
              MoreSamples.saved_recipes MoreSamples.week Api.Net0) as [_ Hsave].
  - split.
    + apply NoDup_cons. split; [|apply NoDup_singleton].
      intros Hin%list_elem_of_singleton. discriminate.
    + repeat constructor.
  - apply MealPlanner.planned_add;
      [ apply list_elem_of_here
      | do 2 apply list_elem_of_further; apply list_elem_of_here
      | apply list_elem_of_here
      | apply MealPlanner.planned_init ].
  - destruct Hsave as (r & _ & Hrun); [discriminate|].
    destruct (MealPlanner.saveMealPlan MoreSamples.accepting MoreSamples.week Api.Net0)
      as [st' n'].
    destruct Hrun as (Hplan & Hloading & _). split; [exact Hloading | exact Hplan].
Defined.
